(** * strava-ics: the Strava -> calendar feed endpoint (api/strava-ics.ts)

    A shallow embedding of the serverless handler: the text helpers
    ([icsEscape], [secondsToHMS], [metersToKm], [formatAsUTC]), the event
    builder [buildEvent], the token exchange [getAccessToken], the
    pagination loop of [handler] and the assembled calendar text.

    Conventions.
    - A JavaScript string is a [string] of 8-bit code units; the line feed
      is character 10, the carriage return character 13.
    - A JavaScript number that the code compares or clamps is a [jsnum]:
      NaN, an infinity, or a finite value kept as the exact rational it
      denotes.  The quotient that [metersToKm] prints is rounded to
      binary64 by [Binary64.round]; elsewhere the arithmetic is exact.
    - Network calls are recorded in a trace, in the order they are issued. *)

From Stdlib Require Import List Bool Arith ZArith QArith Qround Lia Lqa.
From Stdlib Require Import Ascii String DecimalString.
From Stdlib Require DecimalZ DecimalPos.
Import ListNotations.

Close Scope Q_scope.
Local Open Scope list_scope.
Local Open Scope string_scope.

(* ================================================================== *)
(** ** Characters and strings *)

Module Chars.

Definition LF : ascii := Ascii.ascii_of_nat 10.
Definition CR : ascii := Ascii.ascii_of_nat 13.
Definition backslash : ascii := Ascii.ascii_of_nat 92.
Definition comma : ascii := ",".
Definition semicolon : ascii := ";".

Definition CRLF : string := String CR (String LF EmptyString).
Definition NL : string := String LF EmptyString.

(** White space and line terminators of the language that fit a code unit
    below 256: TAB, LF, VT, FF, CR, SP and NBSP. *)
Definition is_space (c : ascii) : bool :=
  let n := Ascii.nat_of_ascii c in
  (Nat.leb 9 n && Nat.leb n 13) || Nat.eqb n 32 || Nat.eqb n 160.

Definition is_digit (c : ascii) : bool :=
  let n := Ascii.nat_of_ascii c in Nat.leb 48 n && Nat.leb n 57.

Definition digit_val (c : ascii) : Z := (Z.of_nat (Ascii.nat_of_ascii c) - 48)%Z.

(** Value of a hexadecimal digit, if it is one. *)
Definition hex_val (c : ascii) : option Z :=
  let n := Ascii.nat_of_ascii c in
  if Nat.leb 48 n && Nat.leb n 57 then Some (Z.of_nat n - 48)%Z
  else if Nat.leb 65 n && Nat.leb n 70 then Some (Z.of_nat n - 55)%Z
  else if Nat.leb 97 n && Nat.leb n 102 then Some (Z.of_nat n - 87)%Z
  else None.

(** Lower-case mapping of one code unit: A-Z and the upper-case letters of
    the Latin-1 block. *)
Definition lower (c : ascii) : ascii :=
  let n := Ascii.nat_of_ascii c in
  if (Nat.leb 65 n && Nat.leb n 90)
     || (Nat.leb 192 n && Nat.leb n 222 && negb (Nat.eqb n 215))
  then Ascii.ascii_of_nat (n + 32)%nat else c.

End Chars.
Import Chars.

Module Str.

(** [s.replace(/c/g, r)] for a one-character pattern [c]. *)
Fixpoint replaceAll (c : ascii) (r : string) (s : string) : string :=
  match s with
  | EmptyString => EmptyString
  | String x s' =>
      if Ascii.eqb x c then r ++ replaceAll c r s'
      else String x (replaceAll c r s')
  end.

(** [parts.join(sep)] *)
Fixpoint join (sep : string) (parts : list string) : string :=
  match parts with
  | [] => EmptyString
  | [p] => p
  | p :: ps => p ++ sep ++ join sep ps
  end.

(** A string is truthy when it is not empty. *)
Definition truthy (s : string) : bool :=
  match s with EmptyString => false | _ => true end.

(** [s.toLowerCase()], for the code units below 256 that a [string]
    holds: there the mapping of the language turns one unit into one unit. *)
Fixpoint toLowerCase (s : string) : string :=
  match s with
  | EmptyString => EmptyString
  | String x s' => String (lower x) (toLowerCase s')
  end.

Fixpoint trimStart (s : string) : string :=
  match s with
  | EmptyString => EmptyString
  | String x s' => if is_space x then trimStart s' else s
  end.

(** Drops the white space at the end: a character is dropped when it is
    white space and nothing is kept after it. *)
Fixpoint trimEnd (s : string) : string :=
  match s with
  | EmptyString => EmptyString
  | String x s' =>
      match trimEnd s' with
      | EmptyString => if is_space x then EmptyString else String x EmptyString
      | t => String x t
      end
  end.

(** [s.trim()] *)
Definition trim (s : string) : string := trimEnd (trimStart s).

(** Puts a character in front of the first piece. *)
Definition cons_head (x : ascii) (pieces : list string) : list string :=
  match pieces with
  | [] => [String x EmptyString]
  | p :: ps => String x p :: ps
  end.

(** [s.split(c)] for a one-character separator. *)
Fixpoint split (c : ascii) (s : string) : list string :=
  match s with
  | EmptyString => [EmptyString]
  | String x s' =>
      if Ascii.eqb x c then EmptyString :: split c s'
      else cons_head x (split c s')
  end.

(** [s.padStart(2, "0")] *)
Definition padStart2 (s : string) : string :=
  match s with
  | EmptyString => "00"
  | String x EmptyString => String "0" s
  | _ => s
  end.

(** [list.includes(x)] on strings. *)
Definition includes (l : list string) (x : string) : bool :=
  existsb (String.eqb x) l.

(** No line feed occurs in the string. *)
Fixpoint no_lf (s : string) : bool :=
  match s with
  | EmptyString => true
  | String x s' => negb (Ascii.eqb x LF) && no_lf s'
  end.

(** The lines of a text whose line terminator is CR LF. *)
Fixpoint lines (s : string) : list string :=
  match s with
  | EmptyString => [EmptyString]
  | String x s' =>
      match s' with
      | String y s'' =>
          if Ascii.eqb x CR && Ascii.eqb y LF then EmptyString :: lines s''
          else cons_head x (lines s')
      | EmptyString => [String x EmptyString]
      end
  end.

End Str.

(* ================================================================== *)
(** ** ICS text escaping *)

(** [icsEscape]: four global replacements, in the order of the source. *)
Definition icsEscape (text : string) : string :=
  Str.replaceAll semicolon (String backslash (String semicolon EmptyString))
    (Str.replaceAll comma (String backslash (String comma EmptyString))
      (Str.replaceAll LF (String backslash "n")
        (Str.replaceAll backslash (String backslash (String backslash EmptyString))
           text))).

(** The decoder of RFC 5545 TEXT values (section 3.3.11), read left to
    right: a backslash followed by [n] or [N] is a line feed, a backslash
    followed by a backslash, a comma or a semicolon is that character.
    A backslash before anything else is kept as it stands.  [pending]
    tells that the previous character was a backslash not yet decoded. *)
Fixpoint unescape_from (pending : bool) (s : string) : string :=
  match s with
  | EmptyString => if pending then String backslash EmptyString else EmptyString
  | String y s' =>
      if pending then
        if Ascii.eqb y "n" || Ascii.eqb y "N" then String LF (unescape_from false s')
        else if Ascii.eqb y backslash || Ascii.eqb y comma || Ascii.eqb y semicolon
             then String y (unescape_from false s')
             else String backslash (String y (unescape_from false s'))
      else if Ascii.eqb y backslash then unescape_from true s'
           else String y (unescape_from false s')
  end.

Definition icsUnescape (s : string) : string := unescape_from false s.

(* ================================================================== *)
(** ** Numbers *)

(** A number of the language, as far as the handler compares and clamps
    it.  A finite value is the exact rational it denotes. *)
Inductive jsnum : Type :=
| NaN
| NegInf
| Fin (q : Q)
| PosInf.

Definition of_Z (z : Z) : jsnum := Fin (inject_Z z).
Definition of_nat (n : nat) : jsnum := of_Z (Z.of_nat n).

(** [a < b]; false as soon as one side is NaN. *)
Definition js_lt (a b : jsnum) : bool :=
  match a, b with
  | NaN, _ | _, NaN => false
  | NegInf, NegInf => false
  | NegInf, _ => true
  | Fin _, NegInf => false
  | Fin p, Fin q => negb (Qle_bool q p)
  | Fin _, PosInf => true
  | PosInf, _ => false
  end.

(** [a >= b]; false as soon as one side is NaN. *)
Definition js_ge (a b : jsnum) : bool :=
  match a, b with
  | NaN, _ | _, NaN => false
  | _, NegInf => true
  | NegInf, _ => false
  | PosInf, _ => true
  | Fin _, PosInf => false
  | Fin p, Fin q => Qle_bool q p
  end.

Definition Math_min (a b : jsnum) : jsnum :=
  match a, b with
  | NaN, _ | _, NaN => NaN
  | _, _ => if js_lt b a then b else a
  end.

Definition Math_max (a b : jsnum) : jsnum :=
  match a, b with
  | NaN, _ | _, NaN => NaN
  | _, _ => if js_lt a b then b else a
  end.

(** The value is a whole number. *)
Definition is_integer (x : jsnum) : bool :=
  match x with
  | Fin q => Z.eqb (Z.modulo (Qnum q) (Zpos (Qden q))) 0
  | _ => false
  end.

(** [lo <= x <= hi] for a finite [x]. *)
Definition in_range (lo hi : Z) (x : jsnum) : bool :=
  match x with
  | Fin q => Qle_bool (inject_Z lo) q && Qle_bool q (inject_Z hi)
  | _ => false
  end.

(** The same number, written the same way. *)
Definition jsnum_eqb (a b : jsnum) : bool :=
  match a, b with
  | NaN, NaN | NegInf, NegInf | PosInf, PosInf => true
  | Fin p, Fin q => Z.eqb (Qnum p) (Qnum q) && Pos.eqb (Qden p) (Qden q)
  | _, _ => false
  end.

(** [m * 10^k] *)
Definition scale10 (m k : Z) : Q :=
  if Z.leb 0 k then inject_Z (m * 10 ^ k)
  else Qmake m (Z.to_pos (10 ^ (- k))).

(** ** Conversion of a string to a number ([Number(s)])

    The StringNumericLiteral grammar: optional white space around an
    optional literal, which is a signed decimal literal (digits, fraction,
    exponent, or [Infinity]) or an unsigned binary, octal or hexadecimal
    integer.  An empty literal is 0; anything else is NaN.  The value is
    the exact one of the literal: the language takes the binary64 number
    nearest to it, which is the same for the whole numbers and the short
    fractions below 2^53. *)
Module NumberParse.

(** Reads digits of the given base; returns their value, how many were
    read and what follows. *)
Fixpoint digits_from (base : Z) (acc : Z) (count : nat) (s : string)
  : Z * nat * string :=
  match s with
  | EmptyString => (acc, count, s)
  | String c s' =>
      match hex_val c with
      | Some d =>
          if Z.ltb d base then digits_from base (acc * base + d) (S count) s'
          else (acc, count, s)
      | None => (acc, count, s)
      end
  end.

Definition digits (base : Z) (s : string) : Z * nat * string :=
  digits_from base 0 0 s.

(** An integer written in another base after its two-character prefix. *)
Definition radix_literal (base : Z) (s : string) : jsnum :=
  match digits base s with
  | (v, S _, EmptyString) => of_Z v
  | _ => NaN
  end.

(** The exponent part, if the rest of the literal is one. *)
Definition exponent (s : string) : option Z :=
  match s with
  | EmptyString => Some 0%Z
  | String e s1 =>
      if Ascii.eqb e "e" || Ascii.eqb e "E" then
        let '(neg, s2) :=
          match s1 with
          | String "-" t => (true, t)
          | String "+" t => (false, t)
          | _ => (false, s1)
          end in
        match digits 10 s2 with
        | (v, S _, EmptyString) => Some (if neg then (- v)%Z else v)
        | _ => None
        end
      else None
  end.

(** An unsigned decimal literal. *)
Definition unsigned_decimal (s : string) : jsnum :=
  if String.eqb s "Infinity" then PosInf else
  let '(ip, ni, r1) := digits 10 s in
  let '(fp, nf, r2) :=
    match r1 with
    | String "." t => digits 10 t
    | _ => (0%Z, 0, r1)
    end in
  match ni + nf with
  | 0 => NaN
  | _ =>
      match exponent r2 with
      | Some e => Fin (scale10 (ip * 10 ^ Z.of_nat nf + fp) (e - Z.of_nat nf))
      | None => NaN
      end
  end.

Definition negate (x : jsnum) : jsnum :=
  match x with
  | NaN => NaN
  | NegInf => PosInf
  | PosInf => NegInf
  | Fin q => Fin (Qopp q)
  end.

Definition StringToNumber (s : string) : jsnum :=
  match Str.trim s with
  | EmptyString => of_Z 0
  | String "0" (String "x" t) | String "0" (String "X" t) => radix_literal 16 t
  | String "0" (String "o" t) | String "0" (String "O" t) => radix_literal 8 t
  | String "0" (String "b" t) | String "0" (String "B" t) => radix_literal 2 t
  | String "-" t => negate (unsigned_decimal t)
  | String "+" t => unsigned_decimal t
  | t => unsigned_decimal t
  end.

End NumberParse.

(* ================================================================== *)
(** ** Printing numbers *)

(** [String(n)] for a whole number, in plain decimal digits (the form the
    language uses below 10^21). *)
Definition String_of_Z (z : Z) : string :=
  DecimalString.NilZero.string_of_int (Z.to_int z).

(** [pad] of [formatAsUTC] and the map of [secondsToHMS]:
    [String(n).padStart(2, "0")]. *)
Definition pad (n : Z) : string := Str.padStart2 (String_of_Z n).

(** Rounding to binary64: what a division of the language returns for an
    exact quotient.  Numbers are of the form [n * 2^e] with [n] below 2^53
    and [e] from -1074 on; the nearest one is taken, on a tie the one with
    the even [n].  Overflow to an infinity (from 2^1024 on) is left out. *)
Module Binary64.

(** [2^e] as a rational. *)
Definition pow2 (e : Z) : Q :=
  if (0 <=? e)%Z then inject_Z (2 ^ e) else Qmake 1 (Z.to_pos (2 ^ (- e))).

(** The whole number nearest to [y], the even one on a tie. *)
Definition nearest_even (y : Q) : Z :=
  let n := Qfloor y in
  match Qcompare (Qminus y (inject_Z n)) (Qmake 1 2) with
  | Lt => n
  | Gt => (n + 1)%Z
  | Eq => if Z.even n then n else (n + 1)%Z
  end.

(** The largest [l] with [2^l <= x], for a positive [x]. *)
Definition floor_log2 (x : Q) : Z :=
  let l := (Z.log2 (Qnum x) - Z.log2 (Zpos (Qden x)))%Z in
  if Qle_bool (pow2 l) x then l else (l - 1)%Z.

(** The exponent of the last binary place kept for [x]: 52 places below
    the leading one, and not below the subnormal numbers. *)
Definition ulp_exponent (x : Q) : Z := Z.max (floor_log2 x - 52) (-1074).

Definition round_positive (x : Q) : Q :=
  let e := ulp_exponent x in
  Qred (Qmult (inject_Z (nearest_even (Qdiv x (pow2 e)))) (pow2 e)).

Definition round (x : Q) : Q :=
  match Qcompare x 0 with
  | Eq => 0
  | Gt => round_positive x
  | Lt => Qopp (round_positive (Qopp x))
  end.

End Binary64.

(** [x.toFixed(2)] of a value that is not negative and below 10^21: [n]
    hundredths, for the whole number [n] nearest to [100 * x] taken
    exactly, the larger one on a tie. *)
Definition fixed2 (x : Q) : string :=
  let n := Qfloor (Qplus (Qmult x (inject_Z 100)) (Qmake 1 2)) in
  String_of_Z (Z.div n 100) ++ "." ++ pad (Z.modulo n 100).

(** [x.toFixed(2)], for magnitudes below 10^21 (from there on the language
    writes the number as [String(x)], in exponent notation). *)
Definition toFixed2 (x : Q) : string :=
  if Qle_bool 0 x then fixed2 x else "-" ++ fixed2 (Qopp x).

(** [Math.round(x)] *)
Definition Math_round (x : Q) : Z := Qfloor (Qplus x (Qmake 1 2)).

(** [(m / 1000).toFixed(2)]: the quotient is a binary64 number. *)
Definition metersToKm (m : Q) : string :=
  toFixed2 (Binary64.round (Qdiv m (inject_Z 1000))).

(** [secondsToHMS] on a whole number of seconds.  [%] is the remainder
    that takes the sign of the dividend, [Math.floor] of a quotient is the
    floored division. *)
Definition secondsToHMS (s : Z) : string :=
  let h := Z.div s 3600 in
  let m := Z.div (Z.rem s 3600) 60 in
  let sec := Z.rem s 60 in
  Str.join ":" (map pad [h; m; sec]).

(* ================================================================== *)
(** ** Dates *)

(** A [Date] object: its time value in milliseconds since the epoch, or
    nothing for an invalid date. *)
Definition Date : Type := option Z.

Module DateModel.

Local Open Scope Z_scope.

Definition msPerDay : Z := 86400000.
Definition maxTime : Z := 8640000000000000.

(** TimeClip: time values beyond 10^8 days from the epoch are invalid. *)
Definition TimeClip (t : Z) : Date :=
  if Z.leb (Z.abs t) maxTime then Some t else None.

(** Day number from a date of the proleptic Gregorian calendar. *)
Definition days_from_civil (y m d : Z) : Z :=
  let y' := if Z.leb m 2 then y - 1 else y in
  let era := Z.div y' 400 in
  let yoe := y' - era * 400 in
  let mp := if Z.ltb 2 m then m - 3 else m + 9 in
  let doy := (153 * mp + 2) / 5 + d - 1 in
  let doe := yoe * 365 + yoe / 4 - yoe / 100 + doy in
  era * 146097 + doe - 719468.

(** Year, month (1 to 12) and day of the month of a day number. *)
Definition civil_from_days (days : Z) : Z * Z * Z :=
  let z := days + 719468 in
  let era := Z.div z 146097 in
  let doe := z - era * 146097 in
  let yoe := (doe - doe / 1460 + doe / 36524 - doe / 146096) / 365 in
  let doy := doe - (365 * yoe + yoe / 4 - yoe / 100) in
  let mp := (5 * doy + 2) / 153 in
  let d := doy - (153 * mp + 2) / 5 + 1 in
  let m := if Z.ltb mp 10 then mp + 3 else mp - 9 in
  let y := yoe + era * 400 in
  (if Z.leb m 2 then y + 1 else y, m, d).

Definition is_leap (y : Z) : bool :=
  (Z.eqb (y mod 4) 0 && negb (Z.eqb (y mod 100) 0)) || Z.eqb (y mod 400) 0.

Definition days_in_month (y m : Z) : Z :=
  if Z.eqb m 2 then (if is_leap y then 29 else 28)
  else if Z.eqb m 4 || Z.eqb m 6 || Z.eqb m 9 || Z.eqb m 11 then 30
  else 31.

Definition getUTCFullYear (t : Z) : Z := fst (fst (civil_from_days (t / msPerDay))).
(** Month from 0 to 11. *)
Definition getUTCMonth (t : Z) : Z := snd (fst (civil_from_days (t / msPerDay))) - 1.
Definition getUTCDate (t : Z) : Z := snd (civil_from_days (t / msPerDay)).
Definition getUTCHours (t : Z) : Z := (t / 3600000) mod 24.
Definition getUTCMinutes (t : Z) : Z := (t / 60000) mod 60.
Definition getUTCSeconds (t : Z) : Z := (t / 1000) mod 60.

(** Exactly [n] decimal digits. *)
Fixpoint fixed_digits (n : nat) (acc : Z) (s : string) : option (Z * string) :=
  match n with
  | O => Some (acc, s)
  | Datatypes.S n' =>
      match s with
      | String c s' =>
          if is_digit c then fixed_digits n' (acc * 10 + digit_val c) s'
          else None
      | EmptyString => None
      end
  end.

Definition expect (c : ascii) (s : string) : option string :=
  match s with
  | String x s' => if Ascii.eqb x c then Some s' else None
  | EmptyString => None
  end.

Definition bind_opt {A B : Type} (o : option A) (f : A -> option B) : option B :=
  match o with Some a => f a | None => None end.

Notation "x <- o ;; k" := (bind_opt o (fun x => k))
  (at level 61, o at next level, right associativity).
Notation "' p <- o ;; k" := (bind_opt o (fun x => match x with p => k end))
  (at level 61, p pattern, o at next level, right associativity).

(** The optional [.sss] of the date-time format, then the [Z] that ends it. *)
Definition millis_and_zone (s : string) : option Z :=
  match s with
  | String "." t =>
      '(ms, r) <- fixed_digits 3 0 t ;;
      match r with
      | String "Z" EmptyString => Some ms
      | _ => None
      end
  | String "Z" EmptyString => Some 0
  | _ => None
  end.

(** [new Date(s)] for the date-time format of the language with the UTC
    designator, [YYYY-MM-DDTHH:mm:ss(.sss)Z], which is how the upstream
    writes [start_date].  Out-of-range fields give an invalid date.  Every
    other notation, and a day 29 to 31 that the month does not have, is
    left by the language to the engine, which may accept it; here they
    give an invalid date, and what is proved of a start date is proved of
    texts in the format with an existing day. *)
Definition parse (s : string) : Date :=
  '(y, r) <- fixed_digits 4 0 s ;;
  r <- expect "-" r ;;
  '(mo, r) <- fixed_digits 2 0 r ;;
  r <- expect "-" r ;;
  '(d, r) <- fixed_digits 2 0 r ;;
  r <- expect "T" r ;;
  '(h, r) <- fixed_digits 2 0 r ;;
  r <- expect ":" r ;;
  '(mi, r) <- fixed_digits 2 0 r ;;
  r <- expect ":" r ;;
  '(se, r) <- fixed_digits 2 0 r ;;
  ms <- millis_and_zone r ;;
  if Z.leb 1 mo && Z.leb mo 12 && Z.leb 1 d && Z.leb d (days_in_month y mo)
     && (Z.leb h 23 || (Z.eqb h 24 && Z.eqb mi 0 && Z.eqb se 0 && Z.eqb ms 0))
     && Z.leb mi 59 && Z.leb se 59
  then TimeClip (days_from_civil y mo d * msPerDay
                 + h * 3600000 + mi * 60000 + se * 1000 + ms)
  else None.

(** [new Date(a.getTime() + delta)] *)
Definition plus_ms (a : Date) (delta : Z) : Date :=
  match a with
  | Some t => TimeClip (t + delta)
  | None => None
  end.

End DateModel.

(** [formatAsUTC]: [yyyymmddThhmmssZ]; every getter of an invalid date is
    NaN, and NaN prints as [NaN]. *)
Definition formatAsUTC (dt : Date) : string :=
  match dt with
  | Some t =>
      String_of_Z (DateModel.getUTCFullYear t)
      ++ pad (DateModel.getUTCMonth t + 1)
      ++ pad (DateModel.getUTCDate t)
      ++ "T"
      ++ pad (DateModel.getUTCHours t)
      ++ pad (DateModel.getUTCMinutes t)
      ++ pad (DateModel.getUTCSeconds t)
      ++ "Z"
  | None => "NaN" ++ "NaN" ++ "NaN" ++ "T" ++ "NaN" ++ "NaN" ++ "NaN" ++ "Z"
  end.

(* ================================================================== *)
(** ** Values that may be missing *)

(** A text field of a decoded JSON record: absent, [null] or a string. *)
Inductive optstr : Type :=
| Undefined
| Null
| Text (s : string).

Definition truthy (v : optstr) : bool :=
  match v with
  | Text s => Str.truthy s
  | _ => false
  end.

(** [a || b] *)
Definition or_else (a b : optstr) : optstr := if truthy a then a else b.

(** [`${v}`] *)
Definition template (v : optstr) : string :=
  match v with
  | Undefined => "undefined"
  | Null => "null"
  | Text s => s
  end.

(* ================================================================== *)
(** ** Activities and events *)

(** The fields of [StravaActivity] that the code reads.  Durations are
    whole seconds, distances and elevations are the rationals that the
    numbers denote; a missing or null elevation is [None]. *)
Record StravaActivity : Type := {
  id : Z;
  name : optstr;
  type : optstr;
  sport_type : optstr;
  start_date : string;
  elapsed_time : Z;
  moving_time : Z;
  distance : Q;
  total_elevation_gain : option Q;
  location_city : optstr;
  location_state : optstr;
  location_country : optstr
}.

(** [start] of [buildEvent]: [new Date(a.start_date)] *)
Definition event_start (a : StravaActivity) : Date :=
  DateModel.parse (start_date a).

(** [end] of [buildEvent]:
    [new Date(start.getTime() + a.elapsed_time * 1000)] *)
Definition event_end (a : StravaActivity) : Date :=
  DateModel.plus_ms (event_start a) (elapsed_time a * 1000).

Definition event_url (a : StravaActivity) : string :=
  "https://www.strava.com/activities/" ++ String_of_Z (id a).

(** The test [if (a.total_elevation_gain)]: present and not zero. *)
Definition has_elevation (a : StravaActivity) : option Q :=
  match total_elevation_gain a with
  | Some e => if Qeq_bool e 0 then None else Some e
  | None => None
  end.

(** The line that [descParts.push] adds when the test holds. *)
Definition elevation_part (a : StravaActivity) : list string :=
  match has_elevation a with
  | Some e => ["Elevation: " ++ String_of_Z (Math_round e) ++ " m"]
  | None => []
  end.

(** [descParts] of [buildEvent], after the optional push and the URL. *)
Definition descParts (a : StravaActivity) : list string :=
  app [ "Sport: " ++ template (or_else (sport_type a) (type a));
        "Distance: " ++ metersToKm (distance a) ++ " km";
        "Moving: " ++ secondsToHMS (moving_time a);
        "Elapsed: " ++ secondsToHMS (elapsed_time a) ]
      (app (elevation_part a) [event_url a]).

(** [location] of [buildEvent]. *)
Definition event_location (a : StravaActivity) : string :=
  if truthy (location_city a) || truthy (location_state a)
     || truthy (location_country a)
  then icsEscape
         (Str.join ", "
            (map template
               (filter truthy
                  [location_city a; location_state a; location_country a])))
  else "".

(** The array of lines that [buildEvent] filters and joins; [now] is the
    clock read by [new Date()]. *)
Definition event_lines (now : Z) (a : StravaActivity) : list string :=
  [ "BEGIN:VEVENT";
    "UID:" ++ (String_of_Z (id a) ++ "@strava-ics");
    "DTSTAMP:" ++ formatAsUTC (Some now);
    "DTSTART:" ++ formatAsUTC (event_start a);
    "DTEND:" ++ formatAsUTC (event_end a);
    "SUMMARY:" ++ icsEscape ("Strava: " ++ template (or_else (name a) (sport_type a)));
    (if Str.truthy (event_location a) then "LOCATION:" ++ event_location a else "");
    "DESCRIPTION:" ++ icsEscape (Str.join NL (descParts a));
    "URL:" ++ event_url a;
    "END:VEVENT" ].

Definition buildEvent (now : Z) (a : StravaActivity) : string :=
  Str.join CRLF (filter Str.truthy (event_lines now a)).

(** The classification that the filter of [handler] compares:
    [(a.sport_type || a.type || "").toLowerCase()] *)
Definition classification (a : StravaActivity) : string :=
  Str.toLowerCase
    (template (or_else (or_else (sport_type a) (type a)) (Text ""))).

(** An activity passes when there is no allow-list or its classification
    is in it. *)
Definition passes (allowedSports : option (list string)) (a : StravaActivity) : bool :=
  match allowedSports with
  | Some l => Str.includes l (classification a)
  | None => true
  end.

(* ================================================================== *)
(** ** The calendar text *)

(** The array that [handler] joins: eight header lines, the joined events
    as one element, the closing line. *)
Definition ics_parts (events : string) : list string :=
  [ "BEGIN:VCALENDAR";
    "VERSION:2.0";
    "PRODID:" ++ "-//NexClass//Strava ICS//EN";
    "NAME:" ++ "Strava";
    "X-WR-CALNAME:" ++ "Strava";
    "CALSCALE:GREGORIAN";
    "METHOD:PUBLISH";
    "X-WR-TIMEZONE:UTC";
    events;
    "END:VCALENDAR" ].

Definition build_ics (now : Z) (activities : list StravaActivity) : string :=
  let events := Str.join CRLF (map (buildEvent now) activities) in
  Str.join CRLF (ics_parts events).

(** [err.message || String(err)] for a thrown [Error] with that message. *)
Definition error_text (message : string) : string :=
  if Str.truthy message then message else "Error".

(** The body that the [catch] branch sends. *)
Definition error_ics (now : Z) (message : string) : string :=
  "BEGIN:VCALENDAR" ++ CRLF ++ "PRODID:-//Strava ICS Error//EN" ++ CRLF
  ++ "VERSION:2.0" ++ CRLF ++ "BEGIN:VEVENT" ++ CRLF
  ++ "SUMMARY:Strava ICS Error" ++ CRLF
  ++ "DESCRIPTION:" ++ icsEscape (error_text message) ++ CRLF
  ++ "DTSTART:" ++ formatAsUTC (Some now) ++ CRLF
  ++ "DTEND:" ++ formatAsUTC (DateModel.TimeClip (now + 600000)) ++ CRLF
  ++ "END:VEVENT" ++ CRLF ++ "END:VCALENDAR".

(* ================================================================== *)
(** ** The outside world *)

(** What a request of [jfetch] comes back with: the decoded JSON body of a
    successful response, or the status line and body text of another. *)
Inductive Response (T : Type) : Type :=
| Success (body : T)
| NotOk (status : Z) (statusText body : string).
Arguments Success {T} body.
Arguments NotOk {T} status statusText body.

(** The network requests of the handler. *)
Inductive NetCall : Type :=
| TokenExchange (client_id client_secret refresh_token : string)
| ActivitiesPage (after : jsnum) (page per_page : nat) (accessToken : string).

(** One invocation's surroundings: the three environment variables, the
    answer of the token endpoint (the [access_token] of its body), the
    answer of the activities endpoint for each page number (the other
    query parameters do not change within one invocation), and the clock. *)
Record World : Type := {
  STRAVA_CLIENT_ID : option string;
  STRAVA_CLIENT_SECRET : option string;
  STRAVA_REFRESH_TOKEN : option string;
  token_endpoint : Response string;
  activities_endpoint : nat -> Response (list StravaActivity);
  Date_now : Z
}.

(** A query parameter of the request: absent, one string or several. *)
Inductive qvalue : Type :=
| QAbsent
| QString (s : string)
| QArray (l : list string).

Record Query : Type := {
  sport : qvalue;
  sinceDays : qvalue;
  max : qvalue
}.

Record HttpResponse : Type := {
  status : Z;
  headers : list (string * string);
  body : string
}.

(* ================================================================== *)
(** ** Computations that call the network and may throw *)

Inductive outcome (A : Type) : Type :=
| Return (a : A)
| Throw (message : string)
| OutOfFuel.
Arguments Return {A} a.
Arguments Throw {A} message.
Arguments OutOfFuel {A}.

(** A computation: the requests it issued, in order, and how it ended. *)
Definition M (A : Type) : Type := list NetCall * outcome A.

Definition ret {A : Type} (a : A) : M A := ([], Return a).
Definition throw {A : Type} (message : string) : M A := ([], Throw message).
Definition out_of_fuel {A : Type} : M A := ([], OutOfFuel).
Definition request (c : NetCall) : M unit := ([c], Return tt).

Definition bind {A B : Type} (m : M A) (f : A -> M B) : M B :=
  match m with
  | (t, Return a) => let '(t', o) := f a in (app t t', o)
  | (t, Throw message) => (t, Throw message)
  | (t, OutOfFuel) => (t, OutOfFuel)
  end.

Notation "x <- m ;; k" := (bind m (fun x => k))
  (at level 61, m at next level, right associativity).

(** The message [`${status} ${statusText}: ${body}`]. *)
Definition http_message (st : Z) (text b : string) : string :=
  String_of_Z st ++ " " ++ text ++ ": " ++ b.

(** [jfetch]: issues the request; a response that is not ok becomes an
    [Error] with that message. *)
Definition jfetch {T : Type} (c : NetCall) (r : Response T) : M T :=
  _ <- request c ;;
  match r with
  | Success v => ret v
  | NotOk st text b => throw (http_message st text b)
  end.

(** [!v] for an environment variable. *)
Definition missing (v : option string) : bool :=
  match v with
  | Some s => negb (Str.truthy s)
  | None => true
  end.

Definition getAccessToken (w : World) : M string :=
  match STRAVA_CLIENT_ID w, STRAVA_CLIENT_SECRET w, STRAVA_REFRESH_TOKEN w with
  | Some client_id, Some client_secret, Some refresh_token =>
      if negb (Str.truthy client_id) || negb (Str.truthy client_secret)
         || negb (Str.truthy refresh_token)
      then throw "Missing STRAVA env vars"
      else jfetch (TokenExchange client_id client_secret refresh_token)
                  (token_endpoint w)
  | _, _, _ => throw "Missing STRAVA env vars"
  end.

(* ================================================================== *)
(** ** The handler *)

(** [Array.isArray(v) ? v.at(0) : v] *)
Definition first_value (v : qvalue) : option string :=
  match v with
  | QAbsent => None
  | QString s => Some s
  | QArray l => hd_error l
  end.

(** [allowedSports] *)
Definition allowedSports_of (v : qvalue) : option (list string) :=
  match first_value v with
  | Some sportsParam =>
      if Str.truthy sportsParam
      then Some (map (fun s => Str.toLowerCase (Str.trim s))
                     (Str.split comma sportsParam))
      else None
  | None => None
  end.

(** [Number(v ?? dflt)]; an array converts through its text, the elements
    joined by commas. *)
Definition Number_or (dflt : Z) (v : qvalue) : jsnum :=
  match v with
  | QAbsent => of_Z dflt
  | QString s => NumberParse.StringToNumber s
  | QArray l => NumberParse.StringToNumber (Str.join "," l)
  end.

(** [Math.max(1, Math.min(hi, Number(v ?? dflt)))] *)
Definition clamped (hi dflt : Z) (v : qvalue) : jsnum :=
  Math_max (of_Z 1) (Math_min (of_Z hi) (Number_or dflt v)).

Definition effective_sinceDays (q : Query) : jsnum := clamped 365 90 (sinceDays q).
Definition effective_max (q : Query) : jsnum := clamped 600 300 (max q).

(** [after]: [Math.floor((Date.now() - sinceDays * 24 * 3600 * 1000) / 1000)] *)
Definition after_of (now : Z) (days : jsnum) : jsnum :=
  match days with
  | NaN => NaN
  | NegInf => PosInf
  | PosInf => NegInf
  | Fin d =>
      of_Z (Qfloor (Qdiv (Qminus (inject_Z now)
                                 (Qmult (Qmult (Qmult d (inject_Z 24)) (inject_Z 3600))
                                        (inject_Z 1000)))
                         (inject_Z 1000)))
  end.

Definition per_page : nat := 200.

(** The [for] loop over one batch: stop at the cap, skip what the
    allow-list excludes, push the rest. *)
Fixpoint for_batch (allowedSports : option (list string)) (max : jsnum)
  (batch : list StravaActivity) (activities : list StravaActivity)
  : list StravaActivity :=
  match batch with
  | [] => activities
  | a :: rest =>
      if js_ge (of_nat (List.length activities)) max then activities
      else if negb (passes allowedSports a)
           then for_batch allowedSports max rest activities
           else for_batch allowedSports max rest (app activities [a])
  end.

(** The [while] loop; [fuel] bounds the number of pages requested. *)
Fixpoint fetch_loop (fuel : nat) (w : World) (after : jsnum) (accessToken : string)
  (allowedSports : option (list string)) (max : jsnum)
  (page : nat) (activities : list StravaActivity) : M (list StravaActivity) :=
  if js_lt (of_nat (List.length activities)) max then
    match fuel with
    | O => out_of_fuel
    | Datatypes.S fuel' =>
        batch <- jfetch (ActivitiesPage after page per_page accessToken)
                        (activities_endpoint w page) ;;
        match batch with
        | [] => ret activities
        | _ =>
            fetch_loop fuel' w after accessToken allowedSports max (page + 1)
              (for_batch allowedSports max batch activities)
        end
    end
  else ret activities.

(** The activities that the [try] block collects. *)
Definition fetch_activities (fuel : nat) (w : World) (q : Query)
  : M (list StravaActivity) :=
  accessToken <- getAccessToken w ;;
  let allowedSports := allowedSports_of (sport q) in
  let after := after_of (Date_now w) (effective_sinceDays q) in
  fetch_loop fuel w after accessToken allowedSports (effective_max q) 1 [].

(** The [try] block: the calendar text. *)
Definition try_block (fuel : nat) (w : World) (q : Query) : M string :=
  activities <- fetch_activities fuel w q ;;
  ret (build_ics (Date_now w) activities).

(** [handler]: the requests issued and the response sent, if the loop
    ended within [fuel] pages. *)
Definition handler (fuel : nat) (w : World) (q : Query)
  : list NetCall * option HttpResponse :=
  match try_block fuel w q with
  | (t, Return ics) =>
      (t, Some {| status := 200;
                  headers := [("Content-Type", "text/calendar; charset=utf-8");
                              ("Cache-Control", "s-maxage=300, stale-while-revalidate=60")];
                  body := ics |})
  | (t, Throw message) =>
      (t, Some {| status := 500; headers := [];
                  body := error_ics (Date_now w) message |})
  | (t, OutOfFuel) => (t, None)
  end.

(* ================================================================== *)
(** ** Reading a calendar text *)

Module Ics.

(** The number of event blocks: lines that open a VEVENT. *)
Definition event_blocks (doc : string) : nat :=
  List.length (filter (String.eqb "BEGIN:VEVENT") (Str.lines doc)).

(** What follows the prefix [p] in [s], if [s] starts with it. *)
Fixpoint after (p s : string) : option string :=
  match p, s with
  | EmptyString, _ => Some s
  | String a p', String b s' => if Ascii.eqb a b then after p' s' else None
  | String _ _, EmptyString => None
  end.

(** Characters of a property name: letters, digits and the hyphen. *)
Definition name_char (c : ascii) : bool :=
  let n := Ascii.nat_of_ascii c in
  (Nat.leb 65 n && Nat.leb n 90) || (Nat.leb 97 n && Nat.leb n 122)
  || (Nat.leb 48 n && Nat.leb n 57) || Nat.eqb n 45.

(** A content line: a name that is not empty, a colon, a value.  [seen]
    tells whether a character of the name was read. *)
Fixpoint content_line_from (seen : bool) (l : string) : bool :=
  match l with
  | EmptyString => false
  | String c l' =>
      if Ascii.eqb c ":" then seen
      else name_char c && content_line_from true l'
  end.

Definition content_line (l : string) : bool := content_line_from false l.

Definition is_nil {A : Type} (l : list A) : bool :=
  match l with [] => true | _ => false end.

(** Components open and close in a nested way, every other line is inside
    a component, and nothing follows the end of the outermost one.
    [open] holds the names of the components not yet closed. *)
Fixpoint nested (open : list string) (ls : list string) : bool :=
  match ls with
  | [] => is_nil open
  | l :: rest =>
      match after "BEGIN:" l with
      | Some n => nested (n :: open) rest
      | None =>
          match after "END:" l with
          | Some n =>
              match open with
              | top :: below =>
                  String.eqb top n
                  && match below with
                     | [] => is_nil rest
                     | _ => nested below rest
                     end
              | [] => false
              end
          | None => negb (is_nil open) && nested open rest
          end
      end
  end.

(** A calendar text that parses: its lines, separated by CR LF, are all
    content lines, the first one opens a VCALENDAR, and the components
    are nested. *)
Definition well_formed (doc : string) : bool :=
  let ls := Str.lines doc in
  match ls with
  | first :: _ =>
      String.eqb first "BEGIN:VCALENDAR"
      && forallb content_line ls && nested [] ls
  | [] => false
  end.

End Ics.

(* ================================================================== *)
(** ** Vocabulary of the statements *)

(** One pass over the text that escapes each character on its own. *)
Definition escape_char (c : ascii) : string :=
  if Ascii.eqb c backslash then String backslash (String backslash EmptyString)
  else if Ascii.eqb c LF then String backslash "n"
  else if Ascii.eqb c comma then String backslash (String comma EmptyString)
  else if Ascii.eqb c semicolon then String backslash (String semicolon EmptyString)
  else String c EmptyString.

Fixpoint escape_chars (s : string) : string :=
  match s with
  | EmptyString => EmptyString
  | String c s' => escape_char c ++ escape_chars s'
  end.

(** The same activity with another moving time. *)
Definition with_moving_time (m : Z) (a : StravaActivity) : StravaActivity :=
  {| id := id a; name := name a; type := type a; sport_type := sport_type a;
     start_date := start_date a; elapsed_time := elapsed_time a;
     moving_time := m; distance := distance a;
     total_elevation_gain := total_elevation_gain a;
     location_city := location_city a; location_state := location_state a;
     location_country := location_country a |}.

(** An activity that the event builder can place in time: its start parses
    to the instant [s], its elapsed time is not negative, and the end
    instant is a time value that a [Date] can hold. *)
Definition well_formed_activity (a : StravaActivity) (s : Z) : Prop :=
  event_start a = Some s
  /\ (0 <= elapsed_time a)%Z
  /\ (Z.abs (s + elapsed_time a * 1000) <= DateModel.maxTime)%Z.

(** The request for one page of activities. *)
Definition page_call (after : jsnum) (accessToken : string) (page : nat) : NetCall :=
  ActivitiesPage after page per_page accessToken.

(** The page numbers asked for in a trace, in order. *)
Definition pages_requested (t : list NetCall) : list nat :=
  flat_map (fun c => match c with
                     | ActivitiesPage _ p _ _ => [p]
                     | TokenExchange _ _ _ => []
                     end) t.

(** The upstream answers the pages from [page] on with the batches [bs],
    none of them empty. *)
Fixpoint serves (w : World) (page : nat) (bs : list (list StravaActivity)) : Prop :=
  match bs with
  | [] => True
  | b :: bs' =>
      activities_endpoint w page = Success b /\ b <> []
      /\ serves w (Datatypes.S page) bs'
  end.

(** The three credentials are set and the exchange answers [tok]. *)
Definition authorized (w : World) (tok : string) : Prop :=
  missing (STRAVA_CLIENT_ID w) = false
  /\ missing (STRAVA_CLIENT_SECRET w) = false
  /\ missing (STRAVA_REFRESH_TOKEN w) = false
  /\ token_endpoint w = Success tok.

(** The number denotes the whole number [N]. *)
Definition denotes (x : jsnum) (N : nat) : Prop :=
  match x with
  | Fin v => Qeq v (inject_Z (Z.of_nat N))
  | _ => False
  end.

(** What the loop holds after the batches [bs], starting from [acc]. *)
Fixpoint accumulate (allowedSports : option (list string)) (max : jsnum)
  (bs : list (list StravaActivity)) (acc : list StravaActivity)
  : list StravaActivity :=
  match bs with
  | [] => acc
  | b :: bs' => accumulate allowedSports max bs' (for_batch allowedSports max b acc)
  end.

(** The internal failures of one invocation and the message each throws:
    a credential is missing; the token exchange is refused; a page is
    refused after the pages before it were read and the cap not reached. *)
Inductive internal_failure (w : World) (q : Query) : string -> Prop :=
| configuration_failure :
    missing (STRAVA_CLIENT_ID w) || missing (STRAVA_CLIENT_SECRET w)
      || missing (STRAVA_REFRESH_TOKEN w) = true ->
    internal_failure w q "Missing STRAVA env vars"
| token_failure st text b :
    missing (STRAVA_CLIENT_ID w) = false ->
    missing (STRAVA_CLIENT_SECRET w) = false ->
    missing (STRAVA_REFRESH_TOKEN w) = false ->
    token_endpoint w = NotOk st text b ->
    internal_failure w q (http_message st text b)
| page_failure tok bs st text b :
    authorized w tok ->
    serves w 1 bs ->
    js_lt (of_nat (List.length
                     (accumulate (allowedSports_of (sport q)) (effective_max q) bs [])))
          (effective_max q) = true ->
    activities_endpoint w (1 + List.length bs) = NotOk st text b ->
    internal_failure w q (http_message st text b).

(** The eight lines that open the calendar. *)
Definition envelope_open : list string :=
  [ "BEGIN:VCALENDAR"; "VERSION:2.0"; "PRODID:-//NexClass//Strava ICS//EN";
    "NAME:Strava"; "X-WR-CALNAME:Strava"; "CALSCALE:GREGORIAN";
    "METHOD:PUBLISH"; "X-WR-TIMEZONE:UTC" ].

Definition envelope_close : string := "END:VCALENDAR".

(** The lines of the body that the [catch] branch sends. *)
Definition error_lines (now : Z) (message : string) : list string :=
  [ "BEGIN:VCALENDAR"; "PRODID:-//Strava ICS Error//EN"; "VERSION:2.0";
    "BEGIN:VEVENT"; "SUMMARY:Strava ICS Error";
    "DESCRIPTION:" ++ icsEscape (error_text message);
    "DTSTART:" ++ formatAsUTC (Some now);
    "DTEND:" ++ formatAsUTC (DateModel.TimeClip (now + 600000));
    "END:VEVENT"; "END:VCALENDAR" ].

(** What RFC 5545 asks of a calendar text beyond its block structure: no
    control character other than HTAB on a content line (section 3.1), and
    a UID and a DTSTAMP property in every VEVENT (section 3.6.1). *)
Module Rfc5545.

(** A character that a content line may hold. *)
Definition value_char (c : ascii) : bool :=
  let n := Ascii.nat_of_ascii c in
  Nat.eqb n 9 || (Nat.leb 32 n && negb (Nat.eqb n 127)).

Fixpoint all_chars (p : ascii -> bool) (s : string) : bool :=
  match s with
  | EmptyString => true
  | String c s' => p c && all_chars p s'
  end.

Definition has_prefix (p l : string) : bool :=
  match Ics.after p l with Some _ => true | None => false end.

(** Every VEVENT block holds a UID line and a DTSTAMP line.  [inside]
    tells whether a VEVENT is open, [uid] and [stamp] whether the open
    block has shown the property. *)
Fixpoint events_complete (inside uid stamp : bool) (ls : list string) : bool :=
  match ls with
  | [] => negb inside
  | l :: rest =>
      if String.eqb l "BEGIN:VEVENT" then events_complete true false false rest
      else if String.eqb l "END:VEVENT"
           then inside && uid && stamp && events_complete false false false rest
           else events_complete inside
                  (uid || has_prefix "UID:" l)
                  (stamp || has_prefix "DTSTAMP:" l) rest
  end.

(** A calendar text that a parser holding to the RFC accepts. *)
Definition conforming (doc : string) : bool :=
  Ics.well_formed doc
  && forallb (all_chars value_char) (Str.lines doc)
  && events_complete false false false (Str.lines doc).

End Rfc5545.

(* ================================================================== *)
(** ** Sample data *)

Module Sample.

Definition activity (i : Z) (title : string) (sport : optstr) (kind : optstr)
  (seconds : Z) : StravaActivity :=
  {| id := i; name := Text title; type := kind; sport_type := sport;
     start_date := "2024-01-01T08:00:00Z";
     elapsed_time := seconds; moving_time := 1800;
     distance := inject_Z 5000; total_elevation_gain := Some (inject_Z 30);
     location_city := Text "Vienna"; location_state := Null;
     location_country := Undefined |}.

Definition run1 : StravaActivity := activity 41 "Morning Run" (Text "Run") (Text "Run") 1830.
Definition ride1 : StravaActivity := activity 42 "Commute" (Text "Ride") (Text "Ride") 2400.
Definition run2 : StravaActivity := activity 43 "Lunch Run" (Text "Run") (Text "Run") 1500.
Definition run3 : StravaActivity := activity 44 "Night Run" (Text "Run") (Text "Run") 900.

(** Only the deprecated field is filled in. *)
Definition old_hike : StravaActivity := activity 45 "Hike" Undefined (Text "Hike") 7200.

(** No classification at all. *)
Definition unclassified : StravaActivity := activity 46 "Mystery" Undefined Undefined 600.

(** Three days door to door. *)
Definition expedition : StravaActivity := activity 47 "Traverse" (Text "Hike") Undefined 259200.

(** The upstream that holds the given pages and nothing after them. *)
Definition pages_of (bs : list (list StravaActivity)) (page : nat)
  : Response (list StravaActivity) :=
  match page with
  | O => Success []
  | Datatypes.S i => Success (nth i bs [])
  end.

Definition clock : Z := 1762000000000.

Definition world_of (refresh : option string) (token : Response string)
  (pages : nat -> Response (list StravaActivity)) : World :=
  {| STRAVA_CLIENT_ID := Some "12345";
     STRAVA_CLIENT_SECRET := Some "secret";
     STRAVA_REFRESH_TOKEN := refresh;
     token_endpoint := token;
     activities_endpoint := pages;
     Date_now := clock |}.

Definition world (bs : list (list StravaActivity)) : World :=
  world_of (Some "refresh") (Success "tok") (pages_of bs).

Definition query (sports cap : qvalue) : Query :=
  {| sport := sports; sinceDays := QAbsent; max := cap |}.

(** An account without activities. *)
Definition empty_account : World := world [].

(** Two pages, three runs and a ride. *)
Definition two_pages : list (list StravaActivity) := [[run1; ride1]; [run2; run3]].

(** The second page is refused. *)
Definition second_page_refused (page : nat) : Response (list StravaActivity) :=
  match page with
  | 1 => Success [run1; ride1]
  | _ => NotOk 429 "Too Many Requests" "rate, limit"
  end.

(** The token endpoint is down and answers with a page of HTML. *)
Definition gateway_down : World :=
  world_of (Some "refresh")
    (NotOk 502 "Bad Gateway" ("<html>" ++ CRLF ++ "<h1>502</h1>"))
    (pages_of []).

End Sample.

(* ================================================================== *)
(** ** Title case *)

(** [\w] of a regular expression: a letter, a digit or the underscore. *)
Definition is_word (c : ascii) : bool :=
  let n := Ascii.nat_of_ascii c in
  (Nat.leb 65 n && Nat.leb n 90) || (Nat.leb 97 n && Nat.leb n 122)
  || (Nat.leb 48 n && Nat.leb n 57) || Nat.eqb n 95.

(** [toUpperCase] of a word character: only a-z change. *)
Definition upper_word (c : ascii) : ascii :=
  let n := Ascii.nat_of_ascii c in
  if Nat.leb 97 n && Nat.leb n 122 then Ascii.ascii_of_nat (n - 32)%nat else c.

(** [s.replace(/\w\S*/g, t => t.charAt(0).toUpperCase()
    + t.slice(1).toLowerCase())], read left to right.  Outside a match a
    word character starts one and is put in upper case, any other
    character is copied; inside a match ([inside] is true) white space
    ends it, any other character is put in lower case. *)
Fixpoint title_from (inside : bool) (s : string) : string :=
  match s with
  | EmptyString => EmptyString
  | String c s' =>
      if inside then
        if is_space c then String c (title_from false s')
        else String (lower c) (title_from true s')
      else if is_word c then String (upper_word c) (title_from true s')
           else String c (title_from false s')
  end.

Definition toTitleCase (s : string) : string := title_from false s.

(* ================================================================== *)
(** ** More vocabulary *)

(** The characters that [icsEscape] rewrites. *)
Definition is_special (c : ascii) : bool :=
  Ascii.eqb c backslash || Ascii.eqb c LF || Ascii.eqb c comma
  || Ascii.eqb c semicolon.

Fixpoint count_special (s : string) : nat :=
  match s with
  | EmptyString => 0
  | String c s' => (if is_special c then 1 else 0) + count_special s'
  end.

(** The date-time notation of the upstream, from its six fields. *)
Definition iso_date_time (y mo d h mi se : Z) : string :=
  String_of_Z y ++ "-" ++ pad mo ++ "-" ++ pad d ++ "T"
  ++ pad h ++ ":" ++ pad mi ++ ":" ++ pad se ++ "Z".

(** The same fields as the calendar writes them. *)
Definition compact_date_time (y mo d h mi se : Z) : string :=
  String_of_Z y ++ pad mo ++ pad d ++ "T" ++ pad h ++ pad mi ++ pad se ++ "Z".

(** Day of the 400-year era from the year of the era (counted from
    March), the month and the day: the inner part of [days_from_civil]. *)
Definition doe_of (yoe m d : Z) : Z :=
  let mp := if Z.ltb 2 m then (m - 3)%Z else (m + 9)%Z in
  let doy := ((153 * mp + 2) / 5 + d - 1)%Z in
  (yoe * 365 + yoe / 4 - yoe / 100 + doy)%Z.

(** Year of the era (counted from March), month and day from the day of
    the era: the inner part of [civil_from_days]. *)
Definition of_doe (doe : Z) : Z * Z * Z :=
  let yoe := ((doe - doe / 1460 + doe / 36524 - doe / 146096) / 365)%Z in
  let doy := (doe - (365 * yoe + yoe / 4 - yoe / 100))%Z in
  let mp := ((5 * doy + 2) / 153)%Z in
  let d := (doy - (153 * mp + 2) / 5 + 1)%Z in
  let m := if Z.ltb mp 10 then (mp + 3)%Z else (mp - 9)%Z in
  (yoe, m, d).

(** The whole numbers from [lo], [n] of them. *)
Fixpoint Zrange (lo : Z) (n : nat) : list Z :=
  match n with
  | O => []
  | Datatypes.S n' => lo :: Zrange (lo + 1)%Z n'
  end.

(** One for January and February, whose days belong to the year that
    started the March before. *)
Definition month_shift (m : Z) : Z := if Z.leb m 2 then 1%Z else 0%Z.

(** A valid day of a month of the year [yoe] of an era has its day of the
    era within the era, and [of_doe] finds the three back from it. *)
Definition check_date (yoe m d : Z) : bool :=
  if Z.leb d (DateModel.days_in_month (yoe + month_shift m) m) then
    let doe := doe_of yoe m d in
    Z.leb 0 doe && Z.ltb doe 146097
    && (let '(yy, mm, dd) := of_doe doe in
        Z.eqb yy yoe && Z.eqb mm m && Z.eqb dd d)
  else true.

(** A day of the era gives a valid day of a month of a year of the era,
    and [doe_of] finds it back. *)
Definition check_doe (doe : Z) : bool :=
  let '(yoe, m, d) := of_doe doe in
  Z.leb 0 yoe && Z.leb yoe 399 && Z.leb 1 m && Z.leb m 12 && Z.leb 1 d
  && Z.leb d (DateModel.days_in_month (yoe + month_shift m) m)
  && Z.eqb (doe_of yoe m d) doe.

(** An upstream that answers every page with the same ride. *)
Definition rides_forever : World :=
  Sample.world_of (Some "refresh") (Success "tok") (fun _ => Success [Sample.ride1]).

(* ================================================================== *)
(** * Properties *)

(** ** The embedding on concrete inputs *)

Section Examples.

(** The full-fields activity of the specification's scenario. *)
Example scenario_single_activity :
  Str.lines
    (buildEvent Sample.clock
       {| id := 42; name := Text "Morning Run"; type := Undefined;
          sport_type := Text "Run"; start_date := "2024-01-01T08:00:00Z";
          elapsed_time := 1830; moving_time := 1800; distance := inject_Z 5000;
          total_elevation_gain := Some (inject_Z 30);
          location_city := Text "Vienna"; location_state := Undefined;
          location_country := Undefined |})
  = [ "BEGIN:VEVENT";
      "UID:42@strava-ics";
      "DTSTAMP:20251101T122640Z";
      "DTSTART:20240101T080000Z";
      "DTEND:20240101T083030Z";
      "SUMMARY:Strava: Morning Run";
      "LOCATION:Vienna";
      "DESCRIPTION:Sport: Run\nDistance: 5.00 km\nMoving: 00:30:00\nElapsed: 00:30:30\nElevation: 30 m\nhttps://www.strava.com/activities/42";
      "URL:https://www.strava.com/activities/42";
      "END:VEVENT" ].
Proof. vm_compute. reflexivity. Qed.

Example secondsToHMS_does_not_wrap :
  secondsToHMS 90061 = "25:01:01" /\ secondsToHMS 59 = "00:00:59".
Proof. split; reflexivity. Qed.

Example metersToKm_two_decimals :
  metersToKm (inject_Z 5000) = "5.00" /\ metersToKm (Qmake 12345 10) = "1.23".
Proof. split; vm_compute; reflexivity. Qed.

(** The binary64 quotient of 1005 by 1000 is just below 1.005. *)
Example metersToKm_binary_quotient :
  metersToKm (inject_Z 1005) = "1.00" /\ metersToKm (inject_Z 8345) = "8.35".
Proof. split; vm_compute; reflexivity. Qed.

Example formatAsUTC_epoch :
  formatAsUTC (Some 0%Z) = "19700101T000000Z"
  /\ formatAsUTC (Some (-1000)%Z) = "19691231T235959Z"
  /\ formatAsUTC None = "NaNNaNNaNTNaNNaNNaNZ".
Proof. repeat split; reflexivity. Qed.

Example icsEscape_specials :
  icsEscape (String backslash ("a,b;c" ++ NL ++ "d"))
  = String backslash (String backslash ("a" ++ String backslash ",b"
      ++ String backslash ";c" ++ String backslash "nd")).
Proof. reflexivity. Qed.

(** Conversions of the query parameters. *)
Example Number_of_strings :
  map NumberParse.StringToNumber
      ["42"; " 42 "; ""; "2.5"; "1e2"; "0x1F"; "-Infinity"; "abc"; "1,2"; "12px"]
  = [ of_Z 42; of_Z 42; of_Z 0; Fin (Qmake 25 10); of_Z 100; of_Z 31; NegInf;
      NaN; NaN; NaN ].
Proof. reflexivity. Qed.

Example allowedSports_of_list :
  allowedSports_of (QString "Run, ride ,SWIM") = Some ["run"; "ride"; "swim"]
  /\ allowedSports_of (QArray ["Hike"; "run"]) = Some ["hike"]
  /\ allowedSports_of (QString "") = None
  /\ allowedSports_of QAbsent = None.
Proof. repeat split; reflexivity. Qed.

(** What does not convert to a number goes through the clamp as NaN, and
    with NaN as the cap the loop body never runs. *)
Example max_not_a_number :
  let q := Sample.query QAbsent (QString "abc") in
  effective_max q = NaN
  /\ fetch_activities 5 (Sample.world Sample.two_pages) q
     = ([TokenExchange "12345" "secret" "refresh"], Return []).
Proof. split; reflexivity. Qed.

End Examples.

(** ** Strings *)

Section StringFacts.

Lemma append_nil_r (s : string) : s ++ "" = s.
Proof. induction s as [|c s IH]; simpl; [reflexivity | now rewrite IH]. Qed.

Lemma append_assoc (a b c : string) : (a ++ b) ++ c = a ++ (b ++ c).
Proof. induction a as [|x a IH]; simpl; [reflexivity | now rewrite IH]. Qed.

Lemma replaceAll_app (c : ascii) (r a b : string) :
  Str.replaceAll c r (a ++ b) = Str.replaceAll c r a ++ Str.replaceAll c r b.
Proof.
  induction a as [|x a IH]; simpl; [reflexivity|].
  destruct (Ascii.eqb x c); rewrite IH; [now rewrite append_assoc | reflexivity].
Qed.

Lemma no_lf_app (a b : string) :
  Str.no_lf (a ++ b) = Str.no_lf a && Str.no_lf b.
Proof.
  induction a as [|x a IH]; simpl; [reflexivity|].
  rewrite IH. now rewrite andb_assoc.
Qed.

(** A replacement that removes the line feeds leaves none. *)
Lemma no_lf_replace_lf (r s : string) :
  Str.no_lf r = true -> Str.no_lf (Str.replaceAll LF r s) = true.
Proof.
  intros Hr. induction s as [|x s IH]; simpl; [reflexivity|].
  destruct (Ascii.eqb x LF) eqn:E.
  - rewrite no_lf_app, Hr, IH. reflexivity.
  - simpl. rewrite E, IH. reflexivity.
Qed.

(** Any other replacement adds none. *)
Lemma no_lf_replace (c : ascii) (r s : string) :
  Str.no_lf r = true -> Str.no_lf s = true ->
  Str.no_lf (Str.replaceAll c r s) = true.
Proof.
  intros Hr. induction s as [|x s IH]; simpl; [reflexivity|].
  intros H. apply andb_true_iff in H as [Hx Hs].
  destruct (Ascii.eqb x c).
  - rewrite no_lf_app, Hr. now apply IH.
  - simpl. rewrite Hx. now apply IH.
Qed.

Lemma no_lf_icsEscape (s : string) : Str.no_lf (icsEscape s) = true.
Proof.
  unfold icsEscape.
  apply no_lf_replace; [reflexivity|].
  apply no_lf_replace; [reflexivity|].
  apply no_lf_replace_lf. reflexivity.
Qed.

End StringFacts.

(** ** Escaping *)

Section Escaping.

(** The four passes amount to one pass that escapes each character. *)
Lemma icsEscape_cons (x : ascii) (s : string) :
  icsEscape (String x s) = escape_char x ++ icsEscape s.
Proof.
  unfold icsEscape, escape_char. simpl Str.replaceAll at 4.
  destruct (Ascii.eqb_spec x backslash) as [->|Hb]; [reflexivity|].
  simpl Str.replaceAll at 3.
  destruct (Ascii.eqb_spec x LF) as [->|Hl]; [reflexivity|].
  simpl Str.replaceAll at 2.
  destruct (Ascii.eqb_spec x comma) as [->|Hc]; [reflexivity|].
  simpl Str.replaceAll at 1.
  destruct (Ascii.eqb_spec x semicolon) as [->|Hs]; reflexivity.
Qed.

Lemma icsEscape_single_pass (s : string) : icsEscape s = escape_chars s.
Proof.
  induction s as [|x s IH]; [reflexivity|].
  rewrite icsEscape_cons. simpl. now rewrite IH.
Qed.

Lemma unescape_escape_char (x : ascii) (rest : string) :
  unescape_from false (escape_char x ++ rest)
  = String x (unescape_from false rest).
Proof.
  unfold escape_char.
  destruct (Ascii.eqb_spec x backslash) as [->|Hb]; [reflexivity|].
  destruct (Ascii.eqb_spec x LF) as [->|Hl]; [reflexivity|].
  destruct (Ascii.eqb_spec x comma) as [->|Hc]; [reflexivity|].
  destruct (Ascii.eqb_spec x semicolon) as [->|Hs]; [reflexivity|].
  simpl. destruct (Ascii.eqb_spec x backslash); [contradiction | reflexivity].
Qed.

(** C5. Escaping a text with [icsEscape] and then decoding it with the
    calendar format's TEXT decoder gives the text back, whatever
    characters it holds: [icsUnescape] after [icsEscape] is the identity. *)
Theorem icsUnescape_icsEscape (s : string) : icsUnescape (icsEscape s) = s.
Proof.
  unfold icsUnescape. rewrite icsEscape_single_pass.
  induction s as [|x s IH]; [reflexivity|].
  simpl escape_chars. rewrite unescape_escape_char. now rewrite IH.
Qed.

End Escaping.

(** ** Lines of a text *)

Section Lines.

Lemma lines_cons2 (x y : ascii) (s : string) :
  Str.lines (String x (String y s))
  = if Ascii.eqb x CR && Ascii.eqb y LF then EmptyString :: Str.lines s
    else Str.cons_head x (Str.lines (String y s)).
Proof. reflexivity. Qed.

Lemma lines_not_nil (s : string) : Str.lines s <> [].
Proof.
  destruct s as [|x [|y s]]; try discriminate.
  rewrite lines_cons2. destruct (Ascii.eqb x CR && Ascii.eqb y LF); [discriminate|].
  destruct (Str.lines (String y s)); discriminate.
Qed.

Lemma cons_head_app (x : ascii) (l1 l2 : list string) :
  l1 <> [] -> Str.cons_head x (l1 ++ l2)%list = (Str.cons_head x l1 ++ l2)%list.
Proof. destruct l1; [contradiction | reflexivity]. Qed.

(** A CR LF between two texts separates the lines of the first from the
    lines of the second, whatever the texts are. *)
Lemma lines_app_crlf (b a : string) :
  Str.lines (a ++ CRLF ++ b) = (Str.lines a ++ Str.lines b)%list.
Proof.
  enough (H : Str.lines (a ++ CRLF ++ b) = (Str.lines a ++ Str.lines b)%list
              /\ forall x, Str.lines (String x a ++ CRLF ++ b)
                           = (Str.lines (String x a) ++ Str.lines b)%list)
    by apply H.
  induction a as [|y a [IH1 IH2]].
  - split; [reflexivity|].
    intros x. simpl append. rewrite lines_cons2.
    replace (Ascii.eqb CR LF) with false by reflexivity.
    rewrite andb_false_r. reflexivity.
  - split; [apply IH2|].
    intros x. simpl append. rewrite !lines_cons2.
    destruct (Ascii.eqb x CR && Ascii.eqb y LF).
    + simpl append in IH1. rewrite IH1. reflexivity.
    + simpl append in IH2. rewrite IH2.
      apply cons_head_app, lines_not_nil.
Qed.

Lemma lines_single (l : string) : Str.no_lf l = true -> Str.lines l = [l].
Proof.
  induction l as [|x l IH]; [reflexivity|].
  intros H. simpl in H. apply andb_true_iff in H as [_ Hl].
  destruct l as [|y l]; [reflexivity|].
  rewrite lines_cons2.
  assert (Ey : Ascii.eqb y LF = false).
  { simpl in Hl. apply andb_true_iff in Hl as [Hy _].
    now apply negb_true_iff in Hy. }
  rewrite Ey, andb_false_r, (IH Hl). reflexivity.
Qed.

Lemma lines_join (ls : list string) :
  ls <> [] -> Str.lines (Str.join CRLF ls) = List.concat (map Str.lines ls).
Proof.
  induction ls as [|p ls IH]; [contradiction|]. intros _.
  destruct ls as [|p' ls].
  - simpl. now rewrite app_nil_r.
  - change (Str.join CRLF (p :: p' :: ls))
      with (p ++ CRLF ++ Str.join CRLF (p' :: ls)).
    rewrite lines_app_crlf, IH by discriminate. reflexivity.
Qed.

Lemma concat_map_single (ls : list string) :
  Forall (fun l => Str.no_lf l = true) ls -> List.concat (map Str.lines ls) = ls.
Proof.
  induction 1 as [|l ls Hl _ IH]; [reflexivity|].
  simpl. rewrite (lines_single l Hl), IH. reflexivity.
Qed.

(** Joining lines that hold no line feed and reading the lines back gives
    the same lines. *)
Lemma lines_join_single (ls : list string) :
  ls <> [] -> Forall (fun l => Str.no_lf l = true) ls ->
  Str.lines (Str.join CRLF ls) = ls.
Proof.
  intros Hne Hall. rewrite lines_join by assumption.
  now apply concat_map_single.
Qed.

End Lines.

(** ** Printed numbers and dates hold no line feed *)

Section Printing.

Lemma no_lf_uint (d : Decimal.uint) :
  Str.no_lf (NilEmpty.string_of_uint d) = true.
Proof. induction d; simpl; auto. Qed.

Lemma no_lf_String_of_Z (z : Z) : Str.no_lf (String_of_Z z) = true.
Proof.
  unfold String_of_Z, NilZero.string_of_int, NilZero.string_of_uint.
  destruct (Z.to_int z) as [d|d]; destruct d; simpl; auto using no_lf_uint.
Qed.

Lemma no_lf_padStart2 (s : string) :
  Str.no_lf s = true -> Str.no_lf (Str.padStart2 s) = true.
Proof.
  destruct s as [|x [|y s]]; simpl; auto.
Qed.

Lemma no_lf_pad (z : Z) : Str.no_lf (pad z) = true.
Proof. apply no_lf_padStart2, no_lf_String_of_Z. Qed.

Lemma no_lf_formatAsUTC (dt : Date) : Str.no_lf (formatAsUTC dt) = true.
Proof.
  destruct dt as [t|]; [|reflexivity].
  unfold formatAsUTC.
  rewrite !no_lf_app, !no_lf_pad, no_lf_String_of_Z. reflexivity.
Qed.

End Printing.

(** ** The lines of an event and of the calendar *)

Section Document.

Variable now : Z.

Lemma no_lf_event_url (a : StravaActivity) : Str.no_lf (event_url a) = true.
Proof. unfold event_url. rewrite no_lf_app, no_lf_String_of_Z. reflexivity. Qed.

Lemma no_lf_event_location (a : StravaActivity) :
  Str.no_lf (event_location a) = true.
Proof.
  unfold event_location.
  destruct (truthy (location_city a) || truthy (location_state a)
            || truthy (location_country a)); [apply no_lf_icsEscape | reflexivity].
Qed.

Lemma event_lines_no_lf (a : StravaActivity) :
  Forall (fun l => Str.no_lf l = true) (filter Str.truthy (event_lines now a)).
Proof.
  apply incl_Forall with (l1 := event_lines now a).
  - intros l Hl. apply filter_In in Hl. apply Hl.
  - unfold event_lines.
    repeat apply Forall_cons; try apply Forall_nil;
      rewrite ?no_lf_app, ?no_lf_String_of_Z, ?no_lf_formatAsUTC,
        ?no_lf_icsEscape, ?no_lf_event_url; try reflexivity.
    destruct (Str.truthy (event_location a)); [|reflexivity].
    rewrite no_lf_app, no_lf_event_location. reflexivity.
Qed.

Lemma event_lines_not_nil (a : StravaActivity) :
  filter Str.truthy (event_lines now a) <> [].
Proof. discriminate. Qed.

Lemma lines_buildEvent (a : StravaActivity) :
  Str.lines (buildEvent now a) = filter Str.truthy (event_lines now a).
Proof.
  unfold buildEvent.
  apply lines_join_single; [apply event_lines_not_nil | apply event_lines_no_lf].
Qed.

(** One line of an event opens a VEVENT: its first one. *)
Lemma one_block_per_event (a : StravaActivity) :
  List.length (filter (String.eqb "BEGIN:VEVENT")
                 (filter Str.truthy (event_lines now a))) = 1.
Proof.
  unfold event_lines.
  destruct (Str.truthy (event_location a)) eqn:E; simpl; rewrite ?E; reflexivity.
Qed.

Lemma lines_events (acts : list StravaActivity) :
  acts <> [] ->
  Str.lines (Str.join CRLF (map (buildEvent now) acts))
  = List.concat (map (fun a => filter Str.truthy (event_lines now a)) acts).
Proof.
  intros Hne. rewrite lines_join by (destruct acts; [contradiction | discriminate]).
  rewrite map_map. f_equal. apply map_ext. apply lines_buildEvent.
Qed.

Lemma lines_build_ics (acts : list StravaActivity) :
  Str.lines (build_ics now acts)
  = (envelope_open
     ++ Str.lines (Str.join CRLF (map (buildEvent now) acts))
     ++ [envelope_close])%list.
Proof.
  unfold build_ics, ics_parts. rewrite lines_join by discriminate.
  cbn [map List.concat]. rewrite !lines_single by reflexivity.
  cbn [List.app]. rewrite app_nil_r. reflexivity.
Qed.

Lemma blocks_in_events (acts : list StravaActivity) :
  List.length (filter (String.eqb "BEGIN:VEVENT")
                 (Str.lines (Str.join CRLF (map (buildEvent now) acts))))
  = List.length acts.
Proof.
  destruct acts as [|a acts]; [reflexivity|].
  rewrite lines_events by discriminate.
  generalize (a :: acts). clear. intros acts.
  induction acts as [|a acts IH]; [reflexivity|].
  cbn [map List.concat]. rewrite filter_app, length_app, one_block_per_event, IH.
  reflexivity.
Qed.

(** The calendar text has one event block for each activity. *)
Lemma event_blocks_build_ics (acts : list StravaActivity) :
  Ics.event_blocks (build_ics now acts) = List.length acts.
Proof.
  unfold Ics.event_blocks. rewrite lines_build_ics.
  rewrite !filter_app, !length_app, blocks_in_events.
  cbn. lia.
Qed.

End Document.

(** ** Comparisons with the cap *)

Section Comparisons.

Lemma Qle_bool_inject (a b : Z) : Qle_bool (inject_Z a) (inject_Z b) = Z.leb a b.
Proof.
  unfold Qle_bool, inject_Z. simpl. now rewrite !Z.mul_1_r.
Qed.

Lemma Qle_bool_denotes (v : Q) (N n : nat) :
  Qeq v (inject_Z (Z.of_nat N)) ->
  Qle_bool v (inject_Z (Z.of_nat n)) = Nat.leb N n.
Proof.
  intros Hv.
  destruct (Nat.leb_spec N n) as [H|H].
  - apply Qle_bool_iff. rewrite Hv. rewrite <- Zle_Qle. lia.
  - destruct (Qle_bool v (inject_Z (Z.of_nat n))) eqn:E; [|reflexivity].
    apply Qle_bool_iff in E. rewrite Hv in E. rewrite <- Zle_Qle in E. lia.
Qed.

Lemma js_lt_denotes (max : jsnum) (N n : nat) :
  denotes max N -> js_lt (of_nat n) max = Nat.ltb n N.
Proof.
  destruct max as [| |v|]; simpl; try contradiction.
  intros Hv. rewrite (Qle_bool_denotes v N n Hv).
  rewrite Nat.ltb_antisym. reflexivity.
Qed.

Lemma js_ge_denotes (max : jsnum) (N n : nat) :
  denotes max N -> js_ge (of_nat n) max = Nat.leb N n.
Proof.
  destruct max as [| |v|]; simpl; try contradiction.
  intros Hv. apply Qle_bool_denotes. exact Hv.
Qed.

(** Below the cap with more, below the cap with less. *)
Lemma js_lt_mono (max : jsnum) (n m : nat) :
  n <= m -> js_lt (of_nat m) max = true -> js_lt (of_nat n) max = true.
Proof.
  intros Hnm. destruct max as [| |v|]; simpl; auto.
  intros H. apply negb_true_iff in H. apply negb_true_iff.
  destruct (Qle_bool v (inject_Z (Z.of_nat n))) eqn:E; [|reflexivity].
  apply Qle_bool_iff in E.
  assert (Hm : Qle v (inject_Z (Z.of_nat m))).
  { eapply Qle_trans; [exact E|]. rewrite <- Zle_Qle. lia. }
  apply Qle_bool_iff in Hm. congruence.
Qed.

End Comparisons.

(** ** The loop over one batch *)

Section Batch.

Variable allowedSports : option (list string).
Variable max : jsnum.

Lemma for_batch_grows (batch acc : list StravaActivity) :
  List.length acc <= List.length (for_batch allowedSports max batch acc).
Proof.
  revert acc. induction batch as [|a rest IH]; intros acc; cbn [for_batch]; [lia|].
  destruct (js_ge (of_nat (List.length acc)) max); [lia|].
  destruct (passes allowedSports a); cbn [negb]; [|apply IH].
  specialize (IH (acc ++ [a])%list). rewrite length_app in IH. simpl in IH. lia.
Qed.

Lemma accumulate_grows (bs : list (list StravaActivity)) (acc : list StravaActivity) :
  List.length acc <= List.length (accumulate allowedSports max bs acc).
Proof.
  revert acc. induction bs as [|b bs IH]; intros acc; cbn [accumulate]; [lia|].
  etransitivity; [apply for_batch_grows | apply IH].
Qed.

Variable N : nat.
Hypothesis max_N : denotes max N.

(** The batch adds the activities that pass, in order, up to the cap. *)
Lemma for_batch_spec (batch acc : list StravaActivity) :
  for_batch allowedSports max batch acc
  = (acc ++ firstn (N - List.length acc) (filter (passes allowedSports) batch))%list.
Proof.
  revert acc. induction batch as [|a rest IH]; intros acc; cbn [for_batch filter].
  - now rewrite firstn_nil, app_nil_r.
  - rewrite (js_ge_denotes max N _ max_N).
    destruct (Nat.leb_spec N (List.length acc)) as [H|H].
    + replace (N - List.length acc) with 0 by lia. simpl. now rewrite app_nil_r.
    + destruct (passes allowedSports a); cbn [negb]; [|apply IH].
      rewrite IH, length_app. simpl.
      replace (N - List.length acc) with (Datatypes.S (N - (List.length acc + 1))) by lia.
      simpl. now rewrite <- app_assoc.
Qed.

Lemma for_batch_firstn (batch acc : list StravaActivity) :
  List.length acc <= N ->
  for_batch allowedSports max batch acc
  = firstn N (acc ++ filter (passes allowedSports) batch).
Proof.
  intros H. rewrite for_batch_spec, firstn_app.
  rewrite (firstn_all2 (n := N) acc) by lia. reflexivity.
Qed.

End Batch.

(** ** The pagination loop *)

Section Loop.

Variable w : World.
Variable after : jsnum.
Variable tok : string.
Variable allowedSports : option (list string).
Variable max : jsnum.

(** The loop ends at once when the cap is reached. *)
Lemma loop_done (fuel page : nat) (acc : list StravaActivity) :
  js_lt (of_nat (List.length acc)) max = false ->
  fetch_loop fuel w after tok allowedSports max page acc = ([], Return acc).
Proof.
  intros H. destruct fuel; cbn [fetch_loop]; now rewrite H.
Qed.

(** It ends on an empty page. *)
Lemma loop_empty (fuel page : nat) (acc : list StravaActivity) :
  js_lt (of_nat (List.length acc)) max = true ->
  activities_endpoint w page = Success [] ->
  fetch_loop (Datatypes.S fuel) w after tok allowedSports max page acc = ([page_call after tok page], Return acc).
Proof.
  intros H E. cbn [fetch_loop]. rewrite H, E. reflexivity.
Qed.

(** It throws on a page that is refused. *)
Lemma loop_refused (fuel page : nat) (acc : list StravaActivity) st text b :
  js_lt (of_nat (List.length acc)) max = true ->
  activities_endpoint w page = NotOk st text b ->
  fetch_loop (Datatypes.S fuel) w after tok allowedSports max page acc
  = ([page_call after tok page], Throw (http_message st text b)).
Proof.
  intros H E. cbn [fetch_loop]. rewrite H, E. reflexivity.
Qed.

(** Otherwise it goes on with the next page. *)
Lemma loop_step (fuel page : nat) (acc b : list StravaActivity) :
  js_lt (of_nat (List.length acc)) max = true ->
  activities_endpoint w page = Success b -> b <> [] ->
  fetch_loop (Datatypes.S fuel) w after tok allowedSports max page acc
  = (page_call after tok page
       :: fst (fetch_loop fuel w after tok allowedSports max (Datatypes.S page) (for_batch allowedSports max b acc)),
     snd (fetch_loop fuel w after tok allowedSports max (Datatypes.S page) (for_batch allowedSports max b acc))).
Proof.
  intros H E Hb. cbn [fetch_loop]. rewrite H, E.
  destruct b as [|a b]; [contradiction|].
  rewrite Nat.add_1_r.
  unfold jfetch, request, bind, ret.
  destruct (fetch_loop fuel w after tok allowedSports max (Datatypes.S page)
              (for_batch allowedSports max (a :: b) acc)) as [t o].
  reflexivity.
Qed.

(** The pages are asked for one after the other from the first one, and
    every page before the last one asked for held activities. *)
Lemma loop_trace (fuel page : nat) (acc : list StravaActivity) :
  exists m,
    m <= fuel
    /\ fst (fetch_loop fuel w after tok allowedSports max page acc) = map (page_call after tok) (seq page m)
    /\ forall p, page <= p -> Datatypes.S p < page + m ->
                 exists b, activities_endpoint w p = Success b /\ b <> [].
Proof.
  revert page acc. induction fuel as [|fuel IH]; intros page acc.
  - exists 0. split; [lia|]. split; [|intros; lia].
    cbn [fetch_loop].
    destruct (js_lt (of_nat (List.length acc)) max); reflexivity.
  - destruct (js_lt (of_nat (List.length acc)) max) eqn:H.
    2:{ exists 0. rewrite loop_done by exact H.
        split; [lia|]. split; [reflexivity | intros; lia]. }
    destruct (activities_endpoint w page) as [b|st text b] eqn:E.
    2:{ exists 1. rewrite (loop_refused _ _ _ _ _ _ H E).
        split; [lia|]. split; [reflexivity | intros; lia]. }
    destruct b as [|a b].
    { exists 1. rewrite (loop_empty _ _ _ H E).
      split; [lia|]. split; [reflexivity | intros; lia]. }
    rewrite (loop_step _ _ _ _ H E) by discriminate.
    destruct (IH (Datatypes.S page) (for_batch allowedSports max (a :: b) acc))
      as (m & Hm & Ht & Hp).
    exists (Datatypes.S m). split; [lia|]. split.
    + cbn [fst seq map]. now rewrite Ht.
    + intros p Hp1 Hp2.
      destruct (Nat.eq_dec p page) as [->|Hne].
      * exists (a :: b). split; [exact E | discriminate].
      * apply Hp; lia.
Qed.

(** An empty page at [k] ends the loop, at that page at the latest. *)
Lemma loop_terminates (k fuel page : nat) (acc : list StravaActivity) :
  page <= k -> activities_endpoint w k = Success [] -> k - page < fuel ->
  snd (fetch_loop fuel w after tok allowedSports max page acc) <> OutOfFuel
  /\ List.length (fst (fetch_loop fuel w after tok allowedSports max page acc)) <= k - page + 1.
Proof.
  revert page acc. induction fuel as [|fuel IH]; intros page acc Hk Ek Hf; [lia|].
  destruct (js_lt (of_nat (List.length acc)) max) eqn:H.
  2:{ rewrite loop_done by exact H. split; [discriminate | simpl; lia]. }
  destruct (activities_endpoint w page) as [b|st text b] eqn:E.
  2:{ rewrite (loop_refused _ _ _ _ _ _ H E). split; [discriminate | simpl; lia]. }
  destruct b as [|a b].
  { rewrite (loop_empty _ _ _ H E). split; [discriminate | simpl; lia]. }
  rewrite (loop_step _ _ _ _ H E) by discriminate.
  assert (Hlt : page < k).
  { destruct (Nat.eq_dec page k) as [->|]; [congruence | lia]. }
  destruct (IH (Datatypes.S page) (for_batch allowedSports max (a :: b) acc))
    as [Ho Hl]; try lia; try assumption.
  split; [exact Ho|]. cbn [fst List.length]. lia.
Qed.

(** A page refused before the cap is reached makes the loop throw. *)
Lemma loop_fails (bs : list (list StravaActivity)) st text b :
  forall fuel page acc,
    serves w page bs ->
    js_lt (of_nat (List.length (accumulate allowedSports max bs acc))) max = true ->
    activities_endpoint w (page + List.length bs) = NotOk st text b ->
    List.length bs < fuel ->
    fetch_loop fuel w after tok allowedSports max page acc
    = (map (page_call after tok) (seq page (List.length bs + 1)),
       Throw (http_message st text b)).
Proof.
  induction bs as [|b0 bs IH]; intros fuel page acc Hs Hlt E Hf;
    (destruct fuel as [|fuel]; [simpl in Hf; lia|]).
  - simpl in *. rewrite Nat.add_0_r in E. now apply loop_refused.
  - destruct Hs as (E0 & Hb0 & Hs). cbn [accumulate] in Hlt.
    assert (H : js_lt (of_nat (List.length acc)) max = true).
    { eapply js_lt_mono; [|exact Hlt].
      etransitivity; [apply for_batch_grows | apply accumulate_grows]. }
    rewrite (loop_step _ _ _ _ H E0 Hb0).
    rewrite (IH fuel (Datatypes.S page) _ Hs Hlt).
    + reflexivity.
    + rewrite <- E. f_equal. simpl. lia.
    + simpl in Hf. lia.
Qed.

Variable N : nat.
Hypothesis max_N : denotes max N.

Lemma firstn_firstn_app (X Y : list StravaActivity) :
  firstn N (firstn N X ++ Y) = firstn N (X ++ Y).
Proof.
  destruct (Nat.le_gt_cases (List.length X) N) as [H|H].
  - now rewrite (firstn_all2 (n := N) X) by exact H.
  - rewrite !firstn_app.
    rewrite (firstn_all2 (n := N) (firstn N X)) by (rewrite length_firstn; lia).
    rewrite length_firstn.
    replace (N - Nat.min N (List.length X)) with 0 by lia.
    replace (N - List.length X) with 0 by lia.
    reflexivity.
Qed.

(** Enough activities that pass: the loop returns the first [N] of them. *)
Lemma loop_cap (bs : list (list StravaActivity)) :
  forall fuel page acc,
    serves w page bs ->
    List.length acc <= N ->
    N <= List.length (acc ++ filter (passes allowedSports) (List.concat bs)) ->
    List.length bs <= fuel ->
    snd (fetch_loop fuel w after tok allowedSports max page acc) = Return (firstn N (acc ++ filter (passes allowedSports) (List.concat bs))).
Proof.
  induction bs as [|b bs IH]; intros fuel page acc Hs Hacc Hn Hf.
  - cbn [List.concat filter] in *. rewrite app_nil_r in *.
    rewrite loop_done.
    + cbn [snd]. now rewrite firstn_all2 by lia.
    + rewrite (js_lt_denotes max N _ max_N). apply Nat.ltb_ge. lia.
  - destruct (js_lt (of_nat (List.length acc)) max) eqn:H.
    + destruct fuel as [|fuel]; [simpl in Hf; lia|].
      destruct Hs as (E & Hb & Hs).
      rewrite (loop_step _ _ _ _ H E Hb). cbn [snd].
      rewrite (for_batch_firstn allowedSports max N max_N b acc Hacc).
      cbn [List.concat]. rewrite filter_app, app_assoc.
      rewrite <- (firstn_firstn_app (acc ++ filter (passes allowedSports) b)).
      apply IH; try assumption.
      * rewrite length_firstn. lia.
      * cbn [List.concat] in Hn.
        rewrite filter_app, app_assoc in Hn.
        rewrite !length_app in Hn. rewrite length_app, length_firstn, length_app.
        lia.
      * simpl in Hf. lia.
    + rewrite (js_lt_denotes max N _ max_N) in H. apply Nat.ltb_ge in H.
      rewrite loop_done
        by (rewrite (js_lt_denotes max N _ max_N); apply Nat.ltb_ge; lia).
      cbn [snd]. rewrite firstn_app, firstn_all2 by lia.
      replace (N - List.length acc) with 0 by lia. simpl. now rewrite app_nil_r.
Qed.

(** The upstream runs out: the loop returns the activities that pass, cut
    at the cap. *)
Lemma loop_exhausted (bs : list (list StravaActivity)) :
  forall fuel page acc,
    serves w page bs ->
    activities_endpoint w (page + List.length bs) = Success [] ->
    List.length acc <= N ->
    List.length bs < fuel ->
    snd (fetch_loop fuel w after tok allowedSports max page acc) = Return (firstn N (acc ++ filter (passes allowedSports) (List.concat bs))).
Proof.
  induction bs as [|b bs IH]; intros fuel page acc Hs E Hacc Hf;
    (destruct fuel as [|fuel]; [simpl in Hf; lia|]).
  - cbn [List.concat filter List.length] in *.
    rewrite app_nil_r, Nat.add_0_r in *.
    rewrite firstn_all2 by lia.
    destruct (js_lt (of_nat (List.length acc)) max) eqn:H.
    + now rewrite (loop_empty _ _ _ H E).
    + now rewrite loop_done by exact H.
  - destruct (js_lt (of_nat (List.length acc)) max) eqn:H.
    + destruct Hs as (E0 & Hb & Hs).
      rewrite (loop_step _ _ _ _ H E0 Hb). cbn [snd].
      rewrite (for_batch_firstn allowedSports max N max_N b acc Hacc).
      cbn [List.concat]. rewrite filter_app, app_assoc.
      rewrite <- (firstn_firstn_app (acc ++ filter (passes allowedSports) b)).
      apply IH; try assumption.
      * rewrite <- E. f_equal. simpl. lia.
      * rewrite length_firstn. lia.
      * simpl in Hf. lia.
    + rewrite loop_done by exact H.
      rewrite (js_lt_denotes max N _ max_N) in H. apply Nat.ltb_ge in H.
      cbn [snd]. rewrite firstn_app, firstn_all2 by lia.
      replace (N - List.length acc) with 0 by lia. simpl. now rewrite app_nil_r.
Qed.

End Loop.

(** ** The handler *)

Section Handler.

Lemma missing_false (v : option string) :
  missing v = false -> exists s, v = Some s /\ Str.truthy s = true.
Proof.
  destruct v as [s|]; simpl; [|discriminate].
  intros H. exists s. split; [reflexivity|]. now apply negb_false_iff in H.
Qed.

Lemma getAccessToken_present (w : World) :
  missing (STRAVA_CLIENT_ID w) = false ->
  missing (STRAVA_CLIENT_SECRET w) = false ->
  missing (STRAVA_REFRESH_TOKEN w) = false ->
  exists i s r,
    getAccessToken w
    = jfetch (TokenExchange i s r) (token_endpoint w).
Proof.
  intros Hi Hs Hr.
  apply missing_false in Hi as (i & Ei & Ti).
  apply missing_false in Hs as (s & Es & Ts).
  apply missing_false in Hr as (r & Er & Tr).
  exists i, s, r. unfold getAccessToken. rewrite Ei, Es, Er, Ti, Ts, Tr.
  reflexivity.
Qed.

Lemma getAccessToken_authorized (w : World) (tok : string) :
  authorized w tok ->
  exists i s r, getAccessToken w = ([TokenExchange i s r], Return tok).
Proof.
  intros (Hi & Hs & Hr & Ht).
  destruct (getAccessToken_present w Hi Hs Hr) as (i & s & r & E).
  exists i, s, r. rewrite E, Ht. reflexivity.
Qed.

Lemma getAccessToken_missing (w : World) :
  missing (STRAVA_CLIENT_ID w) || missing (STRAVA_CLIENT_SECRET w)
    || missing (STRAVA_REFRESH_TOKEN w) = true ->
  getAccessToken w = ([], Throw "Missing STRAVA env vars").
Proof.
  unfold getAccessToken, missing.
  destruct (STRAVA_CLIENT_ID w) as [i|], (STRAVA_CLIENT_SECRET w) as [s|],
    (STRAVA_REFRESH_TOKEN w) as [r|]; try reflexivity.
  intros H. rewrite H. reflexivity.
Qed.

(** With the token in hand, the [try] block is the loop from page 1 with
    nothing accumulated. *)
Lemma fetch_activities_authorized (fuel : nat) (w : World) (q : Query) (tok : string) :
  authorized w tok ->
  exists i s r,
    let run := fetch_loop fuel w (after_of (Date_now w) (effective_sinceDays q))
                 tok (allowedSports_of (sport q)) (effective_max q) 1 [] in
    fetch_activities fuel w q = (TokenExchange i s r :: fst run, snd run).
Proof.
  intros Ha. destruct (getAccessToken_authorized w tok Ha) as (i & s & r & E).
  exists i, s, r. unfold fetch_activities. rewrite E. unfold bind.
  destruct (fetch_loop fuel w _ tok _ _ 1 []) as [t o]. reflexivity.
Qed.

Lemma handler_returns (fuel : nat) (w : World) (q : Query) t acts :
  fetch_activities fuel w q = (t, Return acts) ->
  handler fuel w q
  = (t, Some {| status := 200;
                headers := [("Content-Type", "text/calendar; charset=utf-8");
                            ("Cache-Control", "s-maxage=300, stale-while-revalidate=60")];
                body := build_ics (Date_now w) acts |}).
Proof.
  intros E. unfold handler, try_block. rewrite E. unfold bind, ret.
  now rewrite app_nil_r.
Qed.

Lemma handler_throws (fuel : nat) (w : World) (q : Query) t msg :
  fetch_activities fuel w q = (t, Throw msg) ->
  handler fuel w q
  = (t, Some {| status := 500; headers := [];
                body := error_ics (Date_now w) msg |}).
Proof.
  intros E. unfold handler, try_block. rewrite E. reflexivity.
Qed.

Lemma handler_trace (fuel : nat) (w : World) (q : Query) :
  fst (handler fuel w q) = fst (fetch_activities fuel w q).
Proof.
  unfold handler, try_block.
  destruct (fetch_activities fuel w q) as [t [acts|msg|]]; simpl;
    [apply app_nil_r | reflexivity | reflexivity].
Qed.

Lemma handler_answers (fuel : nat) (w : World) (q : Query) :
  snd (fetch_activities fuel w q) <> OutOfFuel ->
  exists resp, snd (handler fuel w q) = Some resp.
Proof.
  unfold handler, try_block.
  destruct (fetch_activities fuel w q) as [t [acts|msg|]]; simpl; intros H;
    [eexists; reflexivity | eexists; reflexivity | contradiction].
Qed.

End Handler.

(** ** The empty feed *)

(** C1 (the code departs from the claim). For an account without
    activities the body is the eight opening lines, an empty line and the
    closing line: it holds no event block, but it is not the opening lines
    and the closing line joined by CR LF, since an empty line stands
    between [X-WR-TIMEZONE:UTC] and [END:VCALENDAR]. *)
Theorem empty_feed_has_blank_line :
  let q := Sample.query QAbsent QAbsent in
  exists t resp,
    handler 1 Sample.empty_account q = (t, Some resp)
    /\ pages_requested t = [1]
    /\ status resp = 200%Z
    /\ Str.lines (body resp)
       = (envelope_open ++ [EmptyString; envelope_close])%list
    /\ Ics.event_blocks (body resp) = 0
    /\ body resp <> Str.join CRLF (envelope_open ++ [envelope_close])
    /\ Ics.well_formed (body resp) = false.
Proof.
  eexists. eexists. split; [vm_compute; reflexivity|].
  split; [reflexivity|]. split; [reflexivity|].
  split; [vm_compute; reflexivity|].
  split; [vm_compute; reflexivity|].
  split; [|vm_compute; reflexivity].
  vm_compute. discriminate.
Qed.

(** Whatever the clock, no activities give the blank line. *)
Lemma build_ics_nil (now : Z) :
  build_ics now [] = Str.join CRLF (envelope_open ++ [EmptyString; envelope_close]).
Proof. reflexivity. Qed.

(** ** The cap *)

(** C2. With a cap of [N] between 1 and 600 and an upstream whose pages
    [bs], read in order from page 1, hold more than [N] activities that
    pass the type filter, the loop returns exactly the first [N] of them in
    upstream order, and the calendar text has exactly [N] event blocks. *)
Theorem cap_enforced (w : World) (q : Query) (tok : string) (N : nat)
  (bs : list (list StravaActivity)) (fuel : nat) :
  authorized w tok ->
  denotes (effective_max q) N ->
  1 <= N <= 600 ->
  serves w 1 bs ->
  N < List.length (filter (passes (allowedSports_of (sport q))) (List.concat bs)) ->
  List.length bs <= fuel ->
  let kept := firstn N (filter (passes (allowedSports_of (sport q))) (List.concat bs)) in
  snd (fetch_activities fuel w q) = Return kept
  /\ List.length kept = N
  /\ (exists t hs,
        handler fuel w q
        = (t, Some {| status := 200; headers := hs;
                      body := build_ics (Date_now w) kept |}))
  /\ Ics.event_blocks (build_ics (Date_now w) kept) = N.
Proof.
  intros Ha Hmax _ Hs Hmore Hf kept.
  destruct (fetch_activities_authorized fuel w q tok Ha) as (i & s & r & E).
  cbv zeta in E.
  assert (Hrun : snd (fetch_activities fuel w q) = Return kept).
  { rewrite E. cbn [snd].
    rewrite (loop_cap w _ tok _ _ N Hmax bs fuel 1 []); try assumption.
    - reflexivity.
    - simpl. lia.
    - simpl. lia. }
  assert (Hlen : List.length kept = N).
  { unfold kept. rewrite length_firstn. lia. }
  split; [exact Hrun|]. split; [exact Hlen|]. split.
  - destruct (fetch_activities fuel w q) as [t o] eqn:Ef. simpl in Hrun. subst o.
    exists t. eexists. apply handler_returns. exact Ef.
  - rewrite event_blocks_build_ics. exact Hlen.
Qed.

(** A cap of 2, two pages with three runs and a ride, only runs allowed. *)
Lemma cap_enforced_witness :
  let w := Sample.world Sample.two_pages in
  let q := Sample.query (QString "run") (QString "2") in
  snd (fetch_activities 2 w q) = Return [Sample.run1; Sample.run2]
  /\ Ics.event_blocks (build_ics (Date_now w) [Sample.run1; Sample.run2]) = 2.
Proof.
  intros w q.
  assert (Ha : authorized w "tok") by (repeat split).
  assert (Hm : denotes (effective_max q) 2) by reflexivity.
  assert (Hs : serves w 1 Sample.two_pages)
    by (simpl; repeat split; discriminate).
  pose proof (cap_enforced w q "tok" 2 Sample.two_pages 2 Ha Hm
                ltac:(lia) Hs ltac:(vm_compute; lia) ltac:(simpl; lia)) as H.
  cbv zeta in H. destruct H as (H1 & _ & _ & H4).
  split; [exact H1 | exact H4].
Defined.

(** ** Pagination *)

Section LoopProgress.

Variable w : World.
Variable after : jsnum.
Variable tok : string.
Variable allowedSports : option (list string).
Variable max : jsnum.

(** Every page that the upstream serves holds activities. *)
Lemma serves_page (bs : list (list StravaActivity)) :
  forall page p,
    serves w page bs -> page <= p < page + List.length bs ->
    exists b, activities_endpoint w p = Success b /\ b <> [].
Proof.
  induction bs as [|b0 bs IH]; intros page p Hs Hp; [simpl in Hp; lia|].
  destruct Hs as (E & Hb & Hs).
  destruct (Nat.eq_dec p page) as [->|Hne]; [now exists b0|].
  apply (IH (Datatypes.S page)); [exact Hs | simpl in Hp; lia].
Qed.

(** While the cap is not reached the loop goes past every page that holds
    activities and asks for the next one. *)
Lemma loop_reaches (bs : list (list StravaActivity)) :
  forall fuel page acc,
    serves w page bs ->
    js_lt (of_nat (List.length (accumulate allowedSports max bs acc))) max = true ->
    List.length bs < fuel ->
    List.length bs + 1
    <= List.length (fst (fetch_loop fuel w after tok allowedSports max page acc)).
Proof.
  induction bs as [|b0 bs IH]; intros fuel page acc Hs Hlt Hf;
    (destruct fuel as [|fuel]; [simpl in Hf; lia|]).
  - cbn [accumulate] in Hlt.
    destruct (activities_endpoint w page) as [b|st text b] eqn:E.
    + destruct b as [|a b].
      * rewrite (loop_empty _ _ _ _ _ _ _ _ Hlt E). simpl. lia.
      * rewrite (loop_step _ _ _ _ _ _ _ _ _ Hlt E) by discriminate. simpl. lia.
    + rewrite (loop_refused _ _ _ _ _ _ _ _ _ _ _ Hlt E). simpl. lia.
  - destruct Hs as (E0 & Hb0 & Hs). cbn [accumulate] in Hlt.
    assert (H : js_lt (of_nat (List.length acc)) max = true).
    { eapply js_lt_mono; [|exact Hlt].
      etransitivity; [apply for_batch_grows | apply accumulate_grows]. }
    rewrite (loop_step _ _ _ _ _ _ _ _ _ H E0 Hb0). cbn [fst List.length].
    specialize (IH fuel (Datatypes.S page) _ Hs Hlt). simpl in Hf. lia.
Qed.

(** An empty page met before the cap is reached ends the loop there, with
    what the pages before it gave. *)
Lemma loop_stops_at_empty (bs : list (list StravaActivity)) :
  forall fuel page acc,
    serves w page bs ->
    js_lt (of_nat (List.length (accumulate allowedSports max bs acc))) max = true ->
    activities_endpoint w (page + List.length bs) = Success [] ->
    List.length bs < fuel ->
    fetch_loop fuel w after tok allowedSports max page acc
    = (map (page_call after tok) (seq page (List.length bs + 1)),
       Return (accumulate allowedSports max bs acc)).
Proof.
  induction bs as [|b0 bs IH]; intros fuel page acc Hs Hlt E Hf;
    (destruct fuel as [|fuel]; [simpl in Hf; lia|]).
  - simpl in *. rewrite Nat.add_0_r in E. now apply loop_empty.
  - destruct Hs as (E0 & Hb0 & Hs). cbn [accumulate] in Hlt |- *.
    assert (H : js_lt (of_nat (List.length acc)) max = true).
    { eapply js_lt_mono; [|exact Hlt].
      etransitivity; [apply for_batch_grows | apply accumulate_grows]. }
    rewrite (loop_step _ _ _ _ _ _ _ _ _ H E0 Hb0).
    rewrite (IH fuel (Datatypes.S page) _ Hs Hlt).
    + reflexivity.
    + rewrite <- E. f_equal. simpl. lia.
    + simpl in Hf. lia.
Qed.

End LoopProgress.

(** C3. The loop asks for page 1 first and for the next page number at
    each round: the pages asked for are 1, 2, ..., [m].  When some page
    [k] of the upstream is empty, the handler answers within [k] rounds
    and never asks beyond page [k]; every page before the last one asked
    for held activities.  When the token is obtained, the loop does go on:
    after pages [bs] that hold activities and leave the cap unreached, the
    next page is asked for (with no page read yet this is page 1, for
    every cap that is a number).  So when the first empty page is [k] and
    the cap is not reached before it, exactly the pages 1 to [k] are asked
    for and the feed of what was accumulated is sent, though the count is
    below the cap. *)
Theorem pagination_terminates (w : World) (q : Query) (k fuel : nat) :
  1 <= k ->
  activities_endpoint w k = Success [] ->
  k <= fuel ->
  exists t resp m,
    handler fuel w q = (t, Some resp)
    /\ pages_requested t = seq 1 m
    /\ m <= k
    /\ (forall p, 1 <= p -> p < m ->
                  exists b, activities_endpoint w p = Success b /\ b <> [])
    /\ (forall tok bs,
          authorized w tok ->
          serves w 1 bs ->
          js_lt (of_nat (List.length
                           (accumulate (allowedSports_of (sport q))
                              (effective_max q) bs [])))
                (effective_max q) = true ->
          Datatypes.S (List.length bs) <= m
          /\ (k = Datatypes.S (List.length bs) ->
              m = k
              /\ status resp = 200%Z
              /\ body resp
                 = build_ics (Date_now w)
                     (accumulate (allowedSports_of (sport q))
                        (effective_max q) bs []))).
Proof.
  intros Hk Ek Hf.
  assert (Hpages : forall a tk ps,
             pages_requested (map (page_call a tk) ps) = ps).
  { intros a tk ps. induction ps as [|p ps IH]; [reflexivity|].
    simpl. now rewrite IH. }
  destruct (handler fuel w q) as [t o] eqn:Eh.
  pose proof (handler_trace fuel w q) as Ht. rewrite Eh in Ht. cbn [fst] in Ht.
  destruct (missing (STRAVA_CLIENT_ID w) || missing (STRAVA_CLIENT_SECRET w)
            || missing (STRAVA_REFRESH_TOKEN w)) eqn:Hc.
  - (* no credentials: nothing is asked for *)
    pose proof (getAccessToken_missing w Hc) as Eg.
    assert (Ef : fetch_activities fuel w q = ([], Throw "Missing STRAVA env vars")).
    { unfold fetch_activities. rewrite Eg. reflexivity. }
    rewrite (handler_throws _ _ _ _ _ Ef) in Eh. inversion Eh; subst.
    eexists. eexists. exists 0. split; [reflexivity|].
    split; [reflexivity|]. split; [lia|]. split; [intros; lia|].
    intros tok bs (Hi & Hs & Hr & _) _ _. rewrite Hi, Hs, Hr in Hc. discriminate.
  - apply orb_false_iff in Hc as [Hc Hr]. apply orb_false_iff in Hc as [Hi Hs].
    destruct (getAccessToken_present w Hi Hs Hr) as (i & s & r & Eg).
    destruct (token_endpoint w) as [tok|st text b] eqn:Et.
    + (* the loop runs *)
      assert (Ha : authorized w tok) by (repeat split; assumption).
      destruct (fetch_activities_authorized fuel w q tok Ha) as (i' & s' & r' & Ef).
      cbv zeta in Ef.
      set (a := after_of (Date_now w) (effective_sinceDays q)) in *.
      set (al := allowedSports_of (sport q)) in *.
      destruct (loop_trace w a tok al (effective_max q) fuel 1 [])
        as (m & Hm & Htr & Hp).
      destruct (loop_terminates w a tok al (effective_max q) k fuel 1 [])
        as [Ho Hl]; try assumption; try lia.
      rewrite Htr, length_map, length_seq in Hl.
      destruct (handler_answers fuel w q) as [resp Hresp].
      { rewrite Ef. exact Ho. }
      rewrite Eh in Hresp. cbn [snd] in Hresp. subst o.
      exists t, resp, m. split; [reflexivity|].
      rewrite Ht, Ef. cbn [fst]. rewrite Htr. cbn [pages_requested flat_map].
      split; [apply Hpages|]. split; [lia|].
      split; [intros p Hp1 Hp2; apply Hp; lia|].
      intros tok' bs Ha' Hsv Hlt.
      assert (Hshort : List.length bs < k).
      { destruct (Nat.lt_ge_cases (List.length bs) k) as [H|H]; [exact H|].
        destruct (serves_page w bs 1 k Hsv) as (b & Eb & Hb); [lia|].
        rewrite Ek in Eb. inversion Eb; subst b. contradiction. }
      split.
      * pose proof (loop_reaches w a tok al (effective_max q) bs fuel 1 [] Hsv Hlt)
          as Hreach.
        rewrite Htr, length_map, length_seq in Hreach. lia.
      * intros Hkk.
        assert (Erun : fetch_loop fuel w a tok al (effective_max q) 1 []
                       = (map (page_call a tok) (seq 1 (List.length bs + 1)),
                          Return (accumulate al (effective_max q) bs []))).
        { apply loop_stops_at_empty; try assumption; [|lia].
          rewrite <- Ek. f_equal. lia. }
        rewrite Erun in Ef, Htr. cbn [fst snd] in Ef, Htr.
        pose proof (handler_returns _ _ _ _ _ Ef) as Hret.
        rewrite Eh in Hret. inversion Hret; subst. cbn [status body].
        apply (f_equal (@List.length NetCall)) in Htr.
        rewrite !length_map, !length_seq in Htr.
        repeat split; lia.
    + (* the exchange is refused: nothing is asked for *)
      assert (Ef : fetch_activities fuel w q
                   = ([TokenExchange i s r], Throw (http_message st text b))).
      { unfold fetch_activities. rewrite Eg. reflexivity. }
      rewrite (handler_throws _ _ _ _ _ Ef) in Eh. inversion Eh; subst.
      eexists. eexists. exists 0. split; [reflexivity|].
      split; [reflexivity|]. split; [lia|]. split; [intros; lia|].
      intros tok bs (_ & _ & _ & Htok) _ _. rewrite Htok in Et. discriminate.
Qed.

(** One page with a run, then an empty page: exactly the pages 1 and 2 are
    asked for, and the feed with the run is sent though the cap of 300 is
    not reached. *)
Lemma pagination_terminates_witness :
  exists t resp,
    handler 2 (Sample.world [[Sample.run1]]) (Sample.query QAbsent QAbsent)
    = (t, Some resp)
    /\ pages_requested t = [1; 2]
    /\ status resp = 200%Z
    /\ body resp = build_ics Sample.clock [Sample.run1].
Proof.
  destruct (pagination_terminates (Sample.world [[Sample.run1]])
              (Sample.query QAbsent QAbsent) 2 2)
    as (t & resp & m & Eh & Hp & _ & _ & Hgo); [lia | reflexivity | lia |].
  destruct (Hgo "tok" [[Sample.run1]]) as (_ & Hexact).
  - repeat split.
  - simpl. repeat split. discriminate.
  - reflexivity.
  - destruct (Hexact eq_refl) as (Hm & Hst & Hb). subst m.
    exists t, resp. repeat split; assumption.
Defined.

(** ** The type filter *)

(** C4 as stated fails at the cap: with [max=1] and an allow-list of runs,
    a page of two runs leaves one activity accumulated, not the two whose
    classification is in the allow-list. *)
Lemma filter_alone_fails_at_cap :
  let w := Sample.world [[Sample.run1; Sample.run2]] in
  let q := Sample.query (QString "run") (QString "1") in
  snd (fetch_activities 2 w q) = Return [Sample.run1]
  /\ filter (passes (allowedSports_of (sport q))) [Sample.run1; Sample.run2]
     = [Sample.run1; Sample.run2]
  /\ snd (fetch_activities 2 w q)
     <> Return (filter (passes (allowedSports_of (sport q)))
                  [Sample.run1; Sample.run2]).
Proof.
  intros w q.
  assert (E : snd (fetch_activities 2 w q) = Return [Sample.run1])
    by (vm_compute; reflexivity).
  assert (F : filter (passes (allowedSports_of (sport q)))
                [Sample.run1; Sample.run2] = [Sample.run1; Sample.run2])
    by (vm_compute; reflexivity).
  split; [exact E|]. split; [exact F|].
  rewrite E, F. intros H. inversion H.
Qed.

Lemma In_firstn {A : Type} (a : A) (n : nat) (l : list A) :
  In a (firstn n l) -> In a l.
Proof.
  revert l. induction n as [|n IH]; intros [|x l]; simpl; try contradiction.
  intros [H|H]; [now left | right; now apply IH].
Qed.

(** C4 (amended). When the upstream pages [bs] are followed by an empty
    page, or already hold [N] activities that pass, the loop returns the
    activities whose lower-cased classification is in the allow-list, in
    their original order, cut at the cap [N]: all of them when they are at
    most [N]; without an allow-list, the first [N] fetched activities.
    The cap counts what passed the filter only. *)
Theorem filter_then_cap (w : World) (q : Query) (tok : string) (N : nat)
  (bs : list (list StravaActivity)) (fuel : nat) :
  authorized w tok ->
  denotes (effective_max q) N ->
  serves w 1 bs ->
  activities_endpoint w (1 + List.length bs) = Success []
  \/ N <= List.length (filter (passes (allowedSports_of (sport q))) (List.concat bs)) ->
  List.length bs < fuel ->
  let allowed := allowedSports_of (sport q) in
  let matching := filter (passes allowed) (List.concat bs) in
  snd (fetch_activities fuel w q) = Return (firstn N matching)
  /\ (List.length matching <= N ->
      snd (fetch_activities fuel w q) = Return matching)
  /\ (forall a, In a (firstn N matching) ->
                match allowed with
                | Some l => Str.includes l (classification a) = true
                | None => True
                end)
  /\ (allowed = None ->
      snd (fetch_activities fuel w q) = Return (firstn N (List.concat bs))).
Proof.
  intros Ha Hmax Hs Hend Hf allowed matching.
  destruct (fetch_activities_authorized fuel w q tok Ha) as (i & s & r & E).
  cbv zeta in E.
  assert (Hrun : snd (fetch_activities fuel w q) = Return (firstn N matching)).
  { rewrite E. cbn [snd]. destruct Hend as [Hend|Hend].
    - rewrite (loop_exhausted w _ tok _ _ N Hmax bs fuel 1 []); try assumption.
      + reflexivity.
      + simpl. lia.
    - rewrite (loop_cap w _ tok _ _ N Hmax bs fuel 1 []); try assumption.
      + reflexivity.
      + simpl. lia.
      + lia. }
  split; [exact Hrun|]. split; [|split].
  - intros Hle. rewrite Hrun. now rewrite firstn_all2 by exact Hle.
  - intros a Hin. apply In_firstn in Hin. apply filter_In in Hin as [_ Hp].
    unfold passes in Hp. fold allowed in Hp. destruct allowed; [exact Hp | exact I].
  - intros Hnone. rewrite Hrun. f_equal. f_equal. unfold matching.
    rewrite Hnone. clear. induction (List.concat bs) as [|a l IH]; [reflexivity|].
    simpl. now rewrite IH.
Qed.

(** Two pages then an empty one, runs only, the default cap: the three
    runs, the ride left out. *)
Lemma filter_then_cap_witness :
  snd (fetch_activities 3 (Sample.world Sample.two_pages)
         (Sample.query (QString "Run") QAbsent))
  = Return [Sample.run1; Sample.run2; Sample.run3].
Proof.
  pose proof (filter_then_cap (Sample.world Sample.two_pages)
                (Sample.query (QString "Run") QAbsent) "tok" 300
                Sample.two_pages 3) as H.
  cbv zeta in H.
  destruct H as (_ & H & _).
  - repeat split.
  - reflexivity.
  - simpl. repeat split; discriminate.
  - left. reflexivity.
  - simpl. lia.
  - apply H. vm_compute. lia.
Defined.

(** ** The end of an event *)

(** C6. For a well-formed activity (its UTC start parses to the instant
    [s], its elapsed time is not negative, the end is an instant that a
    date can hold) the end instant of the event is [s] plus the elapsed
    seconds, in milliseconds, whatever the magnitude; the moving time
    plays no part; DTSTART and DTEND print these two instants. *)
Theorem end_is_start_plus_elapsed (now : Z) (a : StravaActivity) (s : Z) :
  well_formed_activity a s ->
  event_start a = Some s
  /\ event_end a = Some (s + elapsed_time a * 1000)%Z
  /\ (forall m, event_end (with_moving_time m a) = event_end a)
  /\ nth 3 (event_lines now a) "" = "DTSTART:" ++ formatAsUTC (Some s)
  /\ nth 4 (event_lines now a) ""
     = "DTEND:" ++ formatAsUTC (Some (s + elapsed_time a * 1000)%Z).
Proof.
  intros (Hs & _ & Hr).
  assert (He : event_end a = Some (s + elapsed_time a * 1000)%Z).
  { unfold event_end. rewrite Hs. unfold DateModel.plus_ms, DateModel.TimeClip.
    apply Z.leb_le in Hr. now rewrite Hr. }
  split; [exact Hs|]. split; [exact He|]. split; [reflexivity|].
  unfold event_lines. cbn [nth]. now rewrite Hs, He.
Qed.

(** A three-day traverse that starts on 1 January 2024 at 08:00 UTC ends
    on 4 January at 08:00 UTC. *)
Lemma end_is_start_plus_elapsed_witness :
  event_end Sample.expedition = Some (1704096000000 + 259200 * 1000)%Z
  /\ nth 4 (event_lines Sample.clock Sample.expedition) ""
     = "DTEND:20240104T080000Z".
Proof.
  assert (W : well_formed_activity Sample.expedition 1704096000000).
  { split; [reflexivity|]. split; [simpl; lia | vm_compute; discriminate]. }
  destruct (end_is_start_plus_elapsed Sample.clock Sample.expedition
              1704096000000 W) as (_ & He & _ & _ & Hl).
  split; [exact He|]. rewrite Hl. reflexivity.
Defined.

(** ** The clamps *)

Section Clamp.

Lemma Qle_bool_false (a b : Q) : Qle_bool a b = false -> Qle b a.
Proof.
  intros H. apply Qlt_le_weak. apply Qnot_le_lt. intros Hle.
  apply Qle_bool_iff in Hle. congruence.
Qed.

Lemma is_integer_of_Z (z : Z) : is_integer (of_Z z) = true.
Proof. unfold is_integer, of_Z, inject_Z. simpl. now rewrite Z.mod_1_r. Qed.

(** The clamp of a finite number is that number, the lower bound or the
    upper bound. *)
Lemma clamped_cases (hi dflt : Z) (v : qvalue) (x : Q) :
  Number_or dflt v = Fin x ->
  clamped hi dflt v = Fin x \/ clamped hi dflt v = of_Z 1
  \/ clamped hi dflt v = of_Z hi.
Proof.
  intros E. unfold clamped. rewrite E. unfold Math_min, of_Z. cbn [js_lt].
  destruct (Qle_bool (inject_Z hi) x); cbn [negb]; unfold Math_max; cbn [js_lt].
  - destruct (Qle_bool (inject_Z hi) (inject_Z 1)); cbn [negb]; auto.
  - destruct (Qle_bool x (inject_Z 1)); cbn [negb]; auto.
Qed.

Lemma clamped_range (hi dflt : Z) (v : qvalue) :
  (1 <= hi)%Z -> Number_or dflt v <> NaN ->
  in_range 1 hi (clamped hi dflt v) = true.
Proof.
  intros Hhi Hn. unfold clamped.
  assert (H1 : Qle_bool (inject_Z 1) (inject_Z hi) = true)
    by (rewrite Qle_bool_inject; now apply Z.leb_le).
  assert (Hrefl : forall z, Qle_bool (inject_Z z) (inject_Z z) = true)
    by (intros z; rewrite Qle_bool_inject; apply Z.leb_refl).
  destruct (Number_or dflt v) as [| |x|]; [contradiction| | |].
  - (* minus infinity *)
    unfold Math_min, Math_max, of_Z, in_range. cbn [js_lt].
    now rewrite Hrefl, H1.
  - unfold Math_min, of_Z. cbn [js_lt].
    destruct (Qle_bool (inject_Z hi) x) eqn:Ehi; cbn [negb];
      unfold Math_max; cbn [js_lt].
    + destruct (Qle_bool (inject_Z hi) (inject_Z 1)); cbn [negb]; unfold in_range;
        now rewrite ?Hrefl, ?H1.
    + destruct (Qle_bool x (inject_Z 1)) eqn:E1; cbn [negb]; unfold in_range.
      * now rewrite Hrefl, H1.
      * apply andb_true_iff. split; apply Qle_bool_iff; now apply Qle_bool_false.
  - (* plus infinity *)
    unfold Math_min, Math_max, of_Z, in_range. cbn [js_lt].
    destruct (Qle_bool (inject_Z hi) (inject_Z 1)); cbn [negb];
      now rewrite ?Hrefl, ?H1.
Qed.

Lemma clamped_integer (hi dflt : Z) (v : qvalue) :
  is_integer (Number_or dflt v) = true ->
  is_integer (clamped hi dflt v) = true.
Proof.
  destruct (Number_or dflt v) as [| |x|] eqn:E; try discriminate.
  intros Hx. destruct (clamped_cases hi dflt v x E) as [H|[H|H]]; rewrite H;
    [exact Hx | apply is_integer_of_Z | apply is_integer_of_Z].
Qed.

(** What does not convert to a number is not clamped. *)
Lemma clamped_NaN (hi dflt : Z) (v : qvalue) :
  Number_or dflt v = NaN -> clamped hi dflt v = NaN.
Proof. intros E. unfold clamped. rewrite E. reflexivity. Qed.

Lemma jsnum_eqb_eq (a b : jsnum) : jsnum_eqb a b = true -> a = b.
Proof.
  destruct a as [| |[pn pd]|], b as [| |[qn qd]|]; simpl; try discriminate;
    try reflexivity.
  intros H. apply andb_true_iff in H as [Hn Hd].
  apply Z.eqb_eq in Hn. apply Pos.eqb_eq in Hd. now subst.
Qed.

(** Every whole number from 1 to 600, written in decimal digits as the
    [max] parameter, is the effective cap. *)
Lemma max_parameter_denotes (q : Query) (N : nat) :
  1 <= N <= 600 ->
  max q = QString (String_of_Z (Z.of_nat N)) ->
  effective_max q = of_nat N.
Proof.
  intros HN E. unfold effective_max. rewrite E.
  assert (H : forallb (fun n => jsnum_eqb
                         (clamped 600 300 (QString (String_of_Z (Z.of_nat n))))
                         (of_nat n))
                (seq 1 600) = true) by (vm_compute; reflexivity).
  rewrite forallb_forall in H. apply jsnum_eqb_eq, H, in_seq. lia.
Qed.

(** Every whole number from 1 to 365, written in decimal digits as the
    [sinceDays] parameter, is the effective number of days. *)
Lemma sinceDays_parameter_denotes (q : Query) (N : nat) :
  1 <= N <= 365 ->
  sinceDays q = QString (String_of_Z (Z.of_nat N)) ->
  effective_sinceDays q = of_nat N.
Proof.
  intros HN E. unfold effective_sinceDays. rewrite E.
  assert (H : forallb (fun n => jsnum_eqb
                         (clamped 365 90 (QString (String_of_Z (Z.of_nat n))))
                         (of_nat n))
                (seq 1 365) = true) by (vm_compute; reflexivity).
  rewrite forallb_forall in H. apply jsnum_eqb_eq, H, in_seq. lia.
Qed.

End Clamp.

(** C7 as stated fails: [max=2.5] gives the effective value 2.5, which
    lies between 1 and 600 but is not an integer. *)
Lemma clamp_keeps_fractions :
  let q := Sample.query QAbsent (QString "2.5") in
  in_range 1 600 (effective_max q) = true
  /\ is_integer (effective_max q) = false
  /\ ~ (is_integer (effective_max q) = true
        /\ in_range 1 600 (effective_max q) = true).
Proof.
  intros q. split; [reflexivity|]. split; [reflexivity|].
  intros [H _]. vm_compute in H. discriminate.
Qed.

(** C7 (amended). An absent [sinceDays] is 90 and an absent [max] is 300;
    whenever the parameter converts to a number, the effective
    [sinceDays] lies in [1, 365] and the effective [max] in [1, 600]; and
    it is an integer whenever the converted value is one. *)
Theorem clamp_of_numbers (q : Query) :
  (sinceDays q = QAbsent -> effective_sinceDays q = of_Z 90)
  /\ (max q = QAbsent -> effective_max q = of_Z 300)
  /\ (Number_or 90 (sinceDays q) <> NaN ->
      in_range 1 365 (effective_sinceDays q) = true)
  /\ (Number_or 300 (max q) <> NaN ->
      in_range 1 600 (effective_max q) = true)
  /\ (is_integer (Number_or 90 (sinceDays q)) = true ->
      is_integer (effective_sinceDays q) = true)
  /\ (is_integer (Number_or 300 (max q)) = true ->
      is_integer (effective_max q) = true).
Proof.
  unfold effective_sinceDays, effective_max.
  repeat split.
  - intros E. rewrite E. reflexivity.
  - intros E. rewrite E. reflexivity.
  - apply clamped_range. lia.
  - apply clamped_range. lia.
  - apply clamped_integer.
  - apply clamped_integer.
Qed.

(** [sinceDays=30] stays 30, [max=1000] comes down to 600. *)
Lemma clamp_of_numbers_witness :
  let q := {| sport := QAbsent; sinceDays := QString "30"; max := QString "1000" |} in
  in_range 1 365 (effective_sinceDays q) = true
  /\ in_range 1 600 (effective_max q) = true
  /\ is_integer (effective_sinceDays q) = true
  /\ is_integer (effective_max q) = true.
Proof.
  intros q.
  destruct (clamp_of_numbers q) as (_ & _ & H1 & H2 & H3 & H4).
  split; [apply H1; vm_compute; discriminate|].
  split; [apply H2; vm_compute; discriminate|].
  split; [apply H3; reflexivity | apply H4; reflexivity].
Defined.

(** ** Credentials *)

(** C8. When the client id, the client secret or the refresh token is
    missing or empty, obtaining the token throws the configuration error
    without a request, and the handler issues no request at all: neither
    the token exchange nor an activity page. *)
Theorem missing_credentials_no_network (w : World) :
  missing (STRAVA_CLIENT_ID w) = true
  \/ missing (STRAVA_CLIENT_SECRET w) = true
  \/ missing (STRAVA_REFRESH_TOKEN w) = true ->
  getAccessToken w = ([], Throw "Missing STRAVA env vars")
  /\ forall fuel q,
       handler fuel w q
       = ([], Some {| status := 500; headers := [];
                      body := error_ics (Date_now w) "Missing STRAVA env vars" |}).
Proof.
  intros H.
  assert (Hc : missing (STRAVA_CLIENT_ID w) || missing (STRAVA_CLIENT_SECRET w)
               || missing (STRAVA_REFRESH_TOKEN w) = true).
  { destruct H as [H|[H|H]]; rewrite H, ?orb_true_r; reflexivity. }
  pose proof (getAccessToken_missing w Hc) as Eg.
  split; [exact Eg|]. intros fuel q.
  apply handler_throws. unfold fetch_activities. rewrite Eg. reflexivity.
Qed.

(** No refresh token in the environment. *)
Lemma missing_credentials_no_network_witness :
  let w := Sample.world_of None (Success "tok") (Sample.pages_of Sample.two_pages) in
  getAccessToken w = ([], Throw "Missing STRAVA env vars")
  /\ fst (handler 5 w (Sample.query QAbsent QAbsent)) = [].
Proof.
  intros w.
  assert (Hm : missing (STRAVA_CLIENT_ID w) = true
               \/ missing (STRAVA_CLIENT_SECRET w) = true
               \/ missing (STRAVA_REFRESH_TOKEN w) = true)
    by (right; right; reflexivity).
  destruct (missing_credentials_no_network w Hm) as [Hg Hh].
  split; [exact Hg|]. now rewrite Hh.
Defined.

(** ** The error calendar *)

Section ErrorDocument.

Lemma error_ics_join (now : Z) (msg : string) :
  error_ics now msg = Str.join CRLF (error_lines now msg).
Proof.
  unfold error_ics, error_lines. cbn [Str.join].
  rewrite !append_assoc. reflexivity.
Qed.

Lemma error_lines_no_lf (now : Z) (msg : string) :
  Forall (fun l => Str.no_lf l = true) (error_lines now msg).
Proof.
  unfold error_lines.
  repeat apply Forall_cons; try apply Forall_nil;
    rewrite ?no_lf_app, ?no_lf_icsEscape, ?no_lf_formatAsUTC; reflexivity.
Qed.

Lemma lines_error_ics (now : Z) (msg : string) :
  Str.lines (error_ics now msg) = error_lines now msg.
Proof.
  rewrite error_ics_join.
  apply lines_join_single; [discriminate | apply error_lines_no_lf].
Qed.

Lemma error_ics_well_formed (now : Z) (msg : string) :
  Ics.well_formed (error_ics now msg) = true.
Proof.
  unfold Ics.well_formed. rewrite lines_error_ics. unfold error_lines.
  generalize (icsEscape (error_text msg)), (formatAsUTC (Some now)),
    (formatAsUTC (DateModel.TimeClip (now + 600000))).
  intros d s e. reflexivity.
Qed.

Lemma error_ics_one_event (now : Z) (msg : string) :
  Ics.event_blocks (error_ics now msg) = 1.
Proof.
  unfold Ics.event_blocks. rewrite lines_error_ics. unfold error_lines.
  generalize (icsEscape (error_text msg)), (formatAsUTC (Some now)),
    (formatAsUTC (DateModel.TimeClip (now + 600000))).
  intros d s e. reflexivity.
Qed.

Lemma truthy_app_cons (a b : string) (c : ascii) :
  Str.truthy (a ++ String c b) = true.
Proof. destruct a; reflexivity. Qed.

Lemma error_text_http (st : Z) (text b : string) :
  error_text (http_message st text b) = http_message st text b.
Proof.
  unfold error_text, http_message.
  change (" " ++ text ++ ": " ++ b) with (String " " (text ++ ": " ++ b)).
  now rewrite truthy_app_cons.
Qed.

(** Every internal failure throws a message that is not empty. *)
Lemma internal_failure_text (w : World) (q : Query) (msg : string) :
  internal_failure w q msg -> error_text msg = msg.
Proof.
  intros [H | st text b _ _ _ _ | tok bs st text b _ _ _ _];
    [reflexivity | apply error_text_http | apply error_text_http].
Qed.

(** Every internal failure makes the [try] block throw its message. *)
Lemma internal_failure_throws (w : World) (q : Query) (msg : string) :
  internal_failure w q msg ->
  exists fuel0, forall fuel, fuel0 <= fuel ->
    exists t, fetch_activities fuel w q = (t, Throw msg).
Proof.
  intros [H | st text b Hi Hs Hr Ht | tok bs st text b Ha Hs Hlt E].
  - exists 0. intros fuel _. exists [].
    unfold fetch_activities. now rewrite (getAccessToken_missing w H).
  - exists 0. intros fuel _.
    destruct (getAccessToken_present w Hi Hs Hr) as (i & s & r & Eg).
    exists [TokenExchange i s r].
    unfold fetch_activities. rewrite Eg, Ht. reflexivity.
  - exists (Datatypes.S (List.length bs)). intros fuel Hf.
    destruct (fetch_activities_authorized fuel w q tok Ha) as (i & s & r & Ef).
    cbv zeta in Ef. rewrite Ef.
    rewrite (loop_fails w _ tok _ _ bs st text b fuel 1 [] Hs Hlt E) by lia.
    eexists. reflexivity.
Qed.

(** No line of the error calendar is a UID or a DTSTAMP line, whatever the
    message. *)
Lemma error_lines_no_uid (now : Z) (msg l : string) :
  In l (error_lines now msg) ->
  Rfc5545.has_prefix "UID:" l = false /\ Rfc5545.has_prefix "DTSTAMP:" l = false.
Proof.
  unfold error_lines. simpl.
  intros [H|[H|[H|[H|[H|[H|[H|[H|[H|[H|[]]]]]]]]]]]; subst l; split; reflexivity.
Qed.

(** The event of the error calendar is closed without a UID and without a
    DTSTAMP, whatever the message. *)
Lemma error_ics_incomplete (now : Z) (msg : string) :
  Rfc5545.events_complete false false false (Str.lines (error_ics now msg))
  = false.
Proof.
  rewrite lines_error_ics. unfold error_lines.
  generalize (icsEscape (error_text msg)), (formatAsUTC (Some now)),
    (formatAsUTC (DateModel.TimeClip (now + 600000))).
  intros d s e. reflexivity.
Qed.

Lemma error_ics_not_conforming (now : Z) (msg : string) :
  Rfc5545.conforming (error_ics now msg) = false.
Proof.
  unfold Rfc5545.conforming. rewrite error_ics_incomplete.
  apply andb_false_r.
Qed.

(** The event that [buildEvent] writes for an activity does hold both. *)
Lemma buildEvent_complete (now : Z) (a : StravaActivity) :
  Rfc5545.events_complete false false false (Str.lines (buildEvent now a))
  = true.
Proof.
  rewrite lines_buildEvent. unfold event_lines.
  generalize (String_of_Z (id a) ++ "@strava-ics"), (formatAsUTC (Some now)),
    (formatAsUTC (event_start a)), (formatAsUTC (event_end a)),
    (icsEscape ("Strava: " ++ template (or_else (name a) (sport_type a)))),
    (icsEscape (Str.join NL (descParts a))), (event_url a).
  intros u n s e t d r.
  destruct (Str.truthy (event_location a)); reflexivity.
Qed.

Lemma all_chars_app (p : ascii -> bool) (a b : string) :
  Rfc5545.all_chars p (a ++ b)
  = Rfc5545.all_chars p a && Rfc5545.all_chars p b.
Proof.
  induction a as [|c a IH]; [reflexivity|].
  simpl. rewrite IH. apply andb_assoc.
Qed.

(** [icsEscape] lets a carriage return through. *)
Lemma icsEscape_keeps_cr (s : string) :
  In CR (list_ascii_of_string s) ->
  Rfc5545.all_chars Rfc5545.value_char (icsEscape s) = false.
Proof.
  rewrite icsEscape_single_pass.
  induction s as [|c s IH]; [intros []|].
  intros [E | H]; cbn [escape_chars]; rewrite all_chars_app.
  - rewrite E. reflexivity.
  - rewrite (IH H). apply andb_false_r.
Qed.

End ErrorDocument.

(** On every internal failure (a missing credential, a refused token
    exchange, a refused page) the handler answers with status 500 and the
    error calendar: a text with the block structure of a calendar, never
    empty, with exactly one event block, whose DESCRIPTION line carries
    the escaped message of the failure.  What the loop had accumulated
    before a refused page is not in it. *)
Lemma failure_gives_error_calendar (w : World) (q : Query) (msg : string) :
  internal_failure w q msg ->
  exists fuel0, forall fuel, fuel0 <= fuel ->
    exists t resp,
      handler fuel w q = (t, Some resp)
      /\ status resp = 500%Z
      /\ body resp = error_ics (Date_now w) msg
      /\ body resp <> EmptyString
      /\ Ics.well_formed (body resp) = true
      /\ Ics.event_blocks (body resp) = 1
      /\ In ("DESCRIPTION:" ++ icsEscape msg) (Str.lines (body resp))
      /\ Forall (fun l => Str.no_lf l = true) (Str.lines (body resp)).
Proof.
  intros Hfail.
  destruct (internal_failure_throws w q msg Hfail) as (fuel0 & Hthrow).
  exists fuel0. intros fuel Hf. destruct (Hthrow fuel Hf) as (t & Et).
  exists t. eexists. split; [apply handler_throws; exact Et|].
  cbn [status body].
  split; [reflexivity|]. split; [reflexivity|]. split; [discriminate|].
  split; [apply error_ics_well_formed|]. split; [apply error_ics_one_event|].
  rewrite lines_error_ics. split; [|apply error_lines_no_lf].
  unfold error_lines.
  rewrite (internal_failure_text w q msg Hfail). simpl. tauto.
Qed.

(** The second page is refused after a first page with a run: the answer
    is the error calendar with its single event, not the run. *)
Lemma failure_gives_error_calendar_witness :
  let w := Sample.world_of (Some "refresh") (Success "tok") Sample.second_page_refused in
  let q := Sample.query QAbsent QAbsent in
  exists fuel0, forall fuel, fuel0 <= fuel ->
    exists t resp,
      handler fuel w q = (t, Some resp)
      /\ status resp = 500%Z
      /\ body resp
         = error_ics (Date_now w) (http_message 429 "Too Many Requests" "rate, limit")
      /\ body resp <> EmptyString
      /\ Ics.well_formed (body resp) = true
      /\ Ics.event_blocks (body resp) = 1
      /\ In ("DESCRIPTION:"
             ++ icsEscape (http_message 429 "Too Many Requests" "rate, limit"))
            (Str.lines (body resp))
      /\ Forall (fun l => Str.no_lf l = true) (Str.lines (body resp)).
Proof.
  intros w q.
  apply (failure_gives_error_calendar w q).
  apply (page_failure w q "tok" [[Sample.run1; Sample.ride1]]).
  - repeat split.
  - simpl. repeat split. discriminate.
  - reflexivity.
  - reflexivity.
Defined.

(** C9. On every internal failure (a missing credential, a refused token
    exchange, a refused page) the handler answers with status 500 and the
    error calendar, with exactly one event block whose DESCRIPTION line
    carries the escaped message; what the loop had accumulated is not in
    it.  But that text is not a valid calendar: its event has no UID and
    no DTSTAMP line, which [buildEvent] writes for every activity
    ([buildEvent_complete]), so a parser that holds to RFC 5545 refuses
    it, whatever the message. *)
Theorem error_calendar_lacks_required_properties
  (w : World) (q : Query) (msg : string) :
  internal_failure w q msg ->
  exists fuel0, forall fuel, fuel0 <= fuel ->
    exists t resp,
      handler fuel w q = (t, Some resp)
      /\ status resp = 500%Z
      /\ body resp = error_ics (Date_now w) msg
      /\ Ics.event_blocks (body resp) = 1
      /\ In ("DESCRIPTION:" ++ icsEscape msg) (Str.lines (body resp))
      /\ (forall l, In l (Str.lines (body resp)) ->
                    Rfc5545.has_prefix "UID:" l = false
                    /\ Rfc5545.has_prefix "DTSTAMP:" l = false)
      /\ Rfc5545.events_complete false false false (Str.lines (body resp))
         = false
      /\ Rfc5545.conforming (body resp) = false.
Proof.
  intros Hfail.
  destruct (internal_failure_throws w q msg Hfail) as (fuel0 & Hthrow).
  exists fuel0. intros fuel Hf. destruct (Hthrow fuel Hf) as (t & Et).
  exists t. eexists. split; [apply handler_throws; exact Et|].
  cbn [status body].
  split; [reflexivity|]. split; [reflexivity|].
  split; [apply error_ics_one_event|].
  split.
  { rewrite lines_error_ics. unfold error_lines.
    rewrite (internal_failure_text w q msg Hfail). simpl. tauto. }
  split.
  { intros l. rewrite lines_error_ics. apply error_lines_no_uid. }
  split; [apply error_ics_incomplete | apply error_ics_not_conforming].
Qed.

(** The token endpoint answers 502 with a page of HTML: the handler sends
    the error calendar, whose event has no UID and no DTSTAMP, and whose
    DESCRIPTION line keeps the carriage return of the page. *)
Lemma error_calendar_lacks_required_properties_witness :
  let w := Sample.gateway_down in
  let q := Sample.query QAbsent QAbsent in
  let line := String.append "DESCRIPTION:502 Bad Gateway: <html>"
                (String CR "\n<h1>502</h1>") in
  exists fuel0, forall fuel, fuel0 <= fuel ->
    exists t resp,
      handler fuel w q = (t, Some resp)
      /\ status resp = 500%Z
      /\ Ics.event_blocks (body resp) = 1
      /\ In line (Str.lines (body resp))
      /\ Rfc5545.all_chars Rfc5545.value_char line = false
      /\ Rfc5545.events_complete false false false (Str.lines (body resp))
         = false
      /\ Rfc5545.conforming (body resp) = false.
Proof.
  intros w q line.
  destruct (error_calendar_lacks_required_properties w q
              (http_message 502 "Bad Gateway" ("<html>" ++ CRLF ++ "<h1>502</h1>")))
    as (fuel0 & H).
  { apply (token_failure w q 502 "Bad Gateway"); reflexivity. }
  exists fuel0. intros fuel Hf.
  destruct (H fuel Hf) as (t & resp & Eh & Hst & _ & Hone & Hd & _ & Hinc & Hnc).
  exists t, resp. repeat split; assumption.
Defined.

(** ** The classification of an activity *)

(** C10 as stated fails on an allow-list with an empty entry:
    [sport=run,] gives the allow-list of ["run"] and [""], which is not
    empty, and an activity without [sport_type] and [type], whose
    classification is the empty string, passes it and is kept. *)
Lemma empty_entry_matches_unclassified :
  let q := Sample.query (QString "run,") QAbsent in
  allowedSports_of (sport q) = Some ["run"; ""]
  /\ classification Sample.unclassified = ""
  /\ passes (allowedSports_of (sport q)) Sample.unclassified = true
  /\ snd (fetch_activities 2 (Sample.world [[Sample.unclassified]]) q)
     = Return [Sample.unclassified].
Proof.
  intros q. repeat split; vm_compute; reflexivity.
Qed.

(** C10 (amended). For an activity whose [sport_type] is missing or
    empty, the classification that the filter compares is the lower-cased
    [type], or the empty string when [type] is missing or empty too; the
    first line of the description shows [type]; and the empty
    classification passes an allow-list exactly when the list has an
    empty entry. *)
Theorem classification_falls_back (a : StravaActivity) (l : list string) :
  truthy (sport_type a) = false ->
  classification a = Str.toLowerCase (template (or_else (type a) (Text "")))
  /\ passes (Some l) a
     = Str.includes l (Str.toLowerCase (template (or_else (type a) (Text ""))))
  /\ (exists rest, descParts a = ("Sport: " ++ template (type a)) :: rest)
  /\ (truthy (type a) = false ->
      classification a = "" /\ (passes (Some l) a = true <-> In "" l)).
Proof.
  intros Hs.
  assert (Hc : classification a
               = Str.toLowerCase (template (or_else (type a) (Text "")))).
  { unfold classification. unfold or_else at 2. rewrite Hs. reflexivity. }
  split; [exact Hc|]. split; [|split].
  - unfold passes. now rewrite Hc.
  - unfold descParts. unfold or_else. rewrite Hs. eexists. reflexivity.
  - intros Ht.
    assert (He : classification a = "").
    { rewrite Hc. unfold or_else. rewrite Ht. reflexivity. }
    split; [exact He|].
    unfold passes, Str.includes. rewrite He. rewrite existsb_exists. split.
    + intros (x & Hin & Hx). apply String.eqb_eq in Hx. now subst x.
    + intros Hin. exists "". split; [exact Hin | reflexivity].
Qed.

(** A hike recorded with the deprecated field only is classified as
    ["hike"], passes an allow-list of hikes and shows [Sport: Hike]. *)
Lemma classification_falls_back_witness :
  classification Sample.old_hike = "hike"
  /\ passes (Some ["hike"]) Sample.old_hike = true
  /\ exists rest, descParts Sample.old_hike = "Sport: Hike" :: rest.
Proof.
  destruct (classification_falls_back Sample.old_hike ["hike"] eq_refl)
    as (Hc & Hp & Hd & _).
  split; [exact Hc|]. split; [rewrite Hp; reflexivity | exact Hd].
Defined.

(* ================================================================== *)
(** * Further properties of the code *)

(** ** Ranges checked one value at a time *)

Section Ranges.

Lemma In_Zrange (n : nat) :
  forall lo z, (lo <= z < lo + Z.of_nat n)%Z -> In z (Zrange lo n).
Proof.
  induction n as [|n IH]; intros lo z H; [lia|].
  cbn [Zrange]. destruct (Z.eq_dec z lo) as [->|Hne]; [now left|].
  right. apply IH. lia.
Qed.

Lemma Zrange_forall (P : Z -> bool) (lo : Z) (n : nat) :
  forallb P (Zrange lo n) = true ->
  forall z, (lo <= z < lo + Z.of_nat n)%Z -> P z = true.
Proof.
  intros H z Hz. rewrite forallb_forall in H. apply H, In_Zrange, Hz.
Qed.

(** Two characters for every number below 100. *)
Lemma length_pad (z : Z) : (0 <= z < 100)%Z -> String.length (pad z) = 2.
Proof.
  intros Hz.
  apply Nat.eqb_eq.
  apply (Zrange_forall (fun z => Nat.eqb (String.length (pad z)) 2) 0 100);
    [vm_compute; reflexivity | lia].
Qed.

End Ranges.

(** ** Durations and distances *)

(** X1. For a duration that is not negative, [secondsToHMS] writes hours,
    minutes and seconds separated by colons: the hours are the whole
    quotient by 3600 and never wrap at 24, minutes and seconds are below 60
    and take exactly two characters, and the three fields add up to the
    duration. *)
Theorem secondsToHMS_fields (s : Z) :
  (0 <= s)%Z ->
  exists h m sec : Z,
    secondsToHMS s = pad h ++ ":" ++ pad m ++ ":" ++ pad sec
    /\ h = (s / 3600)%Z
    /\ (0 <= m < 60)%Z /\ (0 <= sec < 60)%Z
    /\ (h * 3600 + m * 60 + sec = s)%Z
    /\ String.length (pad m) = 2 /\ String.length (pad sec) = 2.
Proof.
  intros Hs.
  exists (s / 3600)%Z, (Z.rem s 3600 / 60)%Z, (Z.rem s 60).
  rewrite !Z.rem_mod_nonneg by lia.
  assert (Hm : (0 <= s mod 3600 / 60 < 60)%Z)
    by (Z.to_euclidean_division_equations; lia).
  assert (Hsec : (0 <= s mod 60 < 60)%Z) by (apply Z.mod_pos_bound; lia).
  split.
  { unfold secondsToHMS. rewrite !Z.rem_mod_nonneg by lia. reflexivity. }
  split; [reflexivity|]. split; [exact Hm|]. split; [exact Hsec|].
  split; [Z.to_euclidean_division_equations; lia|].
  split; apply length_pad; lia.
Qed.

(** A day, an hour, a minute and a second. *)
Lemma secondsToHMS_fields_witness :
  exists h m sec : Z,
    secondsToHMS 90061 = pad h ++ ":" ++ pad m ++ ":" ++ pad sec
    /\ h = (90061 / 3600)%Z
    /\ (0 <= m < 60)%Z /\ (0 <= sec < 60)%Z
    /\ (h * 3600 + m * 60 + sec = 90061)%Z
    /\ String.length (pad m) = 2 /\ String.length (pad sec) = 2.
Proof. apply secondsToHMS_fields. lia. Defined.

(** ** Rounding of the quotient *)

Section Rounding.

Lemma pow2_pos (e : Z) : Qlt 0 (Binary64.pow2 e).
Proof.
  unfold Binary64.pow2. destruct (Z.leb_spec 0 e) as [H|H].
  - change 0%Q with (inject_Z 0). rewrite <- Zlt_Qlt.
    apply Z.pow_pos_nonneg; lia.
  - reflexivity.
Qed.

Lemma pow2_small (e : Z) :
  (e <= -22)%Z -> Qle (Binary64.pow2 e) (Qmake 1 4194304).
Proof.
  intros H. unfold Binary64.pow2.
  destruct (Z.leb_spec 0 e) as [H0|H0]; [lia|].
  unfold Qle. cbn [Qnum Qden].
  assert (Hp : (2 ^ 22 <= 2 ^ (- e))%Z) by (apply Z.pow_le_mono_r; lia).
  rewrite Z2Pos.id by lia. change (2 ^ 22)%Z with 4194304%Z in Hp. lia.
Qed.

(** The nearest whole number is within a half. *)
Lemma nearest_even_bounds (y : Q) :
  Qle (Qminus (inject_Z (Binary64.nearest_even y)) (Qmake 1 2)) y
  /\ Qle y (Qplus (inject_Z (Binary64.nearest_even y)) (Qmake 1 2)).
Proof.
  unfold Binary64.nearest_even.
  pose proof (Qfloor_le y) as Hl. pose proof (Qlt_floor y) as Hu.
  rewrite inject_Z_plus in Hu. change (inject_Z 1) with 1%Q in Hu.
  destruct (Qcompare (Qminus y (inject_Z (Qfloor y))) (Qmake 1 2)) eqn:E.
  - apply Qeq_alt in E.
    destruct (Z.even (Qfloor y));
      [|rewrite inject_Z_plus; change (inject_Z 1) with 1%Q]; split; lra.
  - apply Qlt_alt in E. split; lra.
  - apply Qgt_alt in E. rewrite inject_Z_plus. change (inject_Z 1) with 1%Q.
    split; lra.
Qed.

Lemma nearest_even_nonneg (y : Q) :
  Qle 0 y -> (0 <= Binary64.nearest_even y)%Z.
Proof.
  intros H. unfold Binary64.nearest_even.
  assert (Hf : (0 <= Qfloor y)%Z).
  { change 0%Z with (Qfloor (inject_Z 0)). now apply Qfloor_resp_le. }
  destruct (Qcompare _ _); [destruct (Z.even _)| |]; lia.
Qed.

(** Up to 10^9 the last place kept is 2^-22 or finer. *)
Lemma ulp_exponent_small (x : Q) :
  Qlt 0 x -> Qle x (inject_Z 1000000000) ->
  (Binary64.ulp_exponent x <= -22)%Z.
Proof.
  intros H0 H1. unfold Binary64.ulp_exponent, Binary64.floor_log2.
  destruct x as [p q]. cbn [Qnum Qden].
  unfold Qlt in H0. unfold Qle in H1. cbn in H0, H1.
  assert (Hl : (Z.log2 p <= Z.log2 (1000000000 * Zpos q))%Z)
    by (apply Z.log2_le_mono; lia).
  pose proof (Z.log2_mul_above 1000000000 (Zpos q)) as Hm.
  change (Z.log2 1000000000) with 29%Z in Hm.
  destruct (Qle_bool _ _); lia.
Qed.

(** Rounding moves a positive number by at most half of its last place. *)
Lemma round_positive_error (x : Q) :
  Qlt 0 x ->
  Qle (Qminus x (Qmult (Qmake 1 2) (Binary64.pow2 (Binary64.ulp_exponent x))))
      (Binary64.round_positive x)
  /\ Qle (Binary64.round_positive x)
         (Qplus x (Qmult (Qmake 1 2) (Binary64.pow2 (Binary64.ulp_exponent x))))
  /\ Qle 0 (Binary64.round_positive x).
Proof.
  intros Hx. unfold Binary64.round_positive.
  set (p := Binary64.pow2 (Binary64.ulp_exponent x)).
  assert (Hp : Qlt 0 p) by apply pow2_pos.
  set (y := Qdiv x p).
  assert (Hy : Qeq x (Qmult y p)).
  { unfold y. field. intros E. rewrite E in Hp. now apply Qlt_irrefl in Hp. }
  assert (Hy0 : Qle 0 y).
  { unfold y, Qdiv. apply Qmult_le_0_compat; [lra|].
    apply Qlt_le_weak, Qinv_lt_0_compat, Hp. }
  destruct (nearest_even_bounds y) as [Hl Hu].
  pose proof (nearest_even_nonneg y Hy0) as Hn.
  set (n := Binary64.nearest_even y) in *.
  rewrite Qred_correct.
  assert (Hn' : Qle 0 (inject_Z n)).
  { change 0%Q with (inject_Z 0). now rewrite <- Zle_Qle. }
  assert (A : Qle (Qmult (Qminus (inject_Z n) (Qmake 1 2)) p) (Qmult y p))
    by (apply Qmult_le_compat_r; lra).
  assert (B : Qle (Qmult y p) (Qmult (Qplus (inject_Z n) (Qmake 1 2)) p))
    by (apply Qmult_le_compat_r; lra).
  rewrite <- Hy in A, B.
  split; [lra|]. split; [lra|].
  apply Qmult_le_0_compat; lra.
Qed.

(** Up to 10^9 the binary64 number is within 2^-23. *)
Lemma round_error (x : Q) :
  Qle 0 x -> Qle x (inject_Z 1000000000) ->
  Qle 0 (Binary64.round x)
  /\ Qle (Qminus x (Qmake 1 8388608)) (Binary64.round x)
  /\ Qle (Binary64.round x) (Qplus x (Qmake 1 8388608)).
Proof.
  intros H0 H1. unfold Binary64.round.
  destruct (Qcompare x 0) eqn:E.
  - apply Qeq_alt in E. split; [lra|]. split; lra.
  - apply Qlt_alt in E. lra.
  - apply Qgt_alt in E.
    destruct (round_positive_error x E) as (Hl & Hu & Hn).
    pose proof (pow2_small _ (ulp_exponent_small x E H1)) as Hp.
    split; [exact Hn|]. split; lra.
Qed.

End Rounding.

(** X2. For a distance from 0 to 10^12 metres, [metersToKm] writes a whole
    number [n] of hundredths of a kilometre: its whole part, a point and
    exactly two digits.  [n] is the whole number nearest (the larger on a
    tie) to a hundred times the binary64 quotient of the distance by 1000,
    and that quotient is within 2^-23 of the exact one; so what is written
    is less than a hundredth of a kilometre away from the distance.  It
    need not be the nearest hundredth of the distance itself: 1005 metres
    are written 1.00 ([metersToKm_binary_quotient]). *)
Theorem metersToKm_hundredths (m : Q) :
  Qle 0 m -> Qle m (inject_Z 1000000000000) ->
  exists n : Z,
    (0 <= n)%Z
    /\ metersToKm m = String_of_Z (n / 100) ++ "." ++ pad (n mod 100)
    /\ String.length (pad (n mod 100)) = 2
    /\ Qle (Qminus (inject_Z n) (Qmake 1 2))
           (Qmult (Binary64.round (Qdiv m (inject_Z 1000))) (inject_Z 100))
    /\ Qlt (Qmult (Binary64.round (Qdiv m (inject_Z 1000))) (inject_Z 100))
           (Qplus (inject_Z n) (Qmake 1 2))
    /\ Qle (Qminus (Qdiv m (inject_Z 1000)) (Qmake 1 8388608))
           (Binary64.round (Qdiv m (inject_Z 1000)))
    /\ Qle (Binary64.round (Qdiv m (inject_Z 1000)))
           (Qplus (Qdiv m (inject_Z 1000)) (Qmake 1 8388608))
    /\ Qlt (Qminus (inject_Z n) 1) (Qdiv m (inject_Z 10))
    /\ Qlt (Qdiv m (inject_Z 10)) (Qplus (inject_Z n) 1).
Proof.
  intros Hm Hmax.
  set (x := Qdiv m (inject_Z 1000)).
  assert (Hx : Qeq m (Qmult x (inject_Z 1000))) by (unfold x; field).
  assert (Hten : Qeq (Qdiv m (inject_Z 10)) (Qmult x (inject_Z 100)))
    by (unfold x; field).
  assert (Hx0 : Qle 0 x) by (change (inject_Z 1000) with 1000%Q in Hx; lra).
  assert (Hx1 : Qle x (inject_Z 1000000000)).
  { change (inject_Z 1000) with 1000%Q in Hx.
    change (inject_Z 1000000000000) with 1000000000000%Q in Hmax.
    change (inject_Z 1000000000) with 1000000000%Q. lra. }
  destruct (round_error x Hx0 Hx1) as (Hd0 & Hdl & Hdu).
  set (d := Binary64.round x) in *.
  set (y := Qplus (Qmult d (inject_Z 100)) (Qmake 1 2)).
  assert (Hy : Qle 0 y).
  { unfold y. change (inject_Z 100) with 100%Q. lra. }
  assert (Hn : (0 <= Qfloor y)%Z).
  { change 0%Z with (Qfloor (inject_Z 0)). now apply Qfloor_resp_le. }
  pose proof (Qfloor_le y) as Hfl. pose proof (Qlt_floor y) as Hfu.
  rewrite inject_Z_plus in Hfu. change (inject_Z 1) with 1%Q in Hfu.
  exists (Qfloor y).
  split; [exact Hn|]. split.
  { unfold metersToKm, toFixed2. fold x. fold d.
    apply Qle_bool_iff in Hd0. rewrite Hd0. reflexivity. }
  split; [apply length_pad, Z.mod_pos_bound; lia|].
  rewrite Hten.
  set (n := Qfloor y) in *. clearbody n.
  unfold y in Hfl, Hfu. change (inject_Z 100) with 100%Q in *.
  repeat split; lra.
Qed.

(** 1005 metres: 100 hundredths are written, within one of the 100.5 that
    the distance makes. *)
Lemma metersToKm_hundredths_witness :
  exists n : Z,
    (0 <= n)%Z
    /\ metersToKm (inject_Z 1005)
       = String_of_Z (n / 100) ++ "." ++ pad (n mod 100)
    /\ String.length (pad (n mod 100)) = 2
    /\ Qle (Qminus (inject_Z n) (Qmake 1 2))
           (Qmult (Binary64.round (Qdiv (inject_Z 1005) (inject_Z 1000)))
                  (inject_Z 100))
    /\ Qlt (Qmult (Binary64.round (Qdiv (inject_Z 1005) (inject_Z 1000)))
                  (inject_Z 100))
           (Qplus (inject_Z n) (Qmake 1 2))
    /\ Qle (Qminus (Qdiv (inject_Z 1005) (inject_Z 1000)) (Qmake 1 8388608))
           (Binary64.round (Qdiv (inject_Z 1005) (inject_Z 1000)))
    /\ Qle (Binary64.round (Qdiv (inject_Z 1005) (inject_Z 1000)))
           (Qplus (Qdiv (inject_Z 1005) (inject_Z 1000)) (Qmake 1 8388608))
    /\ Qlt (Qminus (inject_Z n) 1) (Qdiv (inject_Z 1005) (inject_Z 10))
    /\ Qlt (Qdiv (inject_Z 1005) (inject_Z 10)) (Qplus (inject_Z n) 1).
Proof. apply metersToKm_hundredths; discriminate. Defined.

(** ** What escaping adds *)

Section EscapeFacts.

Lemma length_append (a b : string) :
  String.length (a ++ b) = String.length a + String.length b.
Proof. induction a as [|c a IH]; simpl; [reflexivity | now rewrite IH]. Qed.

Lemma length_escape_char (c : ascii) :
  String.length (escape_char c) = (if is_special c then 2 else 1).
Proof.
  unfold escape_char, is_special.
  destruct (Ascii.eqb c backslash); [reflexivity|].
  destruct (Ascii.eqb c LF); [reflexivity|].
  destruct (Ascii.eqb c comma); [reflexivity|].
  destruct (Ascii.eqb c semicolon); reflexivity.
Qed.

Lemma escape_char_plain (c : ascii) :
  is_special c = false -> escape_char c = String c EmptyString.
Proof.
  unfold escape_char, is_special. intros H.
  apply orb_false_iff in H as [H Hs]. apply orb_false_iff in H as [H Hc].
  apply orb_false_iff in H as [Hb Hl]. now rewrite Hb, Hl, Hc, Hs.
Qed.

(** Decoding the one-pass form gives the text back. *)
Lemma escape_chars_decoded (s : string) :
  unescape_from false (escape_chars s) = s.
Proof.
  induction s as [|x s IH]; [reflexivity|].
  simpl escape_chars. rewrite unescape_escape_char. now rewrite IH.
Qed.

Lemma escape_chars_plain (s : string) :
  count_special s = 0 -> escape_chars s = s.
Proof.
  induction s as [|c s IH]; [reflexivity|]. simpl.
  destruct (is_special c) eqn:Ec; [discriminate|]. simpl. intros H0.
  rewrite (escape_char_plain c Ec), (IH H0). reflexivity.
Qed.

End EscapeFacts.

(** X3. [icsEscape] only inserts backslashes: the result is longer than
    the text by exactly the number of backslashes, line feeds, commas and
    semicolons in it, it is the text itself exactly when there is none,
    and it never holds a line feed. *)
Theorem icsEscape_growth (s : string) :
  String.length (icsEscape s) = String.length s + count_special s
  /\ (icsEscape s = s <-> count_special s = 0)
  /\ Str.no_lf (icsEscape s) = true.
Proof.
  assert (Hlen : String.length (icsEscape s) = String.length s + count_special s).
  { rewrite icsEscape_single_pass.
    induction s as [|c s IH]; [reflexivity|].
    simpl. rewrite length_append, length_escape_char, IH.
    destruct (is_special c); lia. }
  split; [exact Hlen|]. split; [|apply no_lf_icsEscape].
  split.
  - intros E. rewrite E in Hlen. lia.
  - intros H0. rewrite icsEscape_single_pass. now apply escape_chars_plain.
Qed.

(** X4. Two different texts never have the same escaped form. *)
Theorem icsEscape_injective (a b : string) :
  a <> b -> icsEscape a <> icsEscape b.
Proof.
  intros Hne E. apply Hne.
  rewrite <- (escape_chars_decoded a), <- (escape_chars_decoded b).
  now rewrite <- !icsEscape_single_pass, E.
Qed.

(** A text with a comma and the text that looks like its escaped form. *)
Lemma icsEscape_injective_witness :
  icsEscape "a,b" <> icsEscape (String "a" (String backslash ",b")).
Proof. apply icsEscape_injective. discriminate. Defined.

(** ** The query parameters *)

(** X5. The clamp of [handler] is the nearest value of the range: a
    number between 1 and the upper bound is kept (up to the way it is
    written), a smaller one or minus infinity becomes 1, a larger one or
    plus infinity becomes the upper bound, and NaN stays NaN. *)
Theorem clamp_is_nearest_in_range (hi dflt : Z) (v : qvalue) :
  (1 <= hi)%Z ->
  match Number_or dflt v with
  | NaN => clamped hi dflt v = NaN
  | NegInf => clamped hi dflt v = of_Z 1
  | PosInf => clamped hi dflt v = of_Z hi
  | Fin x =>
      exists r, clamped hi dflt v = Fin r
                /\ (Qle 1 x -> Qle x (inject_Z hi) -> Qeq r x)
                /\ (Qle x 1 -> Qeq r 1)
                /\ (Qle (inject_Z hi) x -> Qeq r (inject_Z hi))
  end.
Proof.
  intros Hhi.
  assert (H1 : Qle 1 (inject_Z hi)) by (change 1%Q with (inject_Z 1); now rewrite <- Zle_Qle).
  unfold clamped. destruct (Number_or dflt v) as [| |x|].
  - reflexivity.
  - reflexivity.
  - unfold Math_min, of_Z. cbn [js_lt].
    destruct (Qle_bool (inject_Z hi) x) eqn:Ehi; cbn [negb];
      unfold Math_max; cbn [js_lt].
    + apply Qle_bool_iff in Ehi.
      destruct (Qle_bool (inject_Z hi) (inject_Z 1)) eqn:E1; cbn [negb].
      * apply Qle_bool_iff in E1. change (inject_Z 1) with 1%Q in *.
        exists 1%Q. split; [reflexivity|]. repeat split; intros; lra.
      * exists (inject_Z hi). split; [reflexivity|]. repeat split; intros; lra.
    + assert (Hlt : Qlt x (inject_Z hi)).
      { apply Qnot_le_lt. intros Hle. apply Qle_bool_iff in Hle. congruence. }
      destruct (Qle_bool x (inject_Z 1)) eqn:E1; cbn [negb].
      * apply Qle_bool_iff in E1. change (inject_Z 1) with 1%Q in *.
        exists 1%Q. split; [reflexivity|]. repeat split; intros; lra.
      * assert (H1x : Qlt 1 x).
        { apply Qnot_le_lt. intros Hle. change 1%Q with (inject_Z 1) in Hle.
          apply Qle_bool_iff in Hle. congruence. }
        exists x. split; [reflexivity|]. repeat split; intros; lra.
  - unfold Math_min, Math_max, of_Z. cbn [js_lt].
    destruct (Qle_bool (inject_Z hi) (inject_Z 1)) eqn:E1; cbn [negb]; [|reflexivity].
    apply Qle_bool_iff in E1. rewrite <- Zle_Qle in E1.
    assert (E : hi = 1%Z) by lia. now subst hi.
Qed.

(** [max=1000] comes down to 600. *)
Lemma clamp_is_nearest_in_range_witness :
  exists r, clamped 600 300 (QString "1000") = Fin r
            /\ (Qle 1 (inject_Z 1000) -> Qle (inject_Z 1000) (inject_Z 600)
                -> Qeq r (inject_Z 1000))
            /\ (Qle (inject_Z 1000) 1 -> Qeq r 1)
            /\ (Qle (inject_Z 600) (inject_Z 1000) -> Qeq r (inject_Z 600)).
Proof.
  exact (clamp_is_nearest_in_range 600 300 (QString "1000") ltac:(lia)).
Defined.

(** X6. When the effective [sinceDays] is the whole number [D], the
    cutoff sent upstream is the clock in whole seconds minus [D] days of
    86400 seconds. *)
Theorem cutoff_is_days_before_now (q : Query) (D : nat) (now : Z) :
  denotes (effective_sinceDays q) D ->
  after_of now (effective_sinceDays q)
  = of_Z (now / 1000 - Z.of_nat D * 86400)%Z.
Proof.
  destruct (effective_sinceDays q) as [| |x|]; cbn [denotes after_of];
    try contradiction.
  intros Hx. f_equal.
  rewrite (Qfloor_comp _ (Qdiv (inject_Z (now - Z.of_nat D * 86400000))
                               (inject_Z 1000))).
  - rewrite <- Zdiv_Qdiv.
    replace (now - Z.of_nat D * 86400000)%Z
      with (now + (- (Z.of_nat D * 86400)) * 1000)%Z by lia.
    rewrite Z.div_add by lia. lia.
  - rewrite Hx. unfold Zminus. rewrite inject_Z_plus, inject_Z_opp, inject_Z_mult.
    apply Qdiv_comp; [|reflexivity].
    change (inject_Z 86400000) with (Qmult (Qmult (inject_Z 24) (inject_Z 3600)) (inject_Z 1000)).
    ring.
Qed.

(** Without the parameter the cutoff is ninety days back. *)
Lemma cutoff_is_days_before_now_witness :
  after_of Sample.clock (effective_sinceDays (Sample.query QAbsent QAbsent))
  = of_Z (Sample.clock / 1000 - 90 * 86400)%Z.
Proof.
  apply (cutoff_is_days_before_now (Sample.query QAbsent QAbsent) 90 Sample.clock).
  reflexivity.
Defined.

(** ** Every run of the handler *)

Section AnyRun.

(** The [try] block throws before any request, or throws after the
    exchange request alone, or runs the loop from page 1. *)
Lemma fetch_activities_cases (fuel : nat) (w : World) (q : Query) :
  (exists msg, fetch_activities fuel w q = ([], Throw msg))
  \/ (exists i s r,
        STRAVA_CLIENT_ID w = Some i /\ STRAVA_CLIENT_SECRET w = Some s
        /\ STRAVA_REFRESH_TOKEN w = Some r
        /\ ((exists msg, fetch_activities fuel w q = ([TokenExchange i s r], Throw msg))
            \/ exists tok,
                 authorized w tok
                 /\ let run := fetch_loop fuel w
                                 (after_of (Date_now w) (effective_sinceDays q))
                                 tok (allowedSports_of (sport q)) (effective_max q) 1 [] in
                    fetch_activities fuel w q
                    = (TokenExchange i s r :: fst run, snd run))).
Proof.
  destruct (missing (STRAVA_CLIENT_ID w) || missing (STRAVA_CLIENT_SECRET w)
            || missing (STRAVA_REFRESH_TOKEN w)) eqn:Hc.
  - left. exists "Missing STRAVA env vars".
    unfold fetch_activities. now rewrite (getAccessToken_missing w Hc).
  - apply orb_false_iff in Hc as [Hc Hr]. apply orb_false_iff in Hc as [Hi Hs].
    pose proof Hi as Hi'. pose proof Hs as Hs'. pose proof Hr as Hr'.
    apply missing_false in Hi' as (i & Ei & Ti).
    apply missing_false in Hs' as (s & Es & Ts).
    apply missing_false in Hr' as (r & Er & Tr).
    assert (Eg : getAccessToken w = jfetch (TokenExchange i s r) (token_endpoint w)).
    { unfold getAccessToken. now rewrite Ei, Es, Er, Ti, Ts, Tr. }
    right. exists i, s, r. repeat (split; [assumption|]).
    destruct (token_endpoint w) as [tok|st text b] eqn:Et.
    + right. exists tok. split; [repeat split; assumption|].
      cbv zeta. unfold fetch_activities. rewrite Eg. unfold jfetch, request, bind, ret.
      destruct (fetch_loop fuel w _ tok _ _ 1 []) as [t o]. reflexivity.
    + left. exists (http_message st text b).
      unfold fetch_activities. rewrite Eg. reflexivity.
Qed.

Variable w : World.
Variable after : jsnum.
Variable tok : string.
Variable allowedSports : option (list string).
Variable max : jsnum.
Variable N : nat.
Hypothesis max_N : denotes max N.

(** Under the cap and through the filter at every round. *)
Lemma loop_bounded (fuel : nat) :
  forall page acc acts,
    List.length acc <= N ->
    Forall (fun a => passes allowedSports a = true) acc ->
    snd (fetch_loop fuel w after tok allowedSports max page acc) = Return acts ->
    List.length acts <= N
    /\ Forall (fun a => passes allowedSports a = true) acts.
Proof.
  induction fuel as [|fuel IH]; intros page acc acts Hlen Hall Hrun.
  - cbn [fetch_loop] in Hrun.
    destruct (js_lt (of_nat (List.length acc)) max); [discriminate|].
    inversion Hrun; subst. now split.
  - destruct (js_lt (of_nat (List.length acc)) max) eqn:H.
    2:{ rewrite loop_done in Hrun by exact H. inversion Hrun; subst. now split. }
    destruct (activities_endpoint w page) as [b|st text b] eqn:E.
    2:{ rewrite (loop_refused _ _ _ _ _ _ _ _ _ _ _ H E) in Hrun. discriminate. }
    destruct b as [|a b].
    { rewrite (loop_empty _ _ _ _ _ _ _ _ H E) in Hrun. inversion Hrun; subst.
      now split. }
    rewrite (loop_step _ _ _ _ _ _ _ _ _ H E) in Hrun by discriminate.
    cbn [snd] in Hrun. apply IH in Hrun; [exact Hrun| |].
    + rewrite (for_batch_firstn allowedSports max N max_N _ _ Hlen).
      rewrite length_firstn. lia.
    + rewrite (for_batch_spec allowedSports max N max_N).
      apply Forall_app. split; [exact Hall|].
      apply Forall_forall. intros x Hx. apply In_firstn in Hx.
      apply filter_In in Hx. apply Hx.
Qed.

End AnyRun.

(** X7. Whatever the upstream answers, when the handler collects
    activities under a cap of [N], it collects at most [N], and every one
    of them passes the type filter. *)
Theorem cap_bounds_every_run (w : World) (q : Query) (N fuel : nat)
  (acts : list StravaActivity) :
  denotes (effective_max q) N ->
  snd (fetch_activities fuel w q) = Return acts ->
  List.length acts <= N
  /\ Forall (fun a => passes (allowedSports_of (sport q)) a = true) acts
  /\ Ics.event_blocks (build_ics (Date_now w) acts) <= N.
Proof.
  intros Hmax Hrun.
  assert (H : List.length acts <= N
              /\ Forall (fun a => passes (allowedSports_of (sport q)) a = true) acts).
  { destruct (fetch_activities_cases fuel w q)
      as [(msg & E) | (i & s & r & _ & _ & _ & [(msg & E) | (tok & _ & E)])].
    - rewrite E in Hrun. discriminate.
    - rewrite E in Hrun. discriminate.
    - cbv zeta in E. rewrite E in Hrun. cbn [snd] in Hrun.
      eapply loop_bounded; [exact Hmax | | | exact Hrun]; [simpl; lia | constructor]. }
  destruct H as [Hlen Hall]. repeat split; try assumption.
  now rewrite event_blocks_build_ics.
Qed.

(** Two pages of four activities under [max=3] and no filter. *)
Lemma cap_bounds_every_run_witness :
  let acts := [Sample.run1; Sample.ride1; Sample.run2] in
  List.length acts <= 3
  /\ Forall (fun a => passes None a = true) acts
  /\ Ics.event_blocks (build_ics Sample.clock acts) <= 3.
Proof.
  exact (cap_bounds_every_run (Sample.world Sample.two_pages)
           (Sample.query QAbsent (QString "3")) 3 2
           [Sample.run1; Sample.ride1; Sample.run2]
           ltac:(reflexivity) ltac:(vm_compute; reflexivity)).
Defined.

(** X8. The requests of one invocation, in order: nothing at all, or one
    token exchange that carries the three environment variables, followed
    by requests for the pages 1, 2, ..., [m], each with the same cutoff,
    a page size of 200 and the token that the exchange returned. *)
Theorem requests_in_order (fuel : nat) (w : World) (q : Query) :
  fst (handler fuel w q) = []
  \/ exists i s r m tok,
       STRAVA_CLIENT_ID w = Some i /\ STRAVA_CLIENT_SECRET w = Some s
       /\ STRAVA_REFRESH_TOKEN w = Some r
       /\ m <= fuel
       /\ (0 < m -> token_endpoint w = Success tok)
       /\ fst (handler fuel w q)
          = TokenExchange i s r
            :: map (fun p => ActivitiesPage
                               (after_of (Date_now w) (effective_sinceDays q))
                               p 200 tok)
                   (seq 1 m).
Proof.
  rewrite handler_trace.
  destruct (fetch_activities_cases fuel w q)
    as [(msg & E) | (i & s & r & Ei & Es & Er & [(msg & E) | (tok & Ha & E)])].
  - left. now rewrite E.
  - right. exists i, s, r, 0, EmptyString. repeat (split; [assumption|]).
    split; [lia|]. split; [lia|]. now rewrite E.
  - right. cbv zeta in E.
    destruct (loop_trace w (after_of (Date_now w) (effective_sinceDays q)) tok
                (allowedSports_of (sport q)) (effective_max q) fuel 1 [])
      as (m & Hm & Ht & _).
    exists i, s, r, m, tok. repeat (split; [assumption|]).
    split; [intros _; apply Ha|].
    rewrite E. cbn [fst]. now rewrite Ht.
Qed.

(** X9. When the [max] parameter does not convert to a number, the cap
    is NaN, no comparison with it holds, and the loop body never runs:
    after the token exchange no page is requested, and the answer is the
    feed without events, whatever the account holds. *)
Theorem cap_not_a_number_gives_empty_feed (w : World) (q : Query) (tok : string)
  (fuel : nat) :
  authorized w tok ->
  Number_or 300 (max q) = NaN ->
  exists i s r hs,
    handler fuel w q
    = ([TokenExchange i s r],
       Some {| status := 200; headers := hs;
               body := build_ics (Date_now w) [] |})
    /\ Ics.event_blocks (build_ics (Date_now w) []) = 0.
Proof.
  intros Ha Hnan.
  destruct (fetch_activities_authorized fuel w q tok Ha) as (i & s & r & E).
  cbv zeta in E.
  assert (Hmax : effective_max q = NaN) by (apply clamped_NaN, Hnan).
  rewrite Hmax in E. rewrite loop_done in E by reflexivity. cbn [fst snd] in E.
  exists i, s, r. eexists. split; [apply handler_returns, E | reflexivity].
Qed.

(** [max=abc] on an account with two pages of activities. *)
Lemma cap_not_a_number_gives_empty_feed_witness :
  exists i s r hs,
    handler 0 (Sample.world Sample.two_pages) (Sample.query QAbsent (QString "abc"))
    = ([TokenExchange i s r],
       Some {| status := 200; headers := hs;
               body := build_ics Sample.clock [] |})
    /\ Ics.event_blocks (build_ics Sample.clock []) = 0.
Proof.
  apply (cap_not_a_number_gives_empty_feed (Sample.world Sample.two_pages)
           (Sample.query QAbsent (QString "abc")) "tok" 0).
  - repeat split.
  - reflexivity.
Defined.

(** ** The allow-list ignores case *)

Section Case.

Lemma lower_comma (c : ascii) : Ascii.eqb (lower c) comma = Ascii.eqb c comma.
Proof. destruct c as [[] [] [] [] [] [] [] []]; reflexivity. Qed.

Lemma lower_space (c : ascii) : is_space (lower c) = is_space c.
Proof. destruct c as [[] [] [] [] [] [] [] []]; reflexivity. Qed.

Lemma lower_idempotent (c : ascii) : lower (lower c) = lower c.
Proof. destruct c as [[] [] [] [] [] [] [] []]; reflexivity. Qed.

Lemma toLowerCase_idempotent (s : string) :
  Str.toLowerCase (Str.toLowerCase s) = Str.toLowerCase s.
Proof.
  induction s as [|c s IH]; [reflexivity|].
  simpl. now rewrite lower_idempotent, IH.
Qed.

Lemma toLowerCase_truthy (s : string) :
  Str.truthy (Str.toLowerCase s) = Str.truthy s.
Proof. destruct s; reflexivity. Qed.

Lemma toLowerCase_split (s : string) :
  Str.split comma (Str.toLowerCase s) = map Str.toLowerCase (Str.split comma s).
Proof.
  induction s as [|c s IH]; [reflexivity|].
  simpl. rewrite lower_comma, IH.
  destruct (Ascii.eqb c comma); [reflexivity|].
  destruct (Str.split comma s); reflexivity.
Qed.

Lemma toLowerCase_trimStart (s : string) :
  Str.trimStart (Str.toLowerCase s) = Str.toLowerCase (Str.trimStart s).
Proof.
  induction s as [|c s IH]; [reflexivity|].
  simpl. rewrite lower_space. destruct (is_space c); [exact IH | reflexivity].
Qed.

Lemma toLowerCase_trimEnd (s : string) :
  Str.trimEnd (Str.toLowerCase s) = Str.toLowerCase (Str.trimEnd s).
Proof.
  induction s as [|c s IH]; [reflexivity|].
  simpl. rewrite IH, lower_space.
  destruct (Str.trimEnd s); [destruct (is_space c)|]; reflexivity.
Qed.

Lemma toLowerCase_trim (s : string) :
  Str.trim (Str.toLowerCase s) = Str.toLowerCase (Str.trim s).
Proof.
  unfold Str.trim. now rewrite toLowerCase_trimStart, toLowerCase_trimEnd.
Qed.

Lemma allowedSports_of_lower (s : string) :
  allowedSports_of (QString (Str.toLowerCase s)) = allowedSports_of (QString s).
Proof.
  unfold allowedSports_of. cbn [first_value].
  rewrite toLowerCase_truthy. destruct (Str.truthy s); [|reflexivity].
  f_equal. rewrite toLowerCase_split, map_map. apply map_ext.
  intros p. now rewrite toLowerCase_trim, toLowerCase_idempotent.
Qed.

End Case.

(** X10. The [sport] parameter is read without regard to case: two
    parameters that differ only in the case of their letters give the same
    allow-list and keep the same activities. *)
Theorem sport_parameter_ignores_case (s1 s2 : string) :
  Str.toLowerCase s1 = Str.toLowerCase s2 ->
  allowedSports_of (QString s1) = allowedSports_of (QString s2)
  /\ forall a, passes (allowedSports_of (QString s1)) a
               = passes (allowedSports_of (QString s2)) a.
Proof.
  intros E.
  assert (H : allowedSports_of (QString s1) = allowedSports_of (QString s2)).
  { rewrite <- (allowedSports_of_lower s1), <- (allowedSports_of_lower s2).
    now rewrite E. }
  split; [exact H | intros a; now rewrite H].
Qed.

Lemma sport_parameter_ignores_case_witness :
  allowedSports_of (QString "RUN, VirtualRide")
  = allowedSports_of (QString "run, virtualride").
Proof.
  apply (proj1 (sport_parameter_ignores_case "RUN, VirtualRide" "run, virtualride"
                  eq_refl)).
Defined.

(** ** The identifier of an event *)

Section Identifier.

Lemma append_inj_r (t a b : string) : a ++ t = b ++ t -> a = b.
Proof.
  revert b. induction a as [|x a IH]; intros [|y b] H; simpl in H.
  - reflexivity.
  - apply (f_equal String.length) in H. simpl in H.
    rewrite length_append in H. lia.
  - apply (f_equal String.length) in H. simpl in H.
    rewrite length_append in H. lia.
  - inversion H. f_equal. now apply IH.
Qed.

Lemma String_of_Z_injective (a b : Z) : String_of_Z a = String_of_Z b -> a = b.
Proof.
  unfold String_of_Z. intros H.
  assert (Hn : forall z, Z.to_int z <> Decimal.Pos Decimal.Nil
                         /\ Z.to_int z <> Decimal.Neg Decimal.Nil).
  { intros [|p|p]; simpl; split; try discriminate;
      intros E; inversion E as [E']; now apply DecimalPos.Unsigned.to_uint_nonnil in E'. }
  apply DecimalZ.to_int_inj.
  assert (E : Some (Z.to_int a) = Some (Z.to_int b)).
  { rewrite <- (NilZero.isi (Z.to_int a)) by apply Hn.
    rewrite <- (NilZero.isi (Z.to_int b)) by apply Hn.
    now rewrite H. }
  now inversion E.
Qed.

End Identifier.

(** X11. The UID and the URL of an event depend on the identifier of the
    activity alone: two events have the same UID line exactly when their
    activities have the same identifier, whenever they are built and
    whatever else the activities hold; the same for the URL line. *)
Theorem uid_identifies_activity (now now' : Z) (a b : StravaActivity) :
  (nth 1 (event_lines now a) "" = nth 1 (event_lines now' b) "" <-> id a = id b)
  /\ (nth 8 (event_lines now a) "" = nth 8 (event_lines now' b) "" <-> id a = id b).
Proof.
  unfold event_lines, event_url. cbn [nth]. split; split.
  - intros H. inversion H as [H']. apply append_inj_r in H'.
    now apply String_of_Z_injective.
  - intros E. now rewrite E.
  - intros H.
    apply String_of_Z_injective.
    assert (Hp : forall p x y : string, p ++ x = p ++ y -> x = y).
    { intros p x y. induction p as [|c p IH]; simpl; intros E;
        [exact E | inversion E; now apply IH]. }
    apply (Hp "URL:https://www.strava.com/activities/").
    rewrite <- !append_assoc in H. exact H.
  - intros E. now rewrite E.
Qed.

(** ** The shape of an event and of the feed *)

Section Shape.

Variable now : Z.

Lemma truthy_icsEscape (s : string) : Str.truthy (icsEscape s) = Str.truthy s.
Proof.
  destruct s as [|c s]; [reflexivity|].
  rewrite icsEscape_cons. unfold escape_char.
  destruct (Ascii.eqb c backslash); [reflexivity|].
  destruct (Ascii.eqb c LF); [reflexivity|].
  destruct (Ascii.eqb c comma); [reflexivity|].
  destruct (Ascii.eqb c semicolon); reflexivity.
Qed.

(** The location is written exactly when one of its three fields is. *)
Lemma event_location_truthy (a : StravaActivity) :
  Str.truthy (event_location a)
  = truthy (location_city a) || truthy (location_state a)
    || truthy (location_country a).
Proof.
  unfold event_location.
  destruct (location_city a) as [| |[|c1 s1]],
           (location_state a) as [| |[|c2 s2]],
           (location_country a) as [| |[|c3 s3]];
    cbn [truthy Str.truthy orb filter map template Str.join];
    rewrite ?truthy_icsEscape; reflexivity.
Qed.

Lemma event_lines_filtered (a : StravaActivity) :
  filter Str.truthy (event_lines now a)
  = List.app
      [ "BEGIN:VEVENT";
        "UID:" ++ (String_of_Z (id a) ++ "@strava-ics");
        "DTSTAMP:" ++ formatAsUTC (Some now);
        "DTSTART:" ++ formatAsUTC (event_start a);
        "DTEND:" ++ formatAsUTC (event_end a);
        "SUMMARY:" ++ icsEscape ("Strava: " ++ template (or_else (name a) (sport_type a))) ]
      (List.app
         (if truthy (location_city a) || truthy (location_state a)
             || truthy (location_country a)
          then ["LOCATION:" ++ event_location a] else [])
         [ "DESCRIPTION:" ++ icsEscape (Str.join NL (descParts a));
           "URL:" ++ event_url a;
           "END:VEVENT" ]).
Proof.
  rewrite <- event_location_truthy. unfold event_lines.
  destruct (Str.truthy (event_location a)) eqn:E; cbn; rewrite ?E; reflexivity.
Qed.

Lemma event_lines_content (a : StravaActivity) :
  forallb Ics.content_line (filter Str.truthy (event_lines now a)) = true.
Proof.
  rewrite event_lines_filtered.
  generalize (String_of_Z (id a) ++ "@strava-ics"), (formatAsUTC (Some now)),
    (formatAsUTC (event_start a)), (formatAsUTC (event_end a)),
    (icsEscape ("Strava: " ++ template (or_else (name a) (sport_type a)))),
    (event_location a), (icsEscape (Str.join NL (descParts a))), (event_url a).
  intros u st s e sm lo de ur.
  destruct (truthy (location_city a) || truthy (location_state a)
            || truthy (location_country a)); reflexivity.
Qed.

(** An event opens and closes inside the component that holds it. *)
Lemma nested_event (a : StravaActivity) (o : string) (st rest : list string) :
  Ics.nested (o :: st) (filter Str.truthy (event_lines now a) ++ rest)%list
  = Ics.nested (o :: st) rest.
Proof.
  rewrite event_lines_filtered.
  generalize (String_of_Z (id a) ++ "@strava-ics"), (formatAsUTC (Some now)),
    (formatAsUTC (event_start a)), (formatAsUTC (event_end a)),
    (icsEscape ("Strava: " ++ template (or_else (name a) (sport_type a)))),
    (event_location a), (icsEscape (Str.join NL (descParts a))), (event_url a).
  intros u s0 s e sm lo de ur.
  destruct (truthy (location_city a) || truthy (location_state a)
            || truthy (location_country a)); reflexivity.
Qed.

Lemma events_well_nested (acts : list StravaActivity) :
  Ics.nested ["VCALENDAR"]
    (List.concat (map (fun a => filter Str.truthy (event_lines now a)) acts)
     ++ [envelope_close])%list = true.
Proof.
  induction acts as [|a acts IH]; [reflexivity|].
  cbn [map List.concat]. rewrite <- app_assoc, nested_event. exact IH.
Qed.

Lemma events_content (acts : list StravaActivity) :
  forallb Ics.content_line
    (List.concat (map (fun a => filter Str.truthy (event_lines now a)) acts)) = true.
Proof.
  induction acts as [|a acts IH]; [reflexivity|].
  cbn [map List.concat]. now rewrite forallb_app, event_lines_content, IH.
Qed.

End Shape.

(** X12. Whatever characters the name, the classification and the
    location of an activity hold, the text of its event splits at CR LF
    into exactly the lines that [buildEvent] joined, in order: six lines
    from BEGIN:VEVENT to SUMMARY, the LOCATION line exactly when the city,
    the state or the country is filled in, then DESCRIPTION, URL and
    END:VEVENT; and each of them is a content line. *)
Theorem event_text_lines (now : Z) (a : StravaActivity) :
  Str.lines (buildEvent now a)
  = List.app
      [ "BEGIN:VEVENT";
        "UID:" ++ (String_of_Z (id a) ++ "@strava-ics");
        "DTSTAMP:" ++ formatAsUTC (Some now);
        "DTSTART:" ++ formatAsUTC (event_start a);
        "DTEND:" ++ formatAsUTC (event_end a);
        "SUMMARY:" ++ icsEscape ("Strava: " ++ template (or_else (name a) (sport_type a))) ]
      (List.app
         (if truthy (location_city a) || truthy (location_state a)
             || truthy (location_country a)
          then ["LOCATION:" ++ event_location a] else [])
         [ "DESCRIPTION:" ++ icsEscape (Str.join NL (descParts a));
           "URL:" ++ event_url a;
           "END:VEVENT" ])
  /\ forallb Ics.content_line (Str.lines (buildEvent now a)) = true
  /\ Forall (fun l => Str.no_lf l = true) (Str.lines (buildEvent now a)).
Proof.
  rewrite lines_buildEvent. split; [apply event_lines_filtered|].
  split; [apply event_lines_content | apply event_lines_no_lf].
Qed.

(** X13. The feed parses as a calendar (content lines, nested
    components, one VCALENDAR) exactly when it holds at least one
    activity; its lines are then the eight opening lines, the lines of
    each event in order and the closing line. *)
Theorem feed_well_formed (now : Z) (acts : list StravaActivity) :
  (Ics.well_formed (build_ics now acts) = true <-> acts <> [])
  /\ (acts <> [] ->
      Str.lines (build_ics now acts)
      = (envelope_open
         ++ List.concat (map (fun a => Str.lines (buildEvent now a)) acts)
         ++ [envelope_close])%list).
Proof.
  assert (Hl : acts <> [] ->
               Str.lines (build_ics now acts)
               = (envelope_open
                  ++ List.concat (map (fun a => filter Str.truthy (event_lines now a)) acts)
                  ++ [envelope_close])%list).
  { intros Hne. now rewrite lines_build_ics, lines_events. }
  split.
  - split.
    + intros H E. subst acts. discriminate H.
    + intros Hne. unfold Ics.well_formed. rewrite (Hl Hne).
      cbn [envelope_open List.app]. apply andb_true_iff. split.
      * cbn [forallb String.eqb Ascii.eqb Bool.eqb andb].
        change (forallb Ics.content_line
                  (envelope_open
                   ++ List.concat (map (fun a => filter Str.truthy (event_lines now a)) acts)
                   ++ [envelope_close])%list = true).
        rewrite !forallb_app, events_content. reflexivity.
      * change (Ics.nested ["VCALENDAR"]
                  (List.concat (map (fun a => filter Str.truthy (event_lines now a)) acts)
                   ++ [envelope_close])%list = true).
        apply events_well_nested.
  - intros Hne. rewrite (Hl Hne). do 3 f_equal. apply map_ext.
    intros a. symmetry. apply lines_buildEvent.
Qed.

Lemma feed_well_formed_witness :
  Str.lines (build_ics Sample.clock [Sample.run1; Sample.ride1])
  = (envelope_open
     ++ List.concat (map (fun a => Str.lines (buildEvent Sample.clock a))
                       [Sample.run1; Sample.ride1])
     ++ [envelope_close])%list.
Proof.
  apply (proj2 (feed_well_formed Sample.clock [Sample.run1; Sample.ride1])).
  discriminate.
Defined.

(** ** Title case *)

Section TitleCase.

Lemma is_word_upper (c : ascii) : is_word (upper_word c) = is_word c.
Proof. destruct c as [[] [] [] [] [] [] [] []]; reflexivity. Qed.

Lemma upper_word_idempotent (c : ascii) : upper_word (upper_word c) = upper_word c.
Proof. destruct c as [[] [] [] [] [] [] [] []]; reflexivity. Qed.

Lemma title_from_idempotent (s : string) :
  forall inside, title_from inside (title_from inside s) = title_from inside s.
Proof.
  induction s as [|c s IH]; intros inside; [reflexivity|].
  destruct inside; cbn [title_from].
  - destruct (is_space c) eqn:Es; cbn [title_from].
    + now rewrite Es, IH.
    + now rewrite lower_space, Es, lower_idempotent, IH.
  - destruct (is_word c) eqn:Ew; cbn [title_from].
    + now rewrite is_word_upper, Ew, upper_word_idempotent, IH.
    + now rewrite Ew, IH.
Qed.

End TitleCase.

(** X14. Applying [toTitleCase] twice is the same as applying it once:
    the words start where they started, their first letter is already in
    upper case and the rest in lower case. *)
Theorem toTitleCase_idempotent (s : string) :
  toTitleCase (toTitleCase s) = toTitleCase s.
Proof. unfold toTitleCase. apply title_from_idempotent. Qed.

(** ** The calendar of the dates *)

Section Calendar.

Local Open Scope Z_scope.

(** Every day of every month of the 400 years of an era. *)
Lemma all_dates_checked :
  forallb (fun yoe =>
             forallb (fun m => forallb (check_date yoe m) (Zrange 1 31))
                     (Zrange 1 12))
          (Zrange 0 400) = true.
Proof. vm_cast_no_check (eq_refl true). Qed.

(** Every day of an era. *)
Lemma all_does_checked :
  forallb check_doe (Zrange 0 (Z.to_nat 146097)) = true.
Proof. vm_cast_no_check (eq_refl true). Qed.

Lemma days_in_month_le_31 (y m : Z) : DateModel.days_in_month y m <= 31.
Proof.
  unfold DateModel.days_in_month.
  destruct (m =? 2); [destruct (DateModel.is_leap y); lia|].
  destruct ((m =? 4) || (m =? 6) || (m =? 9) || (m =? 11))%bool; lia.
Qed.

Lemma date_to_doe (yoe m d : Z) :
  0 <= yoe < 400 -> 1 <= m <= 12 ->
  1 <= d <= DateModel.days_in_month (yoe + month_shift m) m ->
  0 <= doe_of yoe m d < 146097 /\ of_doe (doe_of yoe m d) = (yoe, m, d).
Proof.
  intros Hy Hm Hd.
  pose proof (days_in_month_le_31 (yoe + month_shift m) m) as H31.
  pose proof all_dates_checked as H.
  apply (Zrange_forall _ 0 400) with (z := yoe) in H; [|lia].
  apply (Zrange_forall _ 1 12) with (z := m) in H; [|lia].
  apply (Zrange_forall _ 1 31) with (z := d) in H; [|lia].
  unfold check_date in H.
  replace (d <=? DateModel.days_in_month (yoe + month_shift m) m) with true in H
    by (symmetry; apply Z.leb_le; lia).
  destruct (of_doe (doe_of yoe m d)) as [[yy mm] dd].
  apply andb_true_iff in H as [Hr Hc].
  apply andb_true_iff in Hr as [H0 H1].
  apply andb_true_iff in Hc as [Hc Hdd].
  apply andb_true_iff in Hc as [Hyy Hmm].
  apply Z.leb_le in H0. apply Z.ltb_lt in H1.
  apply Z.eqb_eq in Hyy, Hmm, Hdd. subst. split; [lia | reflexivity].
Qed.

Lemma doe_to_date (doe : Z) :
  0 <= doe < 146097 ->
  exists yoe m d,
    of_doe doe = (yoe, m, d)
    /\ 0 <= yoe <= 399 /\ 1 <= m <= 12
    /\ 1 <= d <= DateModel.days_in_month (yoe + month_shift m) m
    /\ doe_of yoe m d = doe.
Proof.
  intros Hd. pose proof all_does_checked as H.
  apply (Zrange_forall _ 0 (Z.to_nat 146097)) with (z := doe) in H; [|lia].
  unfold check_doe in H. destruct (of_doe doe) as [[yoe m] d].
  apply andb_true_iff in H as [H Hback].
  apply andb_true_iff in H as [H Hd2].
  apply andb_true_iff in H as [H Hd1].
  apply andb_true_iff in H as [H Hm2].
  apply andb_true_iff in H as [H Hm1].
  apply andb_true_iff in H as [Hy1 Hy2].
  apply Z.leb_le in Hy1, Hy2, Hm1, Hm2, Hd1, Hd2. apply Z.eqb_eq in Hback.
  exists yoe, m, d. repeat split; assumption.
Qed.

Lemma is_leap_era (y k : Z) : DateModel.is_leap (y + k * 400) = DateModel.is_leap y.
Proof.
  unfold DateModel.is_leap.
  replace ((y + k * 400) mod 4) with (y mod 4)
    by (replace (k * 400) with (k * 100 * 4) by lia; now rewrite Z.mod_add).
  replace ((y + k * 400) mod 100) with (y mod 100)
    by (replace (k * 400) with (k * 4 * 100) by lia; now rewrite Z.mod_add).
  now rewrite Z.mod_add.
Qed.

Lemma days_in_month_era (y k m : Z) :
  DateModel.days_in_month (y + k * 400) m = DateModel.days_in_month y m.
Proof. unfold DateModel.days_in_month. now rewrite is_leap_era. Qed.

(** [DateModel.days_from_civil] through the era and the day of the era. *)
Lemma days_from_civil_era (y m d : Z) :
  DateModel.days_from_civil y m d
  = (y - month_shift m) / 400 * 146097
    + doe_of ((y - month_shift m) mod 400) m d - 719468.
Proof.
  unfold DateModel.days_from_civil, month_shift.
  destruct (m <=? 2); rewrite ?Z.sub_0_r;
    rewrite Z.mod_eq by lia; rewrite (Z.mul_comm 400);
    unfold doe_of; cbv zeta; reflexivity.
Qed.

(** [DateModel.civil_from_days] through the era and the day of the era. *)
Lemma civil_from_days_era (era doe : Z) :
  0 <= doe < 146097 ->
  DateModel.civil_from_days (era * 146097 + doe - 719468)
  = let '(yoe, m, d) := of_doe doe in (yoe + era * 400 + month_shift m, m, d).
Proof.
  intros Hd. unfold DateModel.civil_from_days.
  replace (era * 146097 + doe - 719468 + 719468) with (doe + era * 146097) by lia.
  rewrite Z.div_add, (Z.div_small doe) by lia.
  replace (doe + era * 146097 - (0 + era) * 146097) with doe by lia.
  unfold of_doe, month_shift. cbv zeta.
  destruct ((if (5 * _ + 2) / 153 <? 10 then _ else _) <=? 2);
    f_equal; f_equal; lia.
Qed.

(** A date of the calendar is found back from its day number. *)
Lemma civil_round_trip (y m d : Z) :
  1 <= m <= 12 -> 1 <= d <= DateModel.days_in_month y m ->
  DateModel.civil_from_days (DateModel.days_from_civil y m d) = (y, m, d).
Proof.
  intros Hm Hd.
  set (y' := y - month_shift m).
  assert (Hy : y = y' mod 400 + month_shift m + y' / 400 * 400).
  { unfold y'. rewrite Z.mod_eq by lia. lia. }
  assert (Hyoe : 0 <= y' mod 400 < 400) by (apply Z.mod_pos_bound; lia).
  rewrite Hy, days_in_month_era in Hd.
  destruct (date_to_doe (y' mod 400) m d Hyoe Hm Hd) as [Hdoe Hof].
  rewrite days_from_civil_era. fold y'.
  rewrite civil_from_days_era by exact Hdoe. rewrite Hof.
  f_equal. f_equal. lia.
Qed.

(** The date of any day number is a date of the calendar. *)
Lemma civil_from_days_valid (days : Z) :
  exists y m d,
    DateModel.civil_from_days days = (y, m, d)
    /\ 1 <= m <= 12 /\ 1 <= d <= DateModel.days_in_month y m
    /\ DateModel.days_from_civil y m d = days.
Proof.
  set (z := days + 719468).
  assert (Hdoe : 0 <= z mod 146097 < 146097) by (apply Z.mod_pos_bound; lia).
  destruct (doe_to_date _ Hdoe) as (yoe & m & d & Hof & Hy & Hm & Hd & Hback).
  assert (E : days = z / 146097 * 146097 + z mod 146097 - 719468).
  { unfold z. rewrite Z.mod_eq by lia. lia. }
  exists (yoe + z / 146097 * 400 + month_shift m), m, d.
  split.
  { rewrite E at 1. rewrite civil_from_days_era by exact Hdoe. now rewrite Hof. }
  split; [exact Hm|]. split.
  { replace (yoe + z / 146097 * 400 + month_shift m)
      with (yoe + month_shift m + z / 146097 * 400) by lia.
    now rewrite days_in_month_era. }
  rewrite days_from_civil_era.
  replace (yoe + z / 146097 * 400 + month_shift m - month_shift m)
    with (yoe + z / 146097 * 400) by lia.
  rewrite Z.div_add, Z.mod_add, Z.div_small, Z.mod_small by lia.
  rewrite Hback. lia.
Qed.

End Calendar.

(** ** Instants as the calendar prints them *)

Section Instants.

Local Open Scope Z_scope.

(** The clock fields of an instant made of a day number and a time of the
    day in whole seconds. *)
Lemma clock_fields (days h mi se : Z) :
  0 <= h < 24 -> 0 <= mi < 60 -> 0 <= se < 60 ->
  let t := days * DateModel.msPerDay + h * 3600000 + mi * 60000 + se * 1000 in
  t / DateModel.msPerDay = days
  /\ DateModel.getUTCHours t = h
  /\ DateModel.getUTCMinutes t = mi
  /\ DateModel.getUTCSeconds t = se.
Proof.
  intros Hh Hmi Hse t. unfold t, DateModel.getUTCHours, DateModel.getUTCMinutes,
    DateModel.getUTCSeconds, DateModel.msPerDay.
  repeat split; Z.to_euclidean_division_equations; lia.
Qed.

(** The fields that [formatAsUTC] reads denote the instant, cut to whole
    seconds. *)
Lemma instant_of_fields (t : Z) :
  t - t mod 1000
  = t / DateModel.msPerDay * DateModel.msPerDay
    + DateModel.getUTCHours t * 3600000 + DateModel.getUTCMinutes t * 60000
    + DateModel.getUTCSeconds t * 1000.
Proof.
  unfold DateModel.getUTCHours, DateModel.getUTCMinutes,
    DateModel.getUTCSeconds, DateModel.msPerDay.
  Z.to_euclidean_division_equations; lia.
Qed.

End Instants.

(** X15. For every instant, [formatAsUTC] writes a real date of the
    calendar and a time of the day: the year, then two characters each for
    a month from 01 to 12, a day that exists in that month of that year,
    an hour below 24, a minute and a second below 60, with [T] between
    date and time and [Z] at the end; and these fields denote the instant
    itself, cut to whole seconds. *)
Theorem formatAsUTC_shape (t : Z) :
  exists y m d h mi se : Z,
    formatAsUTC (Some t) = compact_date_time y m d h mi se
    /\ (1 <= m <= 12)%Z /\ (1 <= d <= DateModel.days_in_month y m)%Z
    /\ (0 <= h < 24)%Z /\ (0 <= mi < 60)%Z /\ (0 <= se < 60)%Z
    /\ (t - t mod 1000
        = DateModel.days_from_civil y m d * 86400000
          + h * 3600000 + mi * 60000 + se * 1000)%Z
    /\ String.length (formatAsUTC (Some t)) = String.length (String_of_Z y) + 12.
Proof.
  destruct (civil_from_days_valid (t / DateModel.msPerDay))
    as (y & m & d & Hc & Hm & Hd & Hback).
  pose proof (days_in_month_le_31 y m) as H31.
  exists y, m, d, (DateModel.getUTCHours t), (DateModel.getUTCMinutes t),
    (DateModel.getUTCSeconds t).
  assert (Hh : (0 <= DateModel.getUTCHours t < 24)%Z)
    by (apply Z.mod_pos_bound; lia).
  assert (Hmi : (0 <= DateModel.getUTCMinutes t < 60)%Z)
    by (apply Z.mod_pos_bound; lia).
  assert (Hse : (0 <= DateModel.getUTCSeconds t < 60)%Z)
    by (apply Z.mod_pos_bound; lia).
  assert (Hf : formatAsUTC (Some t)
               = compact_date_time y m d (DateModel.getUTCHours t)
                   (DateModel.getUTCMinutes t) (DateModel.getUTCSeconds t)).
  { unfold formatAsUTC, compact_date_time, DateModel.getUTCFullYear,
      DateModel.getUTCMonth, DateModel.getUTCDate.
    rewrite Hc. cbn [fst snd]. now rewrite Z.sub_add. }
  split; [exact Hf|]. repeat (split; [assumption|]).
  split.
  - rewrite Hback. apply instant_of_fields.
  - rewrite Hf. unfold compact_date_time.
    rewrite !length_append, !length_pad by lia. simpl. lia.
Qed.

(** ** Reading the start of an activity *)

Section StartDate.

Local Open Scope Z_scope.

Lemma fixed_digits_app (n : nat) :
  forall acc s v rest,
    DateModel.fixed_digits n acc s = Some (v, EmptyString) ->
    DateModel.fixed_digits n acc (s ++ rest) = Some (v, rest).
Proof.
  induction n as [|n IH]; intros acc s v rest H.
  - simpl in H. inversion H; subst. reflexivity.
  - destruct s as [|c s]; [discriminate|]. simpl in H |- *.
    destruct (is_digit c); [now apply IH | discriminate].
Qed.

(** Two printed digits read back. *)
Lemma fixed_digits_pad (z : Z) :
  0 <= z < 100 ->
  DateModel.fixed_digits 2 0 (pad z) = Some (z, EmptyString).
Proof.
  intros Hz.
  assert (H : forallb (fun z => match DateModel.fixed_digits 2 0 (pad z) with
                                | Some (v, EmptyString) => Z.eqb v z
                                | _ => false
                                end) (Zrange 0 100) = true)
    by (vm_compute; reflexivity).
  apply (Zrange_forall _ 0 100) with (z := z) in H; [|lia].
  destruct (DateModel.fixed_digits 2 0 (pad z)) as [[v [|c r]]|]; try discriminate.
  apply Z.eqb_eq in H. now subst.
Qed.

(** A printed year of four digits reads back. *)
Lemma fixed_digits_year (y : Z) :
  1000 <= y <= 9999 ->
  DateModel.fixed_digits 4 0 (String_of_Z y) = Some (y, EmptyString).
Proof.
  intros Hy.
  assert (H : forallb (fun z => match DateModel.fixed_digits 4 0 (String_of_Z z) with
                                | Some (v, EmptyString) => Z.eqb v z
                                | _ => false
                                end) (Zrange 1000 (Z.to_nat 9000)) = true)
    by (vm_cast_no_check (eq_refl true)).
  apply (Zrange_forall _ 1000 (Z.to_nat 9000)) with (z := y) in H; [|lia].
  destruct (DateModel.fixed_digits 4 0 (String_of_Z y)) as [[v [|c r]]|];
    try discriminate.
  apply Z.eqb_eq in H. now subst.
Qed.

Lemma expect_same (c : ascii) (r : string) :
  DateModel.expect c (String c r) = Some r.
Proof. unfold DateModel.expect. now rewrite Ascii.eqb_refl. Qed.

(** The day number of a date of the years 1000 to 9999. *)
Lemma days_from_civil_bounds (y m d : Z) :
  1000 <= y <= 9999 -> 1 <= m <= 12 -> 1 <= d <= DateModel.days_in_month y m ->
  -1000000 <= DateModel.days_from_civil y m d <= 4000000.
Proof.
  intros Hy Hm Hd.
  set (y' := y - month_shift m).
  assert (Hy' : y = y' mod 400 + month_shift m + y' / 400 * 400).
  { unfold y'. rewrite Z.mod_eq by lia. lia. }
  assert (Hyoe : 0 <= y' mod 400 < 400) by (apply Z.mod_pos_bound; lia).
  rewrite Hy', days_in_month_era in Hd.
  destruct (date_to_doe (y' mod 400) m d Hyoe Hm Hd) as [Hdoe _].
  rewrite days_from_civil_era. fold y'.
  assert (Hera : 2 <= y' / 400 <= 24).
  { unfold y', month_shift. destruct (m <=? 2);
      Z.to_euclidean_division_equations; lia. }
  lia.
Qed.

(** The date-time notation of a valid date reads as its instant. *)
Lemma parse_iso_date_time (y mo d h mi se : Z) :
  1000 <= y <= 9999 -> 1 <= mo <= 12 -> 1 <= d <= DateModel.days_in_month y mo ->
  0 <= h <= 23 -> 0 <= mi <= 59 -> 0 <= se <= 59 ->
  DateModel.parse (iso_date_time y mo d h mi se)
  = Some (DateModel.days_from_civil y mo d * DateModel.msPerDay
          + h * 3600000 + mi * 60000 + se * 1000).
Proof.
  intros Hy Hmo Hd Hh Hmi Hse.
  pose proof (days_in_month_le_31 y mo) as H31.
  pose proof (days_from_civil_bounds y mo d Hy Hmo Hd) as Hb.
  unfold DateModel.parse, iso_date_time.
  rewrite (fixed_digits_app 4 0 _ y) by (apply fixed_digits_year; lia).
  cbn [DateModel.bind_opt]. cbn [append]. rewrite expect_same. cbn [DateModel.bind_opt].
  rewrite (fixed_digits_app 2 0 _ mo) by (apply fixed_digits_pad; lia).
  cbn [DateModel.bind_opt]. cbn [append]. rewrite expect_same. cbn [DateModel.bind_opt].
  rewrite (fixed_digits_app 2 0 _ d) by (apply fixed_digits_pad; lia).
  cbn [DateModel.bind_opt]. cbn [append]. rewrite expect_same. cbn [DateModel.bind_opt].
  rewrite (fixed_digits_app 2 0 _ h) by (apply fixed_digits_pad; lia).
  cbn [DateModel.bind_opt]. cbn [append]. rewrite expect_same. cbn [DateModel.bind_opt].
  rewrite (fixed_digits_app 2 0 _ mi) by (apply fixed_digits_pad; lia).
  cbn [DateModel.bind_opt]. cbn [append]. rewrite expect_same. cbn [DateModel.bind_opt].
  rewrite (fixed_digits_app 2 0 _ se) by (apply fixed_digits_pad; lia).
  cbn [DateModel.bind_opt DateModel.millis_and_zone].
  replace (1 <=? mo) with true by (symmetry; apply Z.leb_le; lia).
  replace (mo <=? 12) with true by (symmetry; apply Z.leb_le; lia).
  replace (1 <=? d) with true by (symmetry; apply Z.leb_le; lia).
  replace (d <=? DateModel.days_in_month y mo) with true
    by (symmetry; apply Z.leb_le; lia).
  replace (h <=? 23) with true by (symmetry; apply Z.leb_le; lia).
  replace (mi <=? 59) with true by (symmetry; apply Z.leb_le; lia).
  replace (se <=? 59) with true by (symmetry; apply Z.leb_le; lia).
  cbn [andb orb]. unfold DateModel.TimeClip.
  replace (Z.abs _ <=? DateModel.maxTime) with true.
  - now rewrite Z.add_0_r.
  - symmetry. apply Z.leb_le. unfold DateModel.maxTime, DateModel.msPerDay. lia.
Qed.

End StartDate.

(** X16. For an activity whose [start_date] is a valid date and time of
    the years 1000 to 9999 in the notation of the upstream
    ([YYYY-MM-DDTHH:mm:ssZ]), the DTSTART line of its event carries the
    same six fields, with the punctuation removed and no shift of time
    zone. *)
Theorem dtstart_is_start_date (now : Z) (a : StravaActivity)
  (y mo d h mi se : Z) :
  (1000 <= y <= 9999)%Z -> (1 <= mo <= 12)%Z ->
  (1 <= d <= DateModel.days_in_month y mo)%Z ->
  (0 <= h <= 23)%Z -> (0 <= mi <= 59)%Z -> (0 <= se <= 59)%Z ->
  start_date a = iso_date_time y mo d h mi se ->
  formatAsUTC (event_start a) = compact_date_time y mo d h mi se
  /\ nth 3 (event_lines now a) ""
     = "DTSTART:" ++ compact_date_time y mo d h mi se.
Proof.
  intros Hy Hmo Hd Hh Hmi Hse Hs.
  assert (Hf : formatAsUTC (event_start a) = compact_date_time y mo d h mi se).
  { unfold event_start. rewrite Hs, parse_iso_date_time by assumption.
    destruct (clock_fields (DateModel.days_from_civil y mo d) h mi se)
      as (Hdays & Hh' & Hmi' & Hse'); try lia.
    unfold formatAsUTC, compact_date_time, DateModel.getUTCFullYear,
      DateModel.getUTCMonth, DateModel.getUTCDate.
    rewrite Hdays, Hh', Hmi', Hse', civil_round_trip by assumption.
    cbn [fst snd]. now rewrite Z.sub_add. }
  split; [exact Hf|]. unfold event_lines. cbn [nth]. now rewrite Hf.
Qed.

(** New Year's Day of 2024 at eight in the morning. *)
Lemma dtstart_is_start_date_witness :
  formatAsUTC (event_start (Sample.activity 48 "Late" (Text "Run") Undefined 60))
  = compact_date_time 2024 1 1 8 0 0.
Proof.
  apply (dtstart_is_start_date 0 (Sample.activity 48 "Late" (Text "Run") Undefined 60)
           2024 1 1 8 0 0);
    try lia; [vm_compute; split; discriminate | reflexivity].
Defined.

(** ** How many pages are requested *)

Section Requests.

Lemma pages_requested_map (a : jsnum) (tk : string) (ps : list nat) :
  pages_requested (map (page_call a tk) ps) = ps.
Proof.
  induction ps as [|p ps IH]; [reflexivity|]. simpl. now rewrite IH.
Qed.

Variable w : World.
Variable after : jsnum.
Variable tok : string.
Variable max : jsnum.

(** Without an allow-list every page that is not empty adds an activity,
    so the loop asks for no more pages than the cap leaves room for. *)
Lemma loop_requests_bounded (N : nat) :
  denotes max N ->
  forall fuel page acc,
    List.length acc <= N ->
    List.length (fst (fetch_loop fuel w after tok None max page acc))
    <= N - List.length acc.
Proof.
  intros Hmax. induction fuel as [|fuel IH]; intros page acc Hacc.
  - cbn [fetch_loop]. destruct (js_lt (of_nat (List.length acc)) max); simpl; lia.
  - destruct (js_lt (of_nat (List.length acc)) max) eqn:H.
    2:{ rewrite loop_done by exact H. simpl. lia. }
    pose proof H as Hlt. rewrite (js_lt_denotes max N _ Hmax) in Hlt.
    apply Nat.ltb_lt in Hlt.
    destruct (activities_endpoint w page) as [b|st text b] eqn:E.
    2:{ rewrite (loop_refused _ _ _ _ _ _ _ _ _ _ _ H E). simpl. lia. }
    destruct b as [|a b].
    { rewrite (loop_empty _ _ _ _ _ _ _ _ H E). simpl. lia. }
    rewrite (loop_step _ _ _ _ _ _ _ _ _ H E) by discriminate. cbn [fst List.length].
    assert (Hgrow : List.length acc < List.length (for_batch None max (a :: b) acc)
                    /\ List.length (for_batch None max (a :: b) acc) <= N).
    { rewrite (for_batch_spec None max N Hmax). rewrite length_app, length_firstn.
      cbn [filter passes List.length]. lia. }
    specialize (IH (Datatypes.S page) (for_batch None max (a :: b) acc)).
    lia.
Qed.

(** Pages that are never empty and hold nothing that passes keep the
    loop going for as long as it is run. *)
Lemma loop_starves (allowedSports : option (list string)) (acc : list StravaActivity) :
  js_lt (of_nat (List.length acc)) max = true ->
  (forall p, exists b, activities_endpoint w p = Success b /\ b <> []
                       /\ Forall (fun a => passes allowedSports a = false) b) ->
  forall fuel page,
    fetch_loop fuel w after tok allowedSports max page acc
    = (map (page_call after tok) (seq page fuel), OutOfFuel).
Proof.
  intros Hlt Hpages.
  assert (Hskip : forall b, Forall (fun a => passes allowedSports a = false) b ->
                            for_batch allowedSports max b acc = acc).
  { induction 1 as [|a b Ha _ IH]; [reflexivity|].
    cbn [for_batch]. rewrite Ha. cbn [negb].
    destruct (js_ge (of_nat (List.length acc)) max); [reflexivity | exact IH]. }
  induction fuel as [|fuel IH]; intros page.
  - cbn [fetch_loop]. now rewrite Hlt.
  - destruct (Hpages page) as (b & E & Hb & Hfail).
    rewrite (loop_step _ _ _ _ _ _ _ _ _ Hlt E Hb), (Hskip b Hfail), IH.
    reflexivity.
Qed.

End Requests.

(** X17. Without an allow-list, under a cap of [N] the handler requests
    at most [N] pages, whatever the upstream answers. *)
Theorem requests_bounded_without_filter (w : World) (q : Query) (N fuel : nat) :
  denotes (effective_max q) N ->
  allowedSports_of (sport q) = None ->
  List.length (pages_requested (fst (handler fuel w q))) <= N.
Proof.
  intros Hmax Hnone. rewrite handler_trace.
  destruct (fetch_activities_cases fuel w q)
    as [(msg & E) | (i & s & r & _ & _ & _ & [(msg & E) | (tok & _ & E)])].
  - rewrite E. simpl. lia.
  - rewrite E. simpl. lia.
  - cbv zeta in E. rewrite E. cbn [fst pages_requested flat_map List.app].
    fold (pages_requested
            (fst (fetch_loop fuel w (after_of (Date_now w) (effective_sinceDays q))
                    tok (allowedSports_of (sport q)) (effective_max q) 1 []))).
    destruct (loop_trace w (after_of (Date_now w) (effective_sinceDays q)) tok
                (allowedSports_of (sport q)) (effective_max q) fuel 1 [])
      as (m & _ & Ht & _).
    pose proof (loop_requests_bounded w (after_of (Date_now w) (effective_sinceDays q))
                  tok (effective_max q) N Hmax fuel 1 []) as Hb.
    rewrite Hnone in Ht |- *. rewrite Ht in Hb |- *.
    rewrite pages_requested_map. rewrite length_map in Hb. simpl in Hb.
    specialize (Hb ltac:(lia)). lia.
Qed.

(** One ride on every page, [max=2], no [sport]: two requests. *)
Lemma requests_bounded_without_filter_witness :
  List.length (pages_requested
                 (fst (handler 10 rides_forever (Sample.query QAbsent (QString "2")))))
  <= 2.
Proof.
  apply (requests_bounded_without_filter rides_forever
           (Sample.query QAbsent (QString "2")) 2 10); reflexivity.
Defined.

(** X18. With an allow-list the loop need not end: when the token is
    obtained, the cap is a number, and every page of the upstream is not
    empty but holds no activity that passes, then however long the handler
    runs it sends no answer, and after [fuel] rounds it has requested the
    pages 1 to [fuel]. *)
Theorem filter_can_starve_the_loop (w : World) (q : Query) (tok : string) :
  authorized w tok ->
  Number_or 300 (max q) <> NaN ->
  (forall p, exists b,
       activities_endpoint w p = Success b /\ b <> []
       /\ Forall (fun a => passes (allowedSports_of (sport q)) a = false) b) ->
  forall fuel,
    snd (handler fuel w q) = None
    /\ pages_requested (fst (handler fuel w q)) = seq 1 fuel.
Proof.
  intros Ha Hnum Hpages fuel.
  assert (Hlt : js_lt (of_nat 0) (effective_max q) = true).
  { pose proof (clamped_range 600 300 (max q) ltac:(lia) Hnum) as Hr.
    unfold effective_max. destruct (clamped 600 300 (max q)) as [| |x|];
      try discriminate Hr.
    simpl in Hr |- *. apply andb_true_iff in Hr as [H1 _].
    apply Qle_bool_iff in H1. apply negb_true_iff.
    destruct (Qle_bool x (inject_Z 0)) eqn:E; [|reflexivity].
    apply Qle_bool_iff in E. change (inject_Z 0) with 0%Q in E.
    change (inject_Z 1) with 1%Q in H1. lra. }
  destruct (fetch_activities_authorized fuel w q tok Ha) as (i & s & r & E).
  cbv zeta in E.
  rewrite (loop_starves w _ tok _ _ [] Hlt Hpages) in E. cbn [fst snd] in E.
  split.
  - unfold handler, try_block. rewrite E. reflexivity.
  - rewrite handler_trace, E. cbn [fst pages_requested flat_map List.app].
    apply pages_requested_map.
Qed.

(** Rides on every page and [sport=run]. *)
Lemma filter_can_starve_the_loop_witness :
  snd (handler 5 rides_forever (Sample.query (QString "run") QAbsent)) = None
  /\ pages_requested
       (fst (handler 5 rides_forever (Sample.query (QString "run") QAbsent)))
     = seq 1 5.
Proof.
  apply (filter_can_starve_the_loop rides_forever
           (Sample.query (QString "run") QAbsent) "tok").
  - repeat split.
  - discriminate.
  - intros p. exists [Sample.ride1]. split; [reflexivity|].
    split; [discriminate|]. repeat constructor.
Defined.

(** ** Every answer *)

(** X19. Every answer of the handler, the feed as well as the error
    calendar, has status 200 or 500, a body that is not empty, whose first
    line is BEGIN:VCALENDAR and whose last line is END:VCALENDAR; with
    status 200 it holds one event block for each collected activity, with
    status 500 exactly one, and then the loop had thrown. *)
Theorem every_answer_is_a_calendar (fuel : nat) (w : World) (q : Query)
  (t : list NetCall) (resp : HttpResponse) :
  handler fuel w q = (t, Some resp) ->
  body resp <> EmptyString
  /\ hd EmptyString (Str.lines (body resp)) = "BEGIN:VCALENDAR"
  /\ last (Str.lines (body resp)) EmptyString = "END:VCALENDAR"
  /\ ((status resp = 200%Z
       /\ exists acts, fetch_activities fuel w q = (t, Return acts)
                       /\ Ics.event_blocks (body resp) = List.length acts)
      \/ (status resp = 500%Z
          /\ exists msg, fetch_activities fuel w q = (t, Throw msg)
                         /\ Ics.event_blocks (body resp) = 1)).
Proof.
  intros H.
  destruct (fetch_activities fuel w q) as [t' [acts|msg|]] eqn:E.
  - rewrite (handler_returns _ _ _ _ _ E) in H. inversion H; subst. cbn [body status].
    split; [discriminate|]. rewrite lines_build_ics.
    split; [reflexivity|]. split.
    + rewrite app_assoc. apply last_last.
    + left. split; [reflexivity|]. exists acts. split; [reflexivity|].
      apply event_blocks_build_ics.
  - rewrite (handler_throws _ _ _ _ _ E) in H. inversion H; subst. cbn [body status].
    split; [discriminate|]. rewrite lines_error_ics.
    split; [reflexivity|]. split; [reflexivity|].
    right. split; [reflexivity|]. exists msg. split; [reflexivity|].
    apply error_ics_one_event.
  - unfold handler, try_block in H. rewrite E in H. discriminate.
Qed.

(** The account with two pages under the default parameters. *)
Lemma every_answer_is_a_calendar_witness :
  exists t resp,
    handler 3 (Sample.world Sample.two_pages) (Sample.query QAbsent QAbsent)
    = (t, Some resp)
    /\ hd EmptyString (Str.lines (body resp)) = "BEGIN:VCALENDAR"
    /\ last (Str.lines (body resp)) EmptyString = "END:VCALENDAR".
Proof.
  destruct (handler 3 (Sample.world Sample.two_pages) (Sample.query QAbsent QAbsent))
    as [t [resp|]] eqn:E; [|vm_compute in E; discriminate].
  exists t, resp. split; [reflexivity|].
  destruct (every_answer_is_a_calendar 3 _ _ t resp E) as (_ & H1 & H2 & _).
  split; assumption.
Defined.
